(** * Darshan log utilities: the STDIO and Lustre record codecs

    A shallow embedding of [darshan-util/darshan-stdio-logutils.c] and
    [darshan-util/darshan-lustre-logutils.c].

    The C code works on raw record buffers: it reads chunks of the module's
    region of the log into a buffer, reverses 8-byte words in place when the
    log was written with the other byte order, and lays the variable-length
    Lustre record out by pointer arithmetic.  The embedding keeps that shape:
    a record buffer is a block of bytes at an address, the functions thread
    the log descriptor, the buffer and the allocator calls explicitly, and C
    integer conversions ([int], [int64_t], [size_t]) are written out.

    Platform: LP64, little-endian host (8-byte pointers and [size_t], 4-byte
    [int]). *)

From Stdlib Require Import String Ascii.
From Stdlib Require Import ZArith List Lia Bool.
From Stdlib Require Import Strings.Byte.
From Stdlib Require Import DecimalString.
Import ListNotations.
Local Open Scope Z_scope.

(** ** Bytes and C integers *)

Module Bytes.

Definition bytes := list byte.

Definition byte_to_Z (b : byte) : Z := Z.of_N (Byte.to_N b).

Definition byte_of_Z (z : Z) : byte :=
  match Byte.of_N (Z.to_N (z mod 256)) with
  | Some b => b
  | None => x00
  end.

(** Value of a run of bytes read as one little-endian unsigned integer. *)
Fixpoint le_decode (bs : bytes) : Z :=
  match bs with
  | [] => 0
  | b :: rest => byte_to_Z b + 256 * le_decode rest
  end.

(** The [n] low bytes of [z], least significant first (two's complement for
    a negative [z]). *)
Fixpoint le_encode (n : nat) (z : Z) : bytes :=
  match n with
  | O => []
  | S k => byte_of_Z z :: le_encode k (z / 256)
  end.

(** Conversion to [int] (32 bits, two's complement wrap-around). *)
Definition to_int (z : Z) : Z := (z + 2 ^ 31) mod 2 ^ 32 - 2 ^ 31.

(** Conversion to [int64_t]. *)
Definition to_int64 (z : Z) : Z := (z + 2 ^ 63) mod 2 ^ 64 - 2 ^ 63.

(** Conversion to [size_t] / [uint64_t]. *)
Definition to_size_t (z : Z) : Z := z mod 2 ^ 64.

(** [for (i = 0; i < n; i++) a = body(i, a);] *)
Definition for_upto {A : Type} (n : Z) (body : Z -> A -> A) (a : A) : A :=
  fold_left (fun acc i => body (Z.of_nat i) acc) (seq 0 (Z.to_nat n)) a.

End Bytes.
Export Bytes.

(** ** Record buffers

    A buffer is the run of bytes at some address.  An access outside the
    buffer is undefined behaviour in C; here an out-of-bounds write changes
    nothing, an out-of-bounds read yields the bytes that are there, and the
    access is recorded in the sticky flag [oob] so that results obtained
    after one can be told apart. *)

Module Mem.

Definition within (off len : Z) (m : bytes) : bool :=
  (0 <=? off) && (0 <=? len) && (off + len <=? Z.of_nat (length m)).

Definition mem_read (off len : Z) (m : bytes) : bytes :=
  firstn (Z.to_nat len) (skipn (Z.to_nat off) m).

Definition mem_write (off : Z) (src : bytes) (m : bytes) : bytes :=
  if within off (Z.of_nat (length src)) m
  then firstn (Z.to_nat off) m ++ src ++ skipn (Z.to_nat off + length src) m
  else m.

Record block : Type := mk_block {
  addr : Z;        (* the pointer value *)
  mem : bytes;     (* the bytes it points to *)
  oob : bool       (* some access through it fell outside [mem] *)
}.

(** [memcpy(p + off, src, |src|)] *)
Definition poke (off : Z) (src : bytes) (b : block) : block :=
  mk_block (addr b) (mem_write off src (mem b))
           (oob b || negb (within off (Z.of_nat (length src)) (mem b))).

(** Marks a read of [len] bytes at [p + off]. *)
Definition touch (off len : Z) (b : block) : block :=
  mk_block (addr b) (mem b) (oob b || negb (within off len (mem b))).

(** [*(int64_t * )(p + off)] *)
Definition load64 (off : Z) (m : bytes) : Z :=
  to_int64 (le_decode (mem_read off 8 m)).

(** [*(void ** )(p + off)] *)
Definition load_ptr (off : Z) (m : bytes) : Z :=
  le_decode (mem_read off 8 m).

(** [*(int64_t * )(p + off) = v] (also used for pointer members) *)
Definition store64 (off : Z) (v : Z) (b : block) : block :=
  poke off (le_encode 8 v) b.

(** [DARSHAN_BSWAP64(p + off)]: the eight bytes at [p + off] reversed in
    place. *)
Definition bswap64_bytes (off : Z) (m : bytes) : bytes :=
  mem_write off (rev (mem_read off 8 m)) m.

Definition DARSHAN_BSWAP64 (off : Z) (b : block) : block :=
  mk_block (addr b) (bswap64_bytes off (mem b))
           (oob b || negb (within off 8 (mem b))).

End Mem.
Export Mem.

(** ** The allocator *)

Module Heap.

Inductive heap_event : Type :=
  | Malloc (size : Z)
  | Realloc (p : Z) (size : Z)
  | Free (p : Z).

(** What the C library answers during one call: the address returned by
    [malloc] and by [realloc] ([None] for a null result) and the
    indeterminate contents of fresh memory. *)
Record allocator : Type := mk_allocator {
  malloc_ret : option Z;
  realloc_ret : option Z;
  junk : nat -> byte
}.

Definition fresh (h : allocator) (from len : nat) : bytes :=
  map (junk h) (seq from len).

Definition malloc (h : allocator) (size : Z) : option block :=
  match malloc_ret h with
  | Some a => Some (mk_block a (fresh h 0 (Z.to_nat size)) false)
  | None => None
  end.

(** [realloc] keeps the old contents up to the smaller of the two sizes. *)
Definition realloc (h : allocator) (b : block) (size : Z) : option block :=
  match realloc_ret h with
  | Some a =>
      let n := Z.to_nat size in
      Some (mk_block a (firstn n (mem b)
                        ++ fresh h (length (mem b)) (n - length (mem b)))
                     (oob b))
  | None => None
  end.

End Heap.
Export Heap.

(** ** The log descriptor and the container's two primitives *)

Module Log.

Record darshan_fd : Type := mk_fd {
  mod_len : Z;                  (* fd->mod_map[MOD].len *)
  mod_ver : Z;                  (* fd->mod_ver[MOD] *)
  swap_flag : bool;             (* fd->swap_flag *)
  mod_data : bytes;             (* what is left to read of the module's region *)
  mod_broken : bool;            (* reading past [mod_data] fails *)
  asked : list Z;               (* sizes asked of [darshan_log_get_mod] so far *)
  written : list (Z * bytes);   (* (version, bytes) appended by [darshan_log_put_mod] *)
  write_broken : bool           (* the writer rejects appends *)
}.

Definition after_read (fd : darshan_fd) (sz : Z) (rest : bytes) : darshan_fd :=
  mk_fd (mod_len fd) (mod_ver fd) (swap_flag fd) rest (mod_broken fd)
        (asked fd ++ [sz]) (written fd) (write_broken fd).

Definition after_write (fd : darshan_fd) (ver : Z) (src : bytes) : darshan_fd :=
  mk_fd (mod_len fd) (mod_ver fd) (swap_flag fd) (mod_data fd) (mod_broken fd)
        (asked fd) (written fd ++ [(ver, src)]) (write_broken fd).

(** Modelled from the spec: [darshan_log_get_mod] is declared in
    darshan-logutils.h and defined outside these two files.  The spec's
    [read_module_bytes(module_id, dest, length) -> bytes_read_or_error]:
    "read up to [length] bytes from the current module's region; returns
    fewer than requested at end of region".  The result is the count, the
    bytes copied to [dest] and the descriptor afterwards; a request that is
    not positive copies nothing and returns 0. *)
Definition darshan_log_get_mod (fd : darshan_fd) (sz : Z)
  : Z * bytes * darshan_fd :=
  let n := Z.to_nat sz in
  if (n <=? length (mod_data fd))%nat
  then (Z.of_nat n, firstn n (mod_data fd), after_read fd sz (skipn n (mod_data fd)))
  else if mod_broken fd
  then (-1, [], after_read fd sz (mod_data fd))
  else (Z.of_nat (length (mod_data fd)), mod_data fd, after_read fd sz []).

(** Modelled from the spec: [darshan_log_put_mod], also outside these files.
    The spec's [write_module_bytes(module_id, src, length, format_version)
    -> ok_or_error]: "append exactly [length] bytes, tagged with a format
    version for that module". *)
Definition darshan_log_put_mod (fd : darshan_fd) (src : bytes) (ver : Z)
  : Z * darshan_fd :=
  if write_broken fd then (-1, fd) else (0, after_write fd ver src).

End Log.
Export Log.

(** What a call of [get_record] leaves behind. *)
Record outcome : Type := mk_outcome {
  o_ret : Z;                    (* the returned code *)
  o_buf : option block;         (* the caller's pointer, and what it points to *)
  o_fd : darshan_fd;
  o_heap : list heap_event      (* allocator calls made, in order *)
}.

(** ** Constants of the log format

    [darshan-stdio-log-format.h] and [darshan-lustre-log-format.h] are not
    part of these two files; the constants the code takes from them are
    parameters of the development. *)

Record format : Type := mk_format {
  STDIO_NUM_INDICES : Z;          (* number of integer counters of a STDIO record *)
  STDIO_F_NUM_INDICES : Z;        (* number of floating point counters *)
  DARSHAN_STDIO_VER : Z;          (* current STDIO format version *)
  LUSTRE_COMP_NUM_INDICES : Z;    (* number of counters of a Lustre component *)
  LUSTRE_POOL_NAME_SIZE : Z;      (* sizeof(comp.pool_name) *)
  DARSHAN_LUSTRE_VER : Z          (* current Lustre format version *)
}.

(** Modelled from the spec: the enumeration [LUSTRE_COMP_COUNTERS] is not in
    these files; the spec gives the counters in order as "stripe size,
    stripe count, stripe pattern, flags, extent start, extent end, mirror
    id, and others". *)
Definition LUSTRE_COMP_STRIPE_SIZE : Z := 0.
Definition LUSTRE_COMP_STRIPE_COUNT : Z := 1.
Definition LUSTRE_COMP_STRIPE_PATTERN : Z := 2.
Definition LUSTRE_COMP_FLAGS : Z := 3.
Definition LUSTRE_COMP_EXT_START : Z := 4.
Definition LUSTRE_COMP_EXT_END : Z := 5.
Definition LUSTRE_COMP_MIRROR_ID : Z := 6.

(** [sizeof(struct darshan_base_record)]: [id] and [rank], 8 bytes each. *)
Definition sizeof_base_record : Z := 16.

(** One of [get_record]'s exits: code, caller's pointer, descriptor and
    allocator calls. *)
Definition leave (ret : Z) (buf_p : option block) (fd : darshan_fd)
    (ev : list heap_event) : outcome :=
  mk_outcome ret buf_p fd ev.

(** ** darshan-stdio-logutils.c *)

Section Stdio.

Variable F : format.

(** [sizeof(struct darshan_stdio_file)]: the base record, [int64_t
    counters[STDIO_NUM_INDICES]] and [double fcounters[STDIO_F_NUM_INDICES]]. *)
Definition sizeof_stdio_file : Z :=
  sizeof_base_record + 8 * STDIO_NUM_INDICES F + 8 * STDIO_F_NUM_INDICES F.

(** The byte swapping of a STDIO record: [id], [rank], then every counter
    and every floating point counter, which lie one after the other. *)
Definition stdio_bswap (file : block) : block :=
  let file := DARSHAN_BSWAP64 0 file in
  let file := DARSHAN_BSWAP64 8 file in
  let file := for_upto (STDIO_NUM_INDICES F)
                (fun i b => DARSHAN_BSWAP64 (sizeof_base_record + 8 * i) b) file in
  for_upto (STDIO_F_NUM_INDICES F)
    (fun i b => DARSHAN_BSWAP64
                  (sizeof_base_record + 8 * STDIO_NUM_INDICES F + 8 * i) b) file.

(** [darshan_log_get_stdio_record] (lines 60-107): "Return 1 on successful
    record read, 0 on no more data, and -1 on error." *)
Definition darshan_log_get_stdio_record (fd : darshan_fd) (h : allocator)
    (stdio_buf_p : option block) : outcome :=
  if mod_len fd =? 0 then leave 0 stdio_buf_p fd []
  else
    match (match stdio_buf_p with
           | Some b => Some b
           | None => malloc h sizeof_stdio_file
           end) with
    | None => leave (-1) None fd [Malloc sizeof_stdio_file]
    | Some file0 =>
        let '(ret, data, fd1) := darshan_log_get_mod fd sizeof_stdio_file in
        let file := poke 0 data file0 in
        (* if( *stdio_buf_p == NULL) { if(ret == sizeof) *stdio_buf_p = file; else free(file); } *)
        let keep := to_size_t ret =? sizeof_stdio_file in
        let result (contents : block) (code : Z) : outcome :=
          match stdio_buf_p with
          | Some _ => leave code (Some contents) fd1 []
          | None =>
              if keep
              then leave code (Some contents) fd1 [Malloc sizeof_stdio_file]
              else leave code None fd1
                     [Malloc sizeof_stdio_file; Free (addr file)]
          end in
        if ret <? 0 then result file (-1)
        else if to_size_t ret <? sizeof_stdio_file then result file 0
        else result (if swap_flag fd then stdio_bswap file else file) 1
    end.

(** [darshan_log_put_stdio_record] (lines 112-124); [ver] is not used. *)
Definition darshan_log_put_stdio_record (fd : darshan_fd) (stdio_buf : block)
    (ver : Z) : Z * darshan_fd :=
  let '(ret, fd1) :=
    darshan_log_put_mod fd (mem_read 0 sizeof_stdio_file (mem stdio_buf))
      (DARSHAN_STDIO_VER F) in
  if ret <? 0 then (-1, fd1) else (0, fd1).

End Stdio.

(** ** darshan-lustre-logutils.c *)

Section Lustre.

Variable F : format.

(** [struct darshan_lustre_record], from the members the code uses:
    [base_rec] and [num_comps] fill the first [fixed_size] bytes (they are
    what the fixed-size read fills in), then the two pointers [comps] and
    [ost_ids]. *)
Definition fixed_size : Z := sizeof_base_record + 8.
Definition off_num_comps : Z := sizeof_base_record.
Definition off_comps : Z := fixed_size.
Definition off_ost_ids : Z := fixed_size + 8.
Definition sizeof_lustre_record : Z := fixed_size + 8 + 8.

(** [struct darshan_lustre_component]: [int64_t
    counters[LUSTRE_COMP_NUM_INDICES]] followed by the [pool_name]
    characters, padded to the alignment of [int64_t]. *)
Definition off_pool_name : Z := 8 * LUSTRE_COMP_NUM_INDICES F.
Definition sizeof_lustre_component : Z :=
  off_pool_name + 8 * ((LUSTRE_POOL_NAME_SIZE F + 7) / 8).
Definition sizeof_OST_ID : Z := 8.

(** Offset in the record buffer of [rec->comps[i].counters[j]], the
    component array starting right after the record structure. *)
Definition counter_off (i j : Z) : Z :=
  sizeof_lustre_record + i * sizeof_lustre_component + 8 * j.

(** [for (i...) num_osts += comps[i].counters[LUSTRE_COMP_STRIPE_COUNT];]
    with [int num_osts] and the component array at offset [base]. *)
Definition count_osts (base : Z) (num_comps : Z) (m : bytes) : Z :=
  for_upto num_comps
    (fun i num_osts =>
       to_int (num_osts
               + load64 (base + i * sizeof_lustre_component
                         + 8 * LUSTRE_COMP_STRIPE_COUNT) m))
    0.

Definition touch_counts (base : Z) (num_comps : Z) (rec : block) : block :=
  for_upto num_comps
    (fun i b => touch (base + i * sizeof_lustre_component
                       + 8 * LUSTRE_COMP_STRIPE_COUNT) 8 b)
    rec.

(** [for (i...) for (j...) DARSHAN_BSWAP64(&rec->comps[i].counters[j]);] *)
Definition bswap_components (rec : block) : block :=
  for_upto (load64 off_num_comps (mem rec))
    (fun i b =>
       for_upto (LUSTRE_COMP_NUM_INDICES F)
         (fun j b => DARSHAN_BSWAP64 (counter_off i j) b) b)
    rec.

(** [for (i = 0; i < n; i++) DARSHAN_BSWAP64(&rec->ost_ids[i]);] with the
    identifier array at offset [ost_off]. *)
Definition bswap_ost_ids (ost_off n : Z) (rec : block) : block :=
  for_upto n (fun i b => DARSHAN_BSWAP64 (ost_off + 8 * i) b) rec.

(** The end of both readers:
    [if( *lustre_buf_p == NULL) { if(ret == 1) *lustre_buf_p = rec; else free(rec); }
     return(ret);] *)
Definition hand_back (lustre_buf_p : option block) (ret : Z) (rec : block)
    (fd : darshan_fd) (ev : list heap_event) : outcome :=
  match lustre_buf_p with
  | Some _ => leave ret (Some rec) fd ev
  | None =>
      if ret =? 1 then leave ret (Some rec) fd ev
      else leave ret None fd (ev ++ [Free (addr rec)])
  end.

(** [darshan_log_get_lustre_record_v1] (lines 171-244). *)
Definition darshan_log_get_lustre_record_v1 (fd : darshan_fd) (h : allocator)
    (lustre_buf_p : option block) : outcome :=
  let sizeof_fixed_record := 7 * 8 in
  let '(ret, data, fd1) := darshan_log_get_mod fd sizeof_fixed_record in
  if ret <? 0 then leave (-1) lustre_buf_p fd1 []
  else if ret <? sizeof_fixed_record then leave 0 lustre_buf_p fd1 []
  else
    let fixed_record :=
      if swap_flag fd
      then for_upto 7 (fun i m => bswap64_bytes (8 * i) m) data
      else data in
    let stripe_size := load64 (8 * 5) fixed_record in
    let stripe_count := load64 (8 * 6) fixed_record in
    let osts_bytes := to_size_t (stripe_count * sizeof_OST_ID) in
    let msize := to_size_t (sizeof_lustre_record + sizeof_lustre_component
                            + osts_bytes) in
    match (match lustre_buf_p with
           | Some b => Some b
           | None => malloc h msize
           end) with
    | None => leave (-1) None fd1 [Malloc msize]
    | Some rec =>
        let ev := match lustre_buf_p with
                  | Some _ => []
                  | None => [Malloc msize]
                  end in
        (* copy over base record first *)
        let rec := poke 0 (mem_read 0 sizeof_base_record fixed_record) rec in
        let rec := store64 off_num_comps 1 rec in
        let rec := store64 off_comps (addr rec + sizeof_lustre_record) rec in
        let rec := store64 off_ost_ids
                     (addr rec + sizeof_lustre_record + sizeof_lustre_component)
                     rec in
        (* fill in known parts of the component structure *)
        let rec := store64 (counter_off 0 LUSTRE_COMP_STRIPE_SIZE) stripe_size rec in
        let rec := store64 (counter_off 0 LUSTRE_COMP_STRIPE_COUNT) stripe_count rec in
        let rec := store64 (counter_off 0 LUSTRE_COMP_STRIPE_PATTERN) (-1) rec in
        let rec := store64 (counter_off 0 LUSTRE_COMP_FLAGS) (-1) rec in
        let rec := store64 (counter_off 0 LUSTRE_COMP_EXT_START) 0 rec in
        let rec := store64 (counter_off 0 LUSTRE_COMP_EXT_END) (-1) rec in
        let rec := store64 (counter_off 0 LUSTRE_COMP_MIRROR_ID) (-1) rec in
        let rec := poke (sizeof_lustre_record + off_pool_name) [x00] rec in
        (* read the OST list *)
        let ost_off := sizeof_lustre_record + sizeof_lustre_component in
        let '(ret, data, fd2) := darshan_log_get_mod fd1 (to_int osts_bytes) in
        let rec := poke ost_off data rec in
        (* [ret < (stripe_count * sizeof(OST_ID))] compares as unsigned long *)
        if to_size_t ret <? osts_bytes then hand_back lustre_buf_p (-1) rec fd2 ev
        else
          let rec :=
            if swap_flag fd then bswap_ost_ids ost_off stripe_count rec
            else rec in
          hand_back lustre_buf_p 1 rec fd2 ev
    end.

(** [darshan_log_get_lustre_record] from line 75 on: the current format,
    after the checks on the region length and the version. *)
Definition darshan_log_get_lustre_record_cur (fd : darshan_fd) (h : allocator)
    (lustre_buf_p : option block) : outcome :=
  (* retrieve the fixed-size portion of the record *)
  let '(ret, data, fd1) := darshan_log_get_mod fd fixed_size in
  if ret <? 0 then leave (-1) lustre_buf_p fd1 []
  else if ret <? fixed_size then leave 0 lustre_buf_p fd1 []
  else
    let tmp_rec :=
      if swap_flag fd
      then bswap64_bytes off_num_comps (bswap64_bytes 8 (bswap64_bytes 0 data))
      else data in
    let num_comps := load64 off_num_comps tmp_rec in
    let comps_size := to_int (to_size_t num_comps * sizeof_lustre_component) in
    let msize := to_size_t (sizeof_lustre_record + comps_size) in
    match (match lustre_buf_p with
           | Some b => Some b
           | None => malloc h msize
           end) with
    | None => leave (-1) None fd1 [Malloc msize]
    | Some rec =>
        let ev := match lustre_buf_p with
                  | Some _ => []
                  | None => [Malloc msize]
                  end in
        let rec := poke 0 (mem_read 0 fixed_size tmp_rec) rec in
        if num_comps <? 1 then
          let rec := store64 off_comps 0 rec in
          let rec := store64 off_ost_ids 0 rec in
          (* [ret] still holds the count of the fixed-size read *)
          hand_back lustre_buf_p ret rec fd1 ev
        else
          let rec := store64 off_comps (addr rec + sizeof_lustre_record) rec in
          (* now read all record components *)
          let '(ret, data, fd2) := darshan_log_get_mod fd1 comps_size in
          let rec := poke sizeof_lustre_record data rec in
          let rec :=
            if ret <? comps_size then rec
            else if swap_flag fd then bswap_components rec
            else rec in
          let num_osts :=
            count_osts sizeof_lustre_record (load64 off_num_comps (mem rec))
              (mem rec) in
          let rec := touch_counts sizeof_lustre_record
                       (load64 off_num_comps (mem rec)) rec in
          let osts_size := to_int (to_size_t num_osts * sizeof_OST_ID) in
          let rsize := to_size_t (sizeof_lustre_record + comps_size + osts_size) in
          match (match lustre_buf_p with
                 | Some _ => Some rec
                 | None => realloc h rec rsize
                 end) with
          | None => leave (-1) None fd2 (ev ++ [Realloc (addr rec) rsize])
          | Some rec' =>
              let ev := match lustre_buf_p with
                        | Some _ => ev
                        | None => ev ++ [Realloc (addr rec) rsize]
                        end in
              let rec := rec' in
              let rec := store64 off_comps (addr rec + sizeof_lustre_record) rec in
              let ost_off := sizeof_lustre_record + comps_size in
              let rec := store64 off_ost_ids (addr rec + ost_off) rec in
              (* now read the OST list *)
              let '(ret, data, fd3) := darshan_log_get_mod fd2 osts_size in
              let rec := poke ost_off data rec in
              if ret <? osts_size then hand_back lustre_buf_p (-1) rec fd3 ev
              else
                let rec :=
                  if swap_flag fd then bswap_ost_ids ost_off num_osts rec
                  else rec in
                hand_back lustre_buf_p 1 rec fd3 ev
          end
    end.

(** [darshan_log_get_lustre_record] (lines 51-169). *)
Definition darshan_log_get_lustre_record (fd : darshan_fd) (h : allocator)
    (lustre_buf_p : option block) : outcome :=
  if mod_len fd =? 0 then leave 0 lustre_buf_p fd []
  else if (mod_ver fd =? 0) || (DARSHAN_LUSTRE_VER F <? mod_ver fd)
  then leave (-1) lustre_buf_p fd []
  else if mod_ver fd =? 1
  then darshan_log_get_lustre_record_v1 fd h lustre_buf_p
  else darshan_log_get_lustre_record_cur fd h lustre_buf_p.

End Lustre.

Section LustreWrite.

Variable F : format.

(** Modelled from the spec: the macro [LUSTRE_RECORD_SIZE] is defined in
    darshan-lustre-log-format.h.  The spec's write path: "compute the exact
    serialized byte length (header + components + identifiers)".  The
    spec's words leave the header term open: the fixed-size part that the
    reader takes first, [fixed_size], or the structure with its two
    pointer members, [sizeof(struct darshan_lustre_record)], which the
    read path allocates.  [header] is that term. *)
Definition LUSTRE_RECORD_SIZE_with (header comps osts : Z) : Z :=
  to_size_t (header + sizeof_lustre_component F * comps
             + sizeof_OST_ID * osts).

(** The macro with the header term of the read path's allocation,
    [sizeof(struct darshan_lustre_record) + comps_size + osts_size]. *)
Definition LUSTRE_RECORD_SIZE (comps osts : Z) : Z :=
  LUSTRE_RECORD_SIZE_with sizeof_lustre_record comps osts.

(** [rec->comps] as an offset into the record's own buffer. *)
Definition comps_base (rec : block) : Z := load_ptr off_comps (mem rec) - addr rec.

(** [rec->ost_ids] as an offset into the record's own buffer. *)
Definition osts_base (rec : block) : Z := load_ptr off_ost_ids (mem rec) - addr rec.

(** [darshan_log_put_lustre_record] (lines 246-264): the bytes handed to
    the writer are the [size] bytes that start at [rec].  [header] is the
    header term of [LUSTRE_RECORD_SIZE]. *)
Definition darshan_log_put_lustre_record_with (header : Z) (fd : darshan_fd)
    (lustre_buf : block) : Z * darshan_fd :=
  let rec := lustre_buf in
  let num_osts :=
    count_osts F (comps_base rec) (load64 off_num_comps (mem rec)) (mem rec) in
  let size :=
    to_int (LUSTRE_RECORD_SIZE_with header
              (load64 off_num_comps (mem rec)) num_osts) in
  let '(ret, fd1) :=
    darshan_log_put_mod fd (mem_read 0 size (mem rec)) (DARSHAN_LUSTRE_VER F) in
  if ret <? 0 then (-1, fd1) else (0, fd1).

(** The writer with [LUSTRE_RECORD_SIZE] as above. *)
Definition darshan_log_put_lustre_record (fd : darshan_fd) (lustre_buf : block)
    : Z * darshan_fd :=
  darshan_log_put_lustre_record_with sizeof_lustre_record fd lustre_buf.

(** *** A record as its consumers see it

    [darshan_log_print_lustre_record] walks [rec->comps[i].counters[j]],
    [rec->comps[i].pool_name] and [rec->ost_ids[k]]; the same walk gives the
    contents of a record buffer as values. *)

Fixpoint c_string (bs : bytes) : bytes :=
  match bs with
  | [] => []
  | b :: rest => if Byte.eqb b x00 then [] else b :: c_string rest
  end.

Record component : Type := mk_component {
  counters : list Z;
  pool_name : bytes
}.

Record lustre_record : Type := mk_lustre_record {
  base_rec_id : Z;
  base_rec_rank : Z;
  num_comps : Z;
  comps : list component;
  ost_ids : list Z
}.

Definition upto (n : Z) : list Z := map Z.of_nat (seq 0 (Z.to_nat n)).

Definition component_at (rec : block) (i : Z) : component :=
  let base := comps_base rec + i * sizeof_lustre_component F in
  mk_component
    (map (fun j => load64 (base + 8 * j) (mem rec))
         (upto (LUSTRE_COMP_NUM_INDICES F)))
    (c_string (mem_read (base + off_pool_name F) (LUSTRE_POOL_NAME_SIZE F)
                 (mem rec))).

Definition record_of (rec : block) : lustre_record :=
  let n := load64 off_num_comps (mem rec) in
  mk_lustre_record
    (load_ptr 0 (mem rec))
    (load64 8 (mem rec))
    n
    (map (component_at rec) (upto n))
    (map (fun k => load64 (osts_base rec + 8 * k) (mem rec))
         (upto (count_osts F (comps_base rec) n (mem rec)))).

(** What [get_record] handed to the caller, if anything. *)
Definition decoded (o : outcome) : option lustre_record :=
  option_map record_of (o_buf o).

End LustreWrite.

(** *** Printing *)

Local Open Scope string_scope.

Definition flag_str_table : list string :=
  [ "stale,"; "prefrd,"; "prefwr,"; "offline,"; "init,"; "nosync,";
    "extension,"; "parity,"; "compress,"; "partial,"; "nocompr,"; "neg," ].

Definition strlen (s : string) : Z := Z.of_nat (String.length s).

(** [strncat(dest, src, n)]: at most [n] characters of [src] are appended.
    This is the string as a build without bounds checks leaves it.  The
    terminating NUL that [strncat] adds after the characters is not part
    of the string; with [n = 64 - strlen(dest)] it can land one past a
    64-byte array, which [strncat_checked] below accounts for. *)
Definition strncat (dest src : string) (n : Z) : string :=
  dest ++ substring 0 (Z.to_nat n) src.

(** [strncat(dest, src, n)] into an array of [capacity] bytes.  The call
    writes the characters it appends and then a NUL, that is
    [min(strlen(src), n) + 1] bytes from [dest + strlen(dest)]; when they
    do not fit the array the behaviour is undefined ([None]). *)
Definition strncat_checked (capacity : Z) (dest src : string) (n : Z)
    : option string :=
  if (strlen dest + Z.min (strlen src) n + 1 <=? capacity)%Z
  then Some (strncat dest src n)
  else None.

(** The [LUSTRE_COMP_FLAGS] branch of [darshan_log_print_lustre_record]:
    the string printed for one component's flags counter, as a build
    without bounds checks prints it. *)
Definition lustre_flags_str (counter : Z) : string :=
  let flags := to_size_t counter in
  let '(flag_str, _) :=
    fold_left
      (fun '(flag_str, flag) label =>
         ((if (Z.land flags flag =? 0)%Z then flag_str
           else strncat flag_str label (64 - strlen flag_str)%Z),
          to_size_t (Z.shiftl flag 1)))
      flag_str_table ("", 1%Z) in
  (* drop last ',' separator *)
  let flag_str :=
    match flag_str with
    | EmptyString => "0"
    | _ => substring 0 (String.length flag_str - 1)%nat flag_str
    end in
  if (flags =? to_size_t (-1))%Z then "N/A" else flag_str.

(** The [LUSTRE_COMP_FLAGS] branch with the bounds of [char flag_str[64]]
    checked: there is no string ([None]) once a [strncat] has written past
    the array. *)
Definition lustre_flags_str_checked (counter : Z) : option string :=
  let flags := to_size_t counter in
  let '(flag_str, _) :=
    fold_left
      (fun '(flag_str, flag) label =>
         ((if (Z.land flags flag =? 0)%Z then flag_str
           else match flag_str with
                | Some flag_str =>
                    strncat_checked 64 flag_str label (64 - strlen flag_str)%Z
                | None => None
                end),
          to_size_t (Z.shiftl flag 1)))
      flag_str_table (Some "", 1%Z) in
  match flag_str with
  | None => None
  | Some flag_str =>
      (* drop last ',' separator *)
      let flag_str :=
        match flag_str with
        | EmptyString => "0"
        | _ => substring 0 (String.length flag_str - 1)%nat flag_str
        end in
      Some (if (flags =? to_size_t (-1))%Z then "N/A" else flag_str)
  end.

(** The [LUSTRE_COMP_STRIPE_PATTERN] branch. *)
Definition lustre_pattern_str (counter : Z) : string :=
  let pattern := to_size_t counter in
  if (pattern =? 0)%Z then "raid0"
  else if (pattern =? 2)%Z then "mdt"
  else if (pattern =? 4)%Z then "raid0,overstriped"
  else if (pattern =? 8)%Z then "foreign"
  else "N/A".

(** [darshan_log_print_lustre_record_diff]: the lines printed.  The whole
    body of the function is inside [#if 0 ... #endif]; what is compiled is
    the declarations and [return]. *)
Definition darshan_log_print_lustre_record_diff
    (rec1 : option block) (file_name1 : string)
    (rec2 : option block) (file_name2 : string) : list string :=
  [].

(** *** The flags rendering in the spec's words

    "each set bit appends one fixed label from an ordered table ... joined
    by commas with no trailing separator; an all-zero value prints "0"; the
    all-ones sentinel value prints "N/A"". *)

Definition flag_labels : list string :=
  [ "stale"; "prefrd"; "prefwr"; "offline"; "init"; "nosync";
    "extension"; "parity"; "compress"; "partial"; "nocompr"; "neg" ].

Definition set_labels (flags : Z) : list string :=
  map snd
    (filter (fun kl => Z.testbit flags (Z.of_nat (fst kl)))
       (combine (seq 0 12) flag_labels)).

Definition flags_as_specified (counter : Z) : string :=
  let flags := to_size_t counter in
  if (flags =? 2 ^ 64 - 1)%Z then "N/A"
  else match set_labels flags with
       | [] => "0"
       | labels => String.concat "," labels
       end.

Local Close Scope string_scope.

(** *** What is printed

    The printing functions write to the standard output through [printf]
    and the counter printing macros of darshan-logutils.h, which is not
    part of these two files.  Their output is modelled as the list of the
    calls made, each with its arguments. *)

(** The two entries of [darshan_module_names] these files print with. *)
Inductive darshan_module : Type :=
  | DARSHAN_STDIO_MOD
  | DARSHAN_LUSTRE_MOD.

(** What the printing functions send to the standard output: a [printf] of
    a fixed text, or one expansion of the counter printing macros of
    darshan-logutils.h with its arguments (module, rank, record id, counter
    name, value, file name, mount point, file system type).  The value of a
    floating point counter is given by the bits of the [double]. *)
Inductive output : Type :=
  | printf (text : string)
  | DARSHAN_COUNTER_PRINT (mod_name : darshan_module) (rank id : Z)
      (counter : string) (value : Z) (file_name mnt_pt fs_type : string)
  | DARSHAN_F_COUNTER_PRINT (mod_name : darshan_module) (rank id : Z)
      (counter : string) (bits : Z) (file_name mnt_pt fs_type : string)
  | DARSHAN_D_COUNTER_PRINT (mod_name : darshan_module) (rank id : Z)
      (counter : string) (value : Z) (file_name mnt_pt fs_type : string)
  | DARSHAN_S_COUNTER_PRINT (mod_name : darshan_module) (rank id : Z)
      (counter : string) (value : string) (file_name mnt_pt fs_type : string).

(** [x != y] on two [double]s given by their bits (IEEE 754 binary64): a
    NaN differs from everything, itself included; the two zeros are equal;
    otherwise the values differ exactly when the bits do. *)
Definition double_is_nan (bits : Z) : bool :=
  ((bits / 2 ^ 52) mod 2 ^ 11 =? 2047) && negb (bits mod 2 ^ 52 =? 0).

Definition double_is_zero (bits : Z) : bool := bits mod 2 ^ 63 =? 0.

(** [x != y]. *)
Definition double_ne (x y : Z) : bool :=
  double_is_nan x || double_is_nan y
  || negb ((double_is_zero x && double_is_zero y) || (x =? y)).

Section StdioPrint.

Variable F : format.

(** [stdio_counter_names] and [stdio_f_counter_names] are filled in from
    the lists [STDIO_COUNTERS] and [STDIO_F_COUNTERS] of
    darshan-stdio-log-format.h; the tables are parameters. *)
Variable stdio_counter_names : Z -> string.
Variable stdio_f_counter_names : Z -> string.

(** [file->counters[i]] and [file->fcounters[i]]. *)
Definition stdio_counter (file : block) (i : Z) : Z :=
  load64 (sizeof_base_record + 8 * i) (mem file).

Definition stdio_fcounter (file : block) (i : Z) : Z :=
  load_ptr (sizeof_base_record + 8 * STDIO_NUM_INDICES F + 8 * i) (mem file).

(** [DARSHAN_COUNTER_PRINT(darshan_module_names[DARSHAN_STDIO_MOD],
    file->base_rec.rank, file->base_rec.id, stdio_counter_names[i],
    file->counters[i], file_name, mnt_pt, fs_type)] *)
Definition stdio_counter_print (file : block) (file_name mnt_pt fs_type : string)
    (i : Z) : output :=
  DARSHAN_COUNTER_PRINT DARSHAN_STDIO_MOD
    (load64 8 (mem file)) (load_ptr 0 (mem file))
    (stdio_counter_names i) (stdio_counter file i) file_name mnt_pt fs_type.

Definition stdio_f_counter_print (file : block) (file_name mnt_pt fs_type : string)
    (i : Z) : output :=
  DARSHAN_F_COUNTER_PRINT DARSHAN_STDIO_MOD
    (load64 8 (mem file)) (load_ptr 0 (mem file))
    (stdio_f_counter_names i) (stdio_fcounter file i) file_name mnt_pt fs_type.

(** [darshan_log_print_stdio_record] (lines 127-152); [ver] is not used. *)
Definition darshan_log_print_stdio_record (file_rec : block)
    (file_name mnt_pt fs_type : string) (ver : Z) : list output :=
  let out :=
    for_upto (STDIO_NUM_INDICES F)
      (fun i out => out ++ [stdio_counter_print file_rec file_name mnt_pt fs_type i])
      [] in
  for_upto (STDIO_F_NUM_INDICES F)
    (fun i out => out ++ [stdio_f_counter_print file_rec file_name mnt_pt fs_type i])
    out.

(** One turn of either loop of [darshan_log_print_stdio_record_diff]:
    [if(!file2) ... else if(!file1) ... else if(differ) ...].  With both
    records absent the first branch reads [file1->base_rec.rank] through a
    null pointer: no output is defined ([None]). *)
Definition stdio_diff_step (file_rec1 : option block) (file_name1 : string)
    (file_rec2 : option block) (file_name2 : string)
    (differ : block -> block -> Z -> bool)
    (print : block -> string -> string -> string -> Z -> output)
    (i : Z) (out : option (list output)) : option (list output) :=
  match out with
  | None => None
  | Some out =>
      match file_rec2, file_rec1 with
      | None, None => None
      | None, Some file1 =>
          Some (out ++ [printf "- "; print file1 file_name1 ""%string ""%string i])
      | Some file2, None =>
          Some (out ++ [printf "+ "; print file2 file_name2 ""%string ""%string i])
      | Some file2, Some file1 =>
          if differ file1 file2 i
          then Some (out ++ [printf "- "; print file1 file_name1 ""%string ""%string i;
                             printf "+ "; print file2 file_name2 ""%string ""%string i])
          else Some out
      end
  end.

(** [darshan_log_print_stdio_record_diff] (lines 174-244). *)
Definition darshan_log_print_stdio_record_diff
    (file_rec1 : option block) (file_name1 : string)
    (file_rec2 : option block) (file_name2 : string) : option (list output) :=
  let out :=
    for_upto (STDIO_NUM_INDICES F)
      (stdio_diff_step file_rec1 file_name1 file_rec2 file_name2
         (fun file1 file2 i =>
            negb (stdio_counter file1 i =? stdio_counter file2 i))
         stdio_counter_print)
      (Some []) in
  for_upto (STDIO_F_NUM_INDICES F)
    (stdio_diff_step file_rec1 file_name1 file_rec2 file_name2
       (fun file1 file2 i =>
          double_ne (stdio_fcounter file1 i) (stdio_fcounter file2 i))
       stdio_f_counter_print)
    out.

End StdioPrint.

(** [%d] of [printf]. *)
Definition dec (z : Z) : string := NilZero.string_of_int (Z.to_int z).

(** [snprintf(ptr, size, ...)] where [ptr] points behind the first
    characters [kept] of the array: they stay, and at most [size - 1]
    characters of the formatted [text] follow. *)
Definition snprintf (kept : string) (size : Z) (text : string) : string :=
  kept ++ substring 0 (Z.to_nat (size - 1)) text.

Section LustrePrint.

Variable F : format.

(** [lustre_comp_counter_names] is filled in from the list
    [LUSTRE_COMP_COUNTERS] of darshan-lustre-log-format.h; the table is a
    parameter. *)
Variable lustre_comp_counter_names : Z -> string.

(** Lines 284-288: the name of counter [j] of component [i], the component
    number inserted before the second underscore.  The result is the part
    of [tmp_counter_str] before [ptr] and the whole string; there is none
    ([None]) when the name does not fit the 64 characters of
    [tmp_counter_str] or has no second underscore, [strstr] returning a
    null pointer that is then used. *)
Definition counter_label (i j : Z) : option (string * string) :=
  let name := lustre_comp_counter_names j in
  if 64 <=? strlen name then None
  else
    match index 0 "_" name with
    | None => None
    | Some first =>
        match index (S first) "_" name with
        | None => None
        | Some idx =>
            let kept := substring 0 idx name in
            Some (kept,
                  snprintf kept (64 - Z.of_nat idx)
                    (dec (to_int (i + 1))
                     ++ substring idx (String.length name - idx) name))
        end
    end.

(** Lines 289-343: the line of counter [j], its name being [label].
    There is none when the flags branch writes past [flag_str]. *)
Definition counter_print (rank id : Z) (file_name mnt_pt fs_type : string)
    (j : Z) (label : string) (value : Z) : option output :=
  if j =? LUSTRE_COMP_STRIPE_PATTERN
  then Some (DARSHAN_S_COUNTER_PRINT DARSHAN_LUSTRE_MOD rank id label
               (lustre_pattern_str value) file_name mnt_pt fs_type)
  else if j =? LUSTRE_COMP_FLAGS
  then option_map
         (fun flag_str =>
            DARSHAN_S_COUNTER_PRINT DARSHAN_LUSTRE_MOD rank id label
              flag_str file_name mnt_pt fs_type)
         (lustre_flags_str_checked value)
  else Some (DARSHAN_D_COUNTER_PRINT DARSHAN_LUSTRE_MOD rank id label value
               file_name mnt_pt fs_type).

(** Lines 345-351: the pool name line; [pool] is the string at
    [comps[i].pool_name]. *)
Definition pool_name_print (rank id : Z) (file_name mnt_pt fs_type : string)
    (kept : string) (i : Z) (pool : bytes) : output :=
  DARSHAN_S_COUNTER_PRINT DARSHAN_LUSTRE_MOD rank id
    (snprintf kept (64 - strlen kept) (dec (to_int (i + 1)) ++ "_POOL_NAME"))
    (match pool with
     | [] => "N/A"%string
     | _ => string_of_list_byte pool
     end)
    file_name mnt_pt fs_type.

(** Lines 354-358: the line of the [j]th identifier of component [i]. *)
Definition ost_id_print (rank id : Z) (file_name mnt_pt fs_type : string)
    (kept : string) (i j : Z) (value : Z) : output :=
  DARSHAN_D_COUNTER_PRINT DARSHAN_LUSTRE_MOD rank id
    (snprintf kept (64 - strlen kept)
       (dec (to_int (i + 1)) ++ "_OST_ID_" ++ dec j))
    value file_name mnt_pt fs_type.

(** Lines 282-359, the body of the loop over the components: the lines of
    component [i].  The state is the output so far and [global_ost_idx];
    there is none once a counter label or a flags string is undefined. *)
Definition print_component (rec : block) (file_name mnt_pt fs_type : string)
    (i : Z) (st : option (list output * Z)) : option (list output * Z) :=
  let m := mem rec in
  let rank := load64 8 m in
  let id := load_ptr 0 m in
  match st with
  | None => None
  | Some (out, global_ost_idx) =>
      let comp := comps_base rec + i * sizeof_lustre_component F in
      match
        for_upto (LUSTRE_COMP_NUM_INDICES F)
          (fun j st =>
             match st with
             | None => None
             | Some (out, _) =>
                 match counter_label i j with
                 | None => None
                 | Some (kept, label) =>
                     match counter_print rank id file_name mnt_pt fs_type
                             j label (load64 (comp + 8 * j) m) with
                     | None => None
                     | Some line => Some (out ++ [line], Some kept)
                     end
                 end
             end)
          (Some (out, None))
      with
      | None => None
      | Some (_, None) => None     (* [ptr] is used uninitialised *)
      | Some (out, Some kept) =>
          let out :=
            out ++ [pool_name_print rank id file_name mnt_pt fs_type kept i
                      (c_string (skipn (Z.to_nat (comp + off_pool_name F)) m))] in
          Some
            (for_upto (load64 (comp + 8 * LUSTRE_COMP_STRIPE_COUNT) m)
               (fun j '(out, global_ost_idx) =>
                  (out ++ [ost_id_print rank id file_name mnt_pt fs_type
                             kept i j
                             (load64 (osts_base rec + 8 * global_ost_idx) m)],
                   to_int (global_ost_idx + 1)))
               (out, global_ost_idx))
      end
  end.

(** [darshan_log_print_lustre_record] (lines 266-363). *)
Definition darshan_log_print_lustre_record (rec : block)
    (file_name mnt_pt fs_type : string) : option (list output) :=
  let m := mem rec in
  let first :=
    DARSHAN_D_COUNTER_PRINT DARSHAN_LUSTRE_MOD (load64 8 m) (load_ptr 0 m)
      "LUSTRE_NUM_COMPONENTS" (load64 off_num_comps m)
      file_name mnt_pt fs_type in
  option_map fst
    (for_upto (load64 off_num_comps m)
       (print_component rec file_name mnt_pt fs_type)
       (Some ([first], 0))).

End LustrePrint.

(** A format to run the code on: seven component counters, sixteen
    characters of pool name, current versions 2. *)
Definition sample_format : format := mk_format 14 17 2 7 16 2.

(** The on-disk form of the 8-byte value [v]: host order, or reversed when
    the log has the other byte order. *)
Definition word (swapped : bool) (v : Z) : bytes :=
  if swapped then rev (le_encode 8 v) else le_encode 8 v.

(** *** Sample inputs *)

Definition sample_heap : allocator :=
  mk_allocator (Some 256) (Some 512) (fun _ => xff).

(** A log whose module region holds [data], written at version [ver]. *)
Definition log_of (ver : Z) (swapped : bool) (data : bytes) : darshan_fd :=
  mk_fd (Z.of_nat (length data)) ver swapped data false [] [] false.

Definition zeros (n : nat) : bytes := repeat x00 n.

(** A caller's buffer of 256 zero bytes. *)
Definition sample_buffer : block := mk_block 65536 (zeros 256) false.

(** A component in host byte order: seven counters and an empty pool name. *)
Definition component_bytes (stripe_size stripe_count : Z) : bytes :=
  word false stripe_size ++ word false stripe_count ++ word false 0
  ++ word false 0 ++ word false 0 ++ word false (-1) ++ word false 0
  ++ zeros 16.

(** The header of a current-format record. *)
Definition header_bytes (swapped : bool) (id rank n : Z) : bytes :=
  word swapped id ++ word swapped rank ++ word swapped n.

(** A well-formed record of one component striped over two targets. *)
Definition one_component_stream : bytes :=
  header_bytes false 7 3 1 ++ component_bytes 1048576 2
  ++ word false 11 ++ word false 12.

(** A header announcing two components, followed by 88 bytes only: the
    first component and the first two counters of the second one. *)
Definition truncated_stream : bytes :=
  header_bytes false 7 3 2 ++ component_bytes 1048576 0
  ++ word false 1048576 ++ word false 0.

(** A record without components. *)
Definition no_component_stream : bytes := header_bytes false 7 3 0.

(** A log of the other byte order: a header announcing one component and
    the first two counters of it only, stripe count 1. *)
Definition truncated_swapped_stream : bytes :=
  header_bytes true 7 3 1 ++ word true 1048576 ++ word true 1.

(** A legacy block and its four identifiers. *)
Definition legacy_stream : bytes :=
  (word false 7 ++ word false 3 ++ word false 100 ++ word false 101
   ++ word false 102 ++ word false 65536 ++ word false 4)
  ++ (word false 1 ++ word false 2 ++ word false 3 ++ word false 4) ++ [].

(** *** Writing a decoded record and reading it again *)

(** [put_record] into an empty log, then [get_record] on a log that holds
    what was written, at the version it was tagged with and with the byte
    order flag clear. *)
Definition put_then_get (F : format) (h : allocator) (rec : block)
    (buf_p : option block) : outcome :=
  let '(ret, out) :=
    darshan_log_put_lustre_record F (log_of (DARSHAN_LUSTRE_VER F) false []) rec in
  match written out with
  | [(ver, bs)] => darshan_log_get_lustre_record F (log_of ver false bs) h buf_p
  | _ => leave ret None out []
  end.

(** The bytes one call of [put_record] appended. *)
Definition put_bytes (F : format) (rec : block) : list bytes :=
  map snd
    (written (snd (darshan_log_put_lustre_record F
                     (log_of (DARSHAN_LUSTRE_VER F) false []) rec))).

(** ** Vocabulary of the statements *)

(** The call made no allocator call and left the caller's pointer on the
    buffer it was given. *)
Definition same_buffer (b : block) (o : outcome) : Prop :=
  o_heap o = [] /\ option_map addr (o_buf o) = Some (addr b).

(** Number of bytes of the module's region a call consumed. *)
Definition consumed (fd : darshan_fd) (o : outcome) : Z :=
  Z.of_nat (length (mod_data fd)) - Z.of_nat (length (mod_data (o_fd o))).

(** The caller passed a buffer, or [malloc] answers. *)
Definition buffer_available (h : allocator) (buf_p : option block) : Prop :=
  buf_p <> None \/ malloc_ret h <> None.

(** Sizes for which the structures of the format are what the compiler
    makes of them: at least the seven named component counters, a pool name
    of at least one character, and record sizes that fit an [int]. *)
Definition format_ok (F : format) : Prop :=
  0 <= STDIO_NUM_INDICES F < 2 ^ 16 /\
  0 <= STDIO_F_NUM_INDICES F < 2 ^ 16 /\
  7 <= LUSTRE_COMP_NUM_INDICES F < 2 ^ 16 /\
  1 <= LUSTRE_POOL_NAME_SIZE F < 2 ^ 16.

(** The block lies in the address space and no access through it went
    astray. *)
Definition block_ok (b : block) : Prop :=
  0 < addr b /\ addr b + Z.of_nat (length (mem b)) <= 2 ^ 64 /\ oob b = false.

(** Size of the fixed-size part that the Lustre reader asks for first: the
    seven words of a legacy record, or the base record and [num_comps]. *)
Definition fixed_part (fd : darshan_fd) : Z :=
  if mod_ver fd =? 1 then 7 * 8 else fixed_size.

(** The version test of [darshan_log_get_lustre_record]. *)
Definition version_ok (F : format) (fd : darshan_fd) : Prop :=
  mod_ver fd <> 0 /\ mod_ver fd <= DARSHAN_LUSTRE_VER F.

(** [tmp_rec.num_comps] as the current-format reader computes it from the
    next bytes of the region. *)
Definition peek_num_comps (fd : darshan_fd) : Z :=
  let data := firstn (Z.to_nat fixed_size) (mod_data fd) in
  load64 off_num_comps
    (if swap_flag fd
     then bswap64_bytes off_num_comps (bswap64_bytes 8 (bswap64_bytes 0 data))
     else data).

(** Bytes left in the module's region. *)
Definition remaining (fd : darshan_fd) : Z := Z.of_nat (length (mod_data fd)).

(** The bytes [bs] sit at offset [off] of the buffer [m]. *)
Definition holds (m : bytes) (off : Z) (bs : bytes) : Prop :=
  0 <= off /\ off + Z.of_nat (length bs) <= Z.of_nat (length m) /\
  mem_read off (Z.of_nat (length bs)) m = bs.

(** The caller's buffer is a sound block of at least [size] bytes, or
    [malloc] answers with an address at which [size] bytes fit. *)
Definition buffer_ready (h : allocator) (buf_p : option block) (size : Z)
    : Prop :=
  match buf_p with
  | Some b => block_ok b /\ size <= Z.of_nat (length (mem b))
  | None => exists a, malloc_ret h = Some a /\ 0 < a /\ a + size <= 2 ^ 64
  end.

(** [comp.counters[j]] of a decoded component. *)
Definition counter (c : component) (j : Z) : Z :=
  nth (Z.to_nat j) (counters c) 0.

(** Number of characters of the labels of the set flags, each followed by
    its comma. *)
Definition rendering_length (counter : Z) : nat :=
  list_sum (map (fun l => S (String.length l)) (set_labels (to_size_t counter))).

(** ** Whole records

    Vocabulary of the statements about whole records: a record as a value,
    its bytes in the log, and what makes it a record of the format. *)

(** A run of 8-byte words as it lies in the log: each value as [word]
    lays it out, in the byte order of the log. *)
Definition words (swapped : bool) (vs : list Z) : bytes :=
  flat_map (word swapped) vs.

(** [struct darshan_stdio_file] as a value: the base record, the integer
    counters, and the floating point counters by the bits of each
    [double]. *)
Record stdio_file : Type := mk_stdio_file {
  stdio_id : Z;
  stdio_rank : Z;
  stdio_counters : list Z;
  stdio_fcounters : list Z
}.

(** The STDIO record a buffer holds, member by member. *)
Definition stdio_record_of (F : format) (file : block) : stdio_file :=
  let m := mem file in
  mk_stdio_file
    (load_ptr 0 m)
    (load64 8 m)
    (map (fun i => load64 (sizeof_base_record + 8 * i) m)
         (upto (STDIO_NUM_INDICES F)))
    (map (fun i => load_ptr (sizeof_base_record + 8 * STDIO_NUM_INDICES F + 8 * i) m)
         (upto (STDIO_F_NUM_INDICES F))).

(** The bytes of a STDIO record in the log. *)
Definition stdio_bytes (swapped : bool) (r : stdio_file) : bytes :=
  word swapped (stdio_id r) ++ word swapped (stdio_rank r)
  ++ words swapped (stdio_counters r) ++ words swapped (stdio_fcounters r).

(** Values of [int64_t] and of [uint64_t]. *)
Definition is_int64 (v : Z) : Prop := - 2 ^ 63 <= v < 2 ^ 63.
Definition is_uint64 (v : Z) : Prop := 0 <= v < 2 ^ 64.

(** A STDIO record of the format: members in range, and as many counters
    of each kind as the format has. *)
Definition stdio_file_ok (F : format) (r : stdio_file) : Prop :=
  is_uint64 (stdio_id r) /\ is_int64 (stdio_rank r) /\
  Z.of_nat (length (stdio_counters r)) = STDIO_NUM_INDICES F /\
  Forall is_int64 (stdio_counters r) /\
  Z.of_nat (length (stdio_fcounters r)) = STDIO_F_NUM_INDICES F /\
  Forall is_uint64 (stdio_fcounters r).

(** [put_record] of the STDIO module into an empty log, then [get_record]
    on a log that holds what was written, at the version it was tagged
    with and with the byte order flag clear. *)
Definition stdio_put_then_get (F : format) (h : allocator) (rec : block)
    (ver : Z) (buf_p : option block) : outcome :=
  let '(ret, out) :=
    darshan_log_put_stdio_record F (log_of (DARSHAN_STDIO_VER F) false []) rec ver in
  match written out with
  | [(v, bs)] => darshan_log_get_stdio_record F (log_of v false bs) h buf_p
  | _ => leave ret None out []
  end.

(** The bytes of one component in the log: its counters, then the pool
    name padded with NULs to the end of the structure. *)
Definition component_bytes_of (F : format) (swapped : bool) (c : component)
    : bytes :=
  words swapped (counters c) ++ pool_name c
  ++ zeros (Z.to_nat (sizeof_lustre_component F - off_pool_name F)
            - length (pool_name c)).

(** The bytes of a Lustre record in the log, as the current-format reader
    takes them: the fixed-size part, the components, the identifiers. *)
Definition lustre_bytes (F : format) (swapped : bool) (r : lustre_record)
    : bytes :=
  header_bytes swapped (base_rec_id r) (base_rec_rank r) (num_comps r)
  ++ flat_map (component_bytes_of F swapped) (comps r)
  ++ words swapped (ost_ids r).

(** The sum of the stripe counts of the components. *)
Definition stripe_total (cs : list component) : Z :=
  fold_right (fun c s => counter c LUSTRE_COMP_STRIPE_COUNT + s) 0 cs.

(** [LUSTRE_RECORD_SIZE] of the record's component and identifier counts. *)
Definition record_size (F : format) (r : lustre_record) : Z :=
  sizeof_lustre_record + num_comps r * sizeof_lustre_component F
  + sizeof_OST_ID * stripe_total (comps r).

(** [LUSTRE_RECORD_SIZE] of the same counts with the header term
    [header]. *)
Definition written_size (F : format) (header : Z) (r : lustre_record) : Z :=
  header + num_comps r * sizeof_lustre_component F
  + sizeof_OST_ID * stripe_total (comps r).

(** A component of the format: as many counters as the format has, each an
    [int64_t], a stripe count that is not negative, and a pool name
    without NUL that fits its array. *)
Definition component_ok (F : format) (c : component) : Prop :=
  Z.of_nat (length (counters c)) = LUSTRE_COMP_NUM_INDICES F /\
  Forall is_int64 (counters c) /\
  0 <= counter c LUSTRE_COMP_STRIPE_COUNT /\
  Z.of_nat (length (pool_name c)) <= LUSTRE_POOL_NAME_SIZE F /\
  ~ In x00 (pool_name c).

(** A Lustre record of the format with at least one component: the count
    of the components and the sum of the stripe counts are those of the
    two arrays, and the size of the whole fits an [int]. *)
Definition lustre_record_ok (F : format) (r : lustre_record) : Prop :=
  is_uint64 (base_rec_id r) /\ is_int64 (base_rec_rank r) /\
  num_comps r = Z.of_nat (length (comps r)) /\ 1 <= num_comps r /\
  Forall (component_ok F) (comps r) /\
  Z.of_nat (length (ost_ids r)) = stripe_total (comps r) /\
  Forall is_int64 (ost_ids r) /\
  record_size F r < 2 ^ 31.

(** A buffer of [size] bytes can be had and ends below the top of the
    address space: the caller's, or, with a null buffer pointer, one that
    [malloc] and then [realloc] hand out. *)
Definition heap_ready (h : allocator) (buf_p : option block) (size : Z)
    : Prop :=
  match buf_p with
  | Some b => block_ok b /\ size <= Z.of_nat (length (mem b)) /\
              addr b + size < 2 ^ 64
  | None => malloc_ret h <> None /\
            exists a, realloc_ret h = Some a /\ 0 < a /\ a + size < 2 ^ 64
  end.

(** The record [r] lies in the buffer the way the reader lays it out: the
    header, the two pointers, the components, the identifiers. *)
Definition laid_out (F : format) (rec : block) (r : lustre_record) : Prop :=
  0 < addr rec /\ addr rec + record_size F r < 2 ^ 64 /\
  holds (mem rec) 0
    (header_bytes false (base_rec_id r) (base_rec_rank r) (num_comps r)) /\
  holds (mem rec) off_comps (word false (addr rec + sizeof_lustre_record)) /\
  holds (mem rec) off_ost_ids
    (word false (addr rec + sizeof_lustre_record
                 + num_comps r * sizeof_lustre_component F)) /\
  holds (mem rec) sizeof_lustre_record
    (flat_map (component_bytes_of F false) (comps r)) /\
  holds (mem rec)
    (sizeof_lustre_record + num_comps r * sizeof_lustre_component F)
    (words false (ost_ids r)).

(** The buffer of a laid out record, from its first byte to the last
    identifier. *)
Definition memory_image (F : format) (rec : block) (r : lustre_record) : bytes :=
  header_bytes false (base_rec_id r) (base_rec_rank r) (num_comps r)
  ++ word false (addr rec + sizeof_lustre_record)
  ++ word false (addr rec + sizeof_lustre_record
                 + num_comps r * sizeof_lustre_component F)
  ++ flat_map (component_bytes_of F false) (comps r)
  ++ words false (ost_ids r).

(** The header and the components of [r] are as the format has them. *)
Definition header_and_components_ok (F : format) (r : lustre_record) : Prop :=
  is_uint64 (base_rec_id r) /\ is_int64 (base_rec_rank r) /\
  num_comps r = Z.of_nat (length (comps r)) /\ 1 <= num_comps r /\
  Forall (component_ok F) (comps r) /\
  record_size F r < 2 ^ 31.

(** Addresses handed out by the allocator and not released, after the
    calls [ev]. *)
Definition release (p : Z) (held : list Z) : list Z :=
  filter (fun q => negb (q =? p)) held.

(** One call of the allocator: [malloc] and a successful [realloc] hand
    out a block, [free] and a successful [realloc] release one. *)
Definition heap_step (h : allocator) (held : list Z) (e : heap_event) : list Z :=
  match e with
  | Malloc _ =>
      match malloc_ret h with Some a => held ++ [a] | None => held end
  | Realloc p _ =>
      match realloc_ret h with
      | Some a => release p held ++ [a]
      | None => held            (* a failed realloc leaves the block alone *)
      end
  | Free p => release p held
  end.

(** Addresses handed out by the allocator and not released, after the
    calls [ev]. *)
Definition still_held (h : allocator) (ev : list heap_event) : list Z :=
  fold_left (heap_step h) ev [].

(** What the caller owns after the call. *)
Definition owned (o : outcome) : list Z :=
  match o_buf o with Some rec => [addr rec] | None => [] end.

(** The record a legacy block is upgraded to. *)
Definition upgraded (rec : lustre_record) (id rank stripe_size stripe_count : Z)
    (ids : list Z) : Prop :=
  base_rec_id rec = id /\ base_rec_rank rec = rank /\ num_comps rec = 1 /\
  ost_ids rec = ids /\
  exists c,
    comps rec = [c] /\
    firstn 7 (counters c) = [stripe_size; stripe_count; -1; -1; 0; -1; -1] /\
    pool_name c = [].

(** No character of [s] is an underscore. *)
Fixpoint no_underscore (s : string) : Prop :=
  match s with
  | EmptyString => True
  | String c s' => c <> "_"%char /\ no_underscore s'
  end.

(** The names of the component counters cut at their second underscore:
    every name is [stem j] followed by [tail j], [stem j] has the form
    [a_b], [tail j] starts with an underscore, and the name fits
    [tmp_counter_str]. *)
Definition names_split (F : format) (names stem tail : Z -> string) : Prop :=
  forall j, 0 <= j < LUSTRE_COMP_NUM_INDICES F ->
    (String.length (names j) < 64)%nat /\
    exists a b c : string,
      no_underscore a /\ no_underscore b /\
      stem j = (a ++ "_" ++ b)%string /\ tail j = ("_" ++ c)%string /\
      names j = (a ++ "_" ++ b ++ "_" ++ c)%string.

(** The labels of the flags of every component fit [flag_str]. *)
Definition flags_fit (r : lustre_record) : Prop :=
  Forall (fun c => (rendering_length (counter c LUSTRE_COMP_FLAGS) < 64)%nat)
    (comps r).

(** The 63 characters that fit [tmp_counter_str]. *)
Definition label_cut (label : string) : string := substring 0 63 label.

(** The text of a stripe pattern. *)
Definition pattern_text (value : Z) : string :=
  match to_size_t value with
  | 0 => "raid0"
  | 2 => "mdt"
  | 4 => "raid0,overstriped"
  | 8 => "foreign"
  | _ => "N/A"
  end%string.

Section LustreLines.

Variable F : format.
Variables stem tail : Z -> string.
Variables (rank id : Z) (file_name mnt_pt fs_type : string).

(** The line of counter [j] of component [c], the [i]th one counted from
    0: the component number goes into the name before its second
    underscore; pattern and flags are printed as text. *)
Definition counter_line (i : Z) (c : component) (j : Z) : output :=
  let label := label_cut (stem j ++ dec (i + 1) ++ tail j) in
  if j =? LUSTRE_COMP_STRIPE_PATTERN
  then DARSHAN_S_COUNTER_PRINT DARSHAN_LUSTRE_MOD rank id label
         (pattern_text (counter c j)) file_name mnt_pt fs_type
  else if j =? LUSTRE_COMP_FLAGS
  then DARSHAN_S_COUNTER_PRINT DARSHAN_LUSTRE_MOD rank id label
         (flags_as_specified (counter c j)) file_name mnt_pt fs_type
  else DARSHAN_D_COUNTER_PRINT DARSHAN_LUSTRE_MOD rank id label
         (counter c j) file_name mnt_pt fs_type.

(** The pool name line of component [c]; its label starts as the name of
    the last counter does. *)
Definition pool_name_line (i : Z) (c : component) : output :=
  DARSHAN_S_COUNTER_PRINT DARSHAN_LUSTRE_MOD rank id
    (label_cut (stem (LUSTRE_COMP_NUM_INDICES F - 1) ++ dec (i + 1)
                ++ "_POOL_NAME"))
    (match pool_name c with
     | [] => "N/A"%string
     | name => string_of_list_byte name
     end)
    file_name mnt_pt fs_type.

(** The line of the [k]th stripe of component [i]. *)
Definition ost_id_line (i k : Z) (ost_id : Z) : output :=
  DARSHAN_D_COUNTER_PRINT DARSHAN_LUSTRE_MOD rank id
    (label_cut (stem (LUSTRE_COMP_NUM_INDICES F - 1) ++ dec (i + 1)
                ++ "_OST_ID_" ++ dec k))
    ost_id file_name mnt_pt fs_type.

(** The lines of the components [cs], numbered from [i], whose identifiers
    are the first ones of [ids]. *)
Fixpoint component_lines (i : Z) (cs : list component) (ids : list Z)
    : list output :=
  match cs with
  | [] => []
  | c :: cs' =>
      let k := Z.to_nat (counter c LUSTRE_COMP_STRIPE_COUNT) in
      map (counter_line i c) (upto (LUSTRE_COMP_NUM_INDICES F))
      ++ [pool_name_line i c]
      ++ map (fun k => ost_id_line i k (nth (Z.to_nat k) ids 0))
           (upto (Z.of_nat k))
      ++ component_lines (i + 1) cs' (skipn k ids)
  end.

End LustreLines.

(** The lines of a record: the number of components, then the lines of
    the components. *)
Definition record_lines (F : format) (stem tail : Z -> string)
    (r : lustre_record) (file_name mnt_pt fs_type : string) : list output :=
  DARSHAN_D_COUNTER_PRINT DARSHAN_LUSTRE_MOD (base_rec_rank r) (base_rec_id r)
    "LUSTRE_NUM_COMPONENTS" (num_comps r) file_name mnt_pt fs_type
  :: component_lines F stem tail (base_rec_rank r) (base_rec_id r)
       file_name mnt_pt fs_type 0 (comps r) (ost_ids r).


(** Every pool name leaves room for its terminating NUL. *)
Definition pool_names_terminated (F : format) (r : lustre_record) : Prop :=
  Forall (fun c => Z.of_nat (length (pool_name c)) < LUSTRE_POOL_NAME_SIZE F)
    (comps r).

(** The lines of a decoded STDIO record: one per integer counter, then one
    per floating point counter, in the order of the record. *)
Definition stdio_record_lines (stdio_counter_names stdio_f_counter_names : Z -> string)
    (r : stdio_file) (file_name mnt_pt fs_type : string) : list output :=
  map (fun '(i, v) =>
         DARSHAN_COUNTER_PRINT DARSHAN_STDIO_MOD (stdio_rank r) (stdio_id r)
           (stdio_counter_names i) v file_name mnt_pt fs_type)
      (combine (upto (Z.of_nat (length (stdio_counters r)))) (stdio_counters r))
  ++ map (fun '(i, v) =>
            DARSHAN_F_COUNTER_PRINT DARSHAN_STDIO_MOD (stdio_rank r) (stdio_id r)
              (stdio_f_counter_names i) v file_name mnt_pt fs_type)
       (combine (upto (Z.of_nat (length (stdio_fcounters r)))) (stdio_fcounters r)).

(** *** Sample records *)

(** A STDIO record of the sample format: fourteen integer counters and
    seventeen floating point counters, the first one 1.0 and the last one
    a NaN. *)
Definition sample_stdio_record : stdio_file :=
  mk_stdio_file 7 3
    [1; 2; 3; 4; 5; 6; 7; 8; 9; 10; 11; 12; -1; 0]
    [4607182418800017408; 0; 0; 0; 0; 0; 0; 0; 0; 0; 0; 0; 0; 0; 0; 0;
     9221120237041090560].

(** The same record in a buffer of the caller. *)
Definition sample_stdio_buffer : block :=
  mk_block 4096 (stdio_bytes false sample_stdio_record) false.

(** The first names of [STDIO_COUNTERS] and of [STDIO_F_COUNTERS]. *)
Definition sample_stdio_counter_names (i : Z) : string :=
  nth (Z.to_nat i) ["STDIO_OPENS"; "STDIO_FDOPENS"; "STDIO_READS"]%string
    "STDIO_COUNTER"%string.

Definition sample_stdio_f_counter_names (i : Z) : string :=
  nth (Z.to_nat i) ["STDIO_F_META_TIME"; "STDIO_F_WRITE_TIME"]%string
    "STDIO_F_COUNTER"%string.

(** The record of [one_component_stream]: one component striped over two
    targets, in a pool without a name. *)
Definition sample_record : lustre_record :=
  mk_lustre_record 7 3 1
    [mk_component [1048576; 2; 0; 0; 0; -1; 0] []] [11; 12].

(** A record of two components, the second one in the pool "flash". *)
Definition sample_record_2 : lustre_record :=
  mk_lustre_record 7 3 2
    [mk_component [1048576; 1; 0; 0; 0; 4194304; 0] [];
     mk_component [4194304; 2; 0; 16; 4194304; -1; 0]
       [x66; x6c; x61; x73; x68]]
    [11; 12; 13].

(** The names of the seven component counters, each cut at its second
    underscore. *)
Definition sample_stem (j : Z) : string := "LUSTRE_COMP"%string.

Definition sample_tail (j : Z) : string :=
  nth (Z.to_nat j)
    ["_STRIPE_SIZE"; "_STRIPE_COUNT"; "_STRIPE_PATTERN"; "_FLAGS";
     "_EXT_START"; "_EXT_END"; "_MIRROR_ID"]%string
    "_COUNTER"%string.

Definition sample_names (j : Z) : string :=
  (sample_stem j ++ sample_tail j)%string.


(** A log whose reads fail once the region is exhausted. *)
Definition broken_log_of (ver : Z) (swapped : bool) (data : bytes)
    : darshan_fd :=
  mk_fd (Z.of_nat (length data)) ver swapped data true [] [] false.

(** A legacy block announcing four identifiers, followed by one only. *)
Definition legacy_cut_stream : bytes :=
  words false [7; 3; 100; 101; 102; 65536; 4] ++ word false 1.


(** * Facts *)

(** ** Loops and addresses *)

Lemma for_upto_invariant {A : Type} (P : A -> Prop) (n : Z)
    (body : Z -> A -> A) (a : A) :
  P a -> (forall i x, P x -> P (body i x)) -> P (for_upto n body a).
Proof.
  intros Ha Hstep. unfold for_upto.
  generalize (seq 0 (Z.to_nat n)) a Ha.
  induction l as [|i l IH]; simpl; intros; auto.
Qed.

Lemma addr_for_upto n (body : Z -> block -> block) b :
  (forall i x, addr (body i x) = addr x) -> addr (for_upto n body b) = addr b.
Proof.
  intros H. apply (for_upto_invariant (fun x => addr x = addr b)); auto.
  intros i x Hx. now rewrite H.
Qed.

Lemma addr_poke off src b : addr (poke off src b) = addr b.
Proof. reflexivity. Qed.

Lemma addr_store64 off v b : addr (store64 off v b) = addr b.
Proof. reflexivity. Qed.

Lemma addr_bswap_components F rec : addr (bswap_components F rec) = addr rec.
Proof.
  unfold bswap_components. apply addr_for_upto.
  intros. now apply addr_for_upto.
Qed.

Lemma addr_bswap_ost_ids off n rec : addr (bswap_ost_ids off n rec) = addr rec.
Proof. unfold bswap_ost_ids. now apply addr_for_upto. Qed.

Lemma addr_touch_counts F base n rec :
  addr (touch_counts F base n rec) = addr rec.
Proof. unfold touch_counts. now apply addr_for_upto. Qed.

Lemma addr_stdio_bswap F file : addr (stdio_bswap F file) = addr file.
Proof. unfold stdio_bswap. now rewrite !addr_for_upto. Qed.

(** ** The caller's buffer *)

Lemma hand_back_same b ret rec fd :
  addr rec = addr b -> same_buffer b (hand_back (Some b) ret rec fd []).
Proof. intros H. split; simpl; [reflexivity | now rewrite H]. Qed.

Lemma get_lustre_record_v1_same F fd h b :
  same_buffer b (darshan_log_get_lustre_record_v1 F fd h (Some b)).
Proof.
  unfold darshan_log_get_lustre_record_v1.
  destruct (darshan_log_get_mod fd (7 * 8)) as [[ret data] fd1].
  destruct (ret <? 0); [split; reflexivity|].
  destruct (ret <? 7 * 8); [split; reflexivity|].
  cbv zeta.
  destruct (darshan_log_get_mod fd1 _) as [[ret1 data1] fd2].
  destruct (to_size_t ret1 <? _); apply hand_back_same; [reflexivity|].
  destruct (swap_flag fd); [|reflexivity].
  now rewrite addr_bswap_ost_ids.
Qed.

Lemma get_lustre_record_cur_same F fd h b :
  same_buffer b (darshan_log_get_lustre_record_cur F fd h (Some b)).
Proof.
  unfold darshan_log_get_lustre_record_cur.
  destruct (darshan_log_get_mod fd fixed_size) as [[ret data] fd1].
  destruct (ret <? 0); [split; reflexivity|].
  destruct (ret <? fixed_size); [split; reflexivity|].
  cbv zeta.
  destruct (_ <? 1); [apply hand_back_same; reflexivity|].
  destruct (darshan_log_get_mod fd1 _) as [[ret1 data1] fd2].
  destruct (darshan_log_get_mod fd2 _) as [[ret2 data2] fd3].
  destruct (ret2 <? _); apply hand_back_same;
    destruct (ret1 <? _); destruct (swap_flag fd);
    repeat first
      [ rewrite addr_bswap_ost_ids | rewrite addr_poke | rewrite addr_store64
      | rewrite addr_touch_counts | rewrite addr_bswap_components ];
    reflexivity.
Qed.

Lemma get_lustre_record_same F fd h b :
  same_buffer b (darshan_log_get_lustre_record F fd h (Some b)).
Proof.
  unfold darshan_log_get_lustre_record.
  destruct (mod_len fd =? 0); [split; reflexivity|].
  destruct (_ || _); [split; reflexivity|].
  destruct (mod_ver fd =? 1).
  - apply get_lustre_record_v1_same.
  - apply get_lustre_record_cur_same.
Qed.

Lemma get_stdio_record_same F fd h b :
  same_buffer b (darshan_log_get_stdio_record F fd h (Some b)).
Proof.
  unfold darshan_log_get_stdio_record.
  destruct (mod_len fd =? 0); [split; reflexivity|].
  destruct (darshan_log_get_mod fd _) as [[ret data] fd1].
  destruct (ret <? 0); [split; reflexivity|].
  destruct (to_size_t ret <? _); [split; reflexivity|].
  split; [reflexivity|]. simpl.
  destruct (swap_flag fd); [now rewrite addr_stdio_bswap | reflexivity].
Qed.

(** C10. When the caller supplies a record buffer ([*buf_p != NULL]),
    [get_record] of either module calls neither [malloc], [realloc] nor
    [free], and the caller's pointer is on the same buffer afterwards,
    whatever the call returns; so an allocator call happens only when the
    pointer supplied is null. *)
Theorem get_record_keeps_caller_buffer (F : format) (fd : darshan_fd)
    (h : allocator) (b : block) :
  same_buffer b (darshan_log_get_stdio_record F fd h (Some b)) /\
  same_buffer b (darshan_log_get_lustre_record F fd h (Some b)) /\
  (forall buf_p : option block,
      buf_p = None \/
      (o_heap (darshan_log_get_stdio_record F fd h buf_p) = [] /\
       o_heap (darshan_log_get_lustre_record F fd h buf_p) = [])).
Proof.
  split; [apply get_stdio_record_same|].
  split; [apply get_lustre_record_same|].
  intros [b'|]; [right | now left].
  split.
  - apply (get_stdio_record_same F fd h b').
  - apply (get_lustre_record_same F fd h b').
Qed.

(** ** The version tag written by [put_record] *)

(** C9, as amended.  [darshan_log_put_stdio_record] does not look at its
    [ver] argument: unless the writer rejects the append, the record's
    bytes are appended tagged with [DARSHAN_STDIO_VER], the current version
    of the module, and the call is the same for every [ver]. *)
Theorem put_stdio_record_tags_current_version (F : format) (fd : darshan_fd)
    (rec : block) (ver : Z) :
  written (snd (darshan_log_put_stdio_record F fd rec ver)) =
    (if write_broken fd then written fd
     else written fd
          ++ [(DARSHAN_STDIO_VER F, mem_read 0 (sizeof_stdio_file F) (mem rec))])
  /\ (forall ver' : Z,
        darshan_log_put_stdio_record F fd rec ver'
        = darshan_log_put_stdio_record F fd rec ver).
Proof.
  split; [|reflexivity].
  unfold darshan_log_put_stdio_record, darshan_log_put_mod.
  destruct (write_broken fd); reflexivity.
Qed.

(** The Lustre writer has no version argument at all and tags with
    [DARSHAN_LUSTRE_VER]. *)
Lemma put_lustre_record_tags_current_version (F : format) (fd : darshan_fd)
    (rec : block) :
  map fst (written (snd (darshan_log_put_lustre_record F fd rec))) =
    (if write_broken fd then map fst (written fd)
     else map fst (written fd) ++ [DARSHAN_LUSTRE_VER F]).
Proof.
  unfold darshan_log_put_lustre_record, darshan_log_put_lustre_record_with,
    darshan_log_put_mod.
  destruct (write_broken fd); simpl; [reflexivity|].
  now rewrite map_app.
Qed.

(** ** The Lustre differ *)

(** C7, as amended.  [darshan_log_print_lustre_record_diff] prints nothing,
    whatever the two records are and whether or not either is absent. *)
Theorem lustre_record_diff_prints_nothing (rec1 rec2 : option block)
    (file_name1 file_name2 : string) :
  darshan_log_print_lustre_record_diff rec1 file_name1 rec2 file_name2 = [].
Proof. reflexivity. Qed.

(** ** Return codes *)

Lemma get_mod_cases (fd : darshan_fd) (sz : Z) :
  0 <= sz ->
  (sz <= remaining fd /\ fst (fst (darshan_log_get_mod fd sz)) = sz) \/
  (remaining fd < sz /\ mod_broken fd = true
   /\ fst (fst (darshan_log_get_mod fd sz)) = -1) \/
  (remaining fd < sz /\ mod_broken fd = false
   /\ fst (fst (darshan_log_get_mod fd sz)) = remaining fd).
Proof.
  intros Hsz. unfold darshan_log_get_mod, remaining.
  destruct (Nat.leb_spec (Z.to_nat sz) (length (mod_data fd))) as [Hle|Hlt].
  - left. simpl. split; lia.
  - right. destruct (mod_broken fd); [left | right]; simpl;
      (split; [lia | split; reflexivity]).
Qed.

Lemma get_mod_consumes (fd : darshan_fd) (sz : Z) :
  mod_len (snd (darshan_log_get_mod fd sz)) = mod_len fd /\
  mod_ver (snd (darshan_log_get_mod fd sz)) = mod_ver fd /\
  swap_flag (snd (darshan_log_get_mod fd sz)) = swap_flag fd /\
  mod_broken (snd (darshan_log_get_mod fd sz)) = mod_broken fd /\
  asked (snd (darshan_log_get_mod fd sz)) = asked fd ++ [sz].
Proof.
  unfold darshan_log_get_mod.
  destruct (_ <=? _)%nat; [|destruct (mod_broken fd) eqn:E]; simpl;
    rewrite ?E; repeat split; reflexivity.
Qed.

Lemma sizeof_stdio_file_bounds F :
  format_ok F -> 16 <= sizeof_stdio_file F < 2 ^ 31.
Proof.
  unfold format_ok, sizeof_stdio_file, sizeof_base_record.
  intros (H1 & H2 & _). lia.
Qed.

Lemma to_size_t_small z : 0 <= z < 2 ^ 64 -> to_size_t z = z.
Proof. intros H. unfold to_size_t. now apply Z.mod_small. Qed.

Lemma hand_back_ret buf_p ret rec fd ev :
  o_ret (hand_back buf_p ret rec fd ev) = ret.
Proof. unfold hand_back. destruct buf_p; [|destruct (ret =? 1)]; reflexivity. Qed.

Lemma get_stdio_record_ret_unavailable (F : format) (fd : darshan_fd)
    (h : allocator) :
  malloc_ret h = None ->
  o_ret (darshan_log_get_stdio_record F fd h None)
  = if mod_len fd =? 0 then 0 else -1.
Proof.
  intros Hm. unfold darshan_log_get_stdio_record, malloc. rewrite Hm.
  destruct (mod_len fd =? 0); reflexivity.
Qed.

Lemma get_stdio_record_ret_available (F : format) (fd : darshan_fd)
    (h : allocator) (buf_p : option block) :
  buffer_available h buf_p ->
  o_ret (darshan_log_get_stdio_record F fd h buf_p)
  = if mod_len fd =? 0 then 0
    else let ret := fst (fst (darshan_log_get_mod fd (sizeof_stdio_file F))) in
         if ret <? 0 then -1
         else if to_size_t ret <? sizeof_stdio_file F then 0 else 1.
Proof.
  intros Hav. unfold darshan_log_get_stdio_record, malloc.
  destruct (mod_len fd =? 0); [reflexivity|].
  destruct buf_p as [b|];
    [|destruct (malloc_ret h) as [a|] eqn:Hm;
      [|destruct Hav as [Hav|Hav]; congruence]];
    destruct (darshan_log_get_mod fd (sizeof_stdio_file F)) as [[ret data] fd1];
    simpl;
    destruct (ret <? 0); [| destruct (to_size_t ret <? _) | |
                           destruct (to_size_t ret <? _)];
    try reflexivity;
    destruct (to_size_t ret =? _); reflexivity.
Qed.

Lemma get_stdio_record_code (F : format) (fd : darshan_fd) (h : allocator)
    (buf_p : option block) :
  format_ok F ->
  let o := darshan_log_get_stdio_record F fd h buf_p in
  (o_ret o = -1 \/ o_ret o = 0 \/ o_ret o = 1) /\
  (o_ret o = 0 <->
     mod_len fd = 0 \/
     (buffer_available h buf_p /\ remaining fd < sizeof_stdio_file F
      /\ mod_broken fd = false)) /\
  (o_ret o = 1 <->
     mod_len fd <> 0 /\ buffer_available h buf_p
     /\ sizeof_stdio_file F <= remaining fd).
Proof.
  intros HF o. subst o.
  pose proof (sizeof_stdio_file_bounds F HF) as Hsz.
  assert (Hav : buffer_available h buf_p \/
                (buf_p = None /\ malloc_ret h = None)).
  { unfold buffer_available. destruct buf_p; [left; left; discriminate|].
    destruct (malloc_ret h); [left; right; discriminate | right; auto]. }
  destruct Hav as [Hav|[-> Hm]].
  2:{ rewrite get_stdio_record_ret_unavailable by assumption.
      unfold buffer_available.
      destruct (Z.eqb_spec (mod_len fd) 0) as [Hlen|Hlen];
        (split; [auto|]); split; split; intros; try lia; try tauto. }
  rewrite get_stdio_record_ret_available by assumption.
  destruct (Z.eqb_spec (mod_len fd) 0) as [Hlen|Hlen].
  { repeat split; auto; try tauto; lia. }
  cbv zeta.
  destruct (get_mod_cases fd (sizeof_stdio_file F) ltac:(lia))
    as [(Hle & ->)|[(Hlt & Hb & ->)|(Hlt & Hb & ->)]].
  - destruct (Z.ltb_spec (sizeof_stdio_file F) 0); [lia|].
    rewrite to_size_t_small by lia. rewrite Z.ltb_irrefl.
    split; [auto|]. split; split; intros; try lia; try tauto.
  - change (-1 <? 0) with true. cbv iota.
    split; [auto|]. split; split; intros; try lia.
    destruct H as [?|(_ & _ & ?)]; congruence.
  - unfold remaining in *.
    destruct (Z.ltb_spec (Z.of_nat (length (mod_data fd))) 0); [lia|].
    rewrite to_size_t_small by lia.
    destruct (Z.ltb_spec (Z.of_nat (length (mod_data fd))) (sizeof_stdio_file F));
      [|lia].
    split; [auto|]. split; split; intros; try lia; try tauto.
Qed.

Lemma get_lustre_record_v1_code (F : format) (fd : darshan_fd) (h : allocator)
    (buf_p : option block) :
  let o := darshan_log_get_lustre_record_v1 F fd h buf_p in
  let r := fst (fst (darshan_log_get_mod fd (7 * 8))) in
  (r < 0 -> o_ret o = -1) /\
  (0 <= r < 7 * 8 -> o_ret o = 0) /\
  (7 * 8 <= r -> o_ret o = -1 \/ o_ret o = 1) /\
  (7 * 8 <= r -> ~ buffer_available h buf_p -> o_ret o = -1).
Proof.
  unfold darshan_log_get_lustre_record_v1, buffer_available, malloc.
  destruct (darshan_log_get_mod fd (7 * 8)) as [[ret data] fd1]. simpl fst.
  destruct (Z.ltb_spec ret 0); [repeat split; simpl; intros; lia|].
  destruct (Z.ltb_spec ret (7 * 8)); [repeat split; simpl; intros; lia|].
  cbv zeta.
  split; [lia|]. split; [lia|].
  destruct buf_p as [b|]; [|destruct (malloc_ret h) as [a|]].
  3:{ simpl. auto. }
  all: destruct (darshan_log_get_mod fd1 _) as [[ret1 data1] fd2];
    destruct (to_size_t ret1 <? _); rewrite !hand_back_ret;
    (split; [auto|]); intros _ Hn; exfalso; apply Hn;
    first [left; discriminate | right; discriminate].
Qed.

Lemma get_lustre_record_cur_code (F : format) (fd : darshan_fd) (h : allocator)
    (buf_p : option block) :
  let o := darshan_log_get_lustre_record_cur F fd h buf_p in
  let r := fst (fst (darshan_log_get_mod fd fixed_size)) in
  let data := snd (fst (darshan_log_get_mod fd fixed_size)) in
  let tmp_rec :=
    if swap_flag fd
    then bswap64_bytes off_num_comps (bswap64_bytes 8 (bswap64_bytes 0 data))
    else data in
  (r < 0 -> o_ret o = -1) /\
  (0 <= r < fixed_size -> o_ret o = 0) /\
  (fixed_size <= r ->
     o_ret o = -1 \/ o_ret o = 1
     \/ (load64 off_num_comps tmp_rec < 1 /\ o_ret o = r)) /\
  (fixed_size <= r -> ~ buffer_available h buf_p -> o_ret o = -1).
Proof.
  unfold darshan_log_get_lustre_record_cur, buffer_available, malloc.
  destruct (darshan_log_get_mod fd fixed_size) as [[ret data] fd1].
  simpl fst. simpl snd.
  destruct (Z.ltb_spec ret 0); [repeat split; simpl; intros; lia|].
  destruct (Z.ltb_spec ret fixed_size); [repeat split; simpl; intros; lia|].
  cbv zeta.
  split; [lia|]. split; [lia|].
  destruct buf_p as [b|]; [|destruct (malloc_ret h) as [a|]].
  3:{ simpl. auto. }
  all: destruct (Z.ltb_spec (load64 off_num_comps
         (if swap_flag fd
          then bswap64_bytes off_num_comps (bswap64_bytes 8 (bswap64_bytes 0 data))
          else data)) 1) as [Hn|Hn].
  all: try (rewrite hand_back_ret; split; [auto|]; intros _ Hna; exfalso;
            apply Hna; first [left; discriminate | right; discriminate]).
  all: destruct (darshan_log_get_mod fd1 _) as [[ret1 data1] fd2].
  - destruct (darshan_log_get_mod fd2 _) as [[ret2 data2] fd3].
    destruct (ret2 <? _); rewrite !hand_back_ret;
      (split; [auto|]); intros _ Hna; exfalso; apply Hna; left; discriminate.
  - unfold realloc. destruct (realloc_ret h) as [a'|].
    + destruct (darshan_log_get_mod fd2 _) as [[ret2 data2] fd3].
      destruct (ret2 <? _); rewrite !hand_back_ret;
        (split; [auto|]); intros _ Hna; exfalso; apply Hna; right; discriminate.
    + simpl. split; [auto|]. intros _ Hna; exfalso; apply Hna; right; discriminate.
Qed.

Lemma get_mod_full_data (fd : darshan_fd) (sz : Z) :
  0 < sz -> sz <= fst (fst (darshan_log_get_mod fd sz)) ->
  snd (fst (darshan_log_get_mod fd sz)) = firstn (Z.to_nat sz) (mod_data fd).
Proof.
  unfold darshan_log_get_mod. intros Hsz.
  destruct (Nat.leb_spec (Z.to_nat sz) (length (mod_data fd))); [reflexivity|].
  destruct (mod_broken fd); simpl; lia.
Qed.

(** Discharges the arithmetic premises of the hypotheses. *)
Ltac feed_lia :=
  repeat match goal with
         | H : ?P -> _ |- _ =>
             let HP := fresh in
             assert (HP : P) by lia; specialize (H HP); clear HP
         end.

Lemma get_lustre_record_code (F : format) (fd : darshan_fd) (h : allocator)
    (buf_p : option block) :
  let o := darshan_log_get_lustre_record F fd h buf_p in
  (o_ret o = 0 <->
     mod_len fd = 0 \/
     (version_ok F fd /\ remaining fd < fixed_part fd /\ mod_broken fd = false)) /\
  (mod_len fd <> 0 -> ~ version_ok F fd -> o_ret o = -1) /\
  (mod_len fd <> 0 -> version_ok F fd -> remaining fd < fixed_part fd ->
   mod_broken fd = true -> o_ret o = -1) /\
  (mod_len fd <> 0 -> version_ok F fd -> fixed_part fd <= remaining fd ->
   ~ buffer_available h buf_p -> o_ret o = -1) /\
  (mod_ver fd = 1 \/ 1 <= peek_num_comps fd ->
   o_ret o = -1 \/ o_ret o = 0 \/ o_ret o = 1).
Proof.
  unfold darshan_log_get_lustre_record, version_ok, fixed_part.
  destruct (Z.eqb_spec (mod_len fd) 0) as [Hlen|Hlen].
  { simpl. intuition lia. }
  destruct (Z.eqb_spec (mod_ver fd) 0) as [Hv0|Hv0].
  { simpl. intuition lia. }
  destruct (Z.ltb_spec (DARSHAN_LUSTRE_VER F) (mod_ver fd)) as [Hv|Hv].
  { simpl. intuition lia. }
  cbv [orb].
  destruct (Z.eqb_spec (mod_ver fd) 1) as [Hv1|Hv1].
  - destruct (get_lustre_record_v1_code F fd h buf_p) as (H1 & H2 & H3 & H4).
    cbv zeta in H1, H2, H3, H4.
    destruct (get_mod_cases fd (7 * 8) ltac:(lia))
      as [(Hle & Hr)|[(Hlt & Hb & Hr)|(Hlt & Hb & Hr)]];
      rewrite Hr in H1, H2, H3, H4; unfold remaining in *; feed_lia;
      intuition (try lia; try congruence).
  - destruct (get_lustre_record_cur_code F fd h buf_p) as (H1 & H2 & H3 & H4).
    cbv zeta in H1, H2, H3, H4.
    pose proof (get_mod_full_data fd fixed_size ltac:(reflexivity)) as Hd.
    assert (Hfs : fixed_size = 24) by reflexivity.
    destruct (get_mod_cases fd fixed_size ltac:(lia))
      as [(Hle & Hr)|[(Hlt & Hb & Hr)|(Hlt & Hb & Hr)]];
      rewrite Hr in H1, H2, H3, H4, Hd; unfold remaining in *.
    + specialize (Hd ltac:(lia)). rewrite Hd in H3.
      fold (peek_num_comps fd) in H3.
      feed_lia. intuition (try lia; try congruence).
    + feed_lia. intuition (try lia; try congruence).
    + feed_lia. intuition (try lia; try congruence).
Qed.

(** ** Bytes and words *)

Lemma byte_to_Z_range (b : byte) : 0 <= byte_to_Z b < 256.
Proof.
  unfold byte_to_Z. pose proof (Byte.to_N_bounded b). lia.
Qed.

Lemma byte_of_to_Z (b : byte) : byte_of_Z (byte_to_Z b) = b.
Proof.
  unfold byte_of_Z. pose proof (byte_to_Z_range b) as H.
  rewrite Z.mod_small by assumption.
  unfold byte_to_Z. rewrite N2Z.id. now rewrite Byte.of_to_N.
Qed.

Lemma byte_to_of_Z (z : Z) : byte_to_Z (byte_of_Z z) = z mod 256.
Proof.
  unfold byte_of_Z, byte_to_Z.
  pose proof (Z.mod_pos_bound z 256 ltac:(lia)) as H.
  destruct (Byte.of_N (Z.to_N (z mod 256))) as [b|] eqn:E.
  - apply Byte.to_of_N in E. rewrite E. lia.
  - apply Byte.of_N_None_iff in E. lia.
Qed.

Lemma length_le_encode (n : nat) (z : Z) : length (le_encode n z) = n.
Proof. revert z. induction n; simpl; intros; [reflexivity | now rewrite IHn]. Qed.

Lemma le_decode_range (bs : bytes) :
  0 <= le_decode bs < 256 ^ Z.of_nat (length bs).
Proof.
  induction bs as [|b bs IH]; [simpl; lia|].
  cbn [le_decode length]. rewrite Nat2Z.inj_succ, Z.pow_succ_r by lia.
  pose proof (byte_to_Z_range b). lia.
Qed.

Lemma le_decode_le_encode (n : nat) (z : Z) :
  le_decode (le_encode n z) = z mod 256 ^ Z.of_nat n.
Proof.
  revert z. induction n as [|n IH]; intros z.
  - simpl. now rewrite Z.mod_1_r.
  - cbn [le_encode le_decode]. rewrite IH, byte_to_of_Z.
    rewrite Nat2Z.inj_succ, Z.pow_succ_r by lia.
    rewrite Z.rem_mul_r by lia. reflexivity.
Qed.

Lemma to_int64_of_mod (z : Z) :
  - 2 ^ 63 <= z < 2 ^ 63 -> to_int64 (z mod 2 ^ 64) = z.
Proof.
  intros H. unfold to_int64.
  rewrite Zplus_mod_idemp_l. rewrite Z.mod_small by lia. lia.
Qed.

Lemma to_int_small (z : Z) : - 2 ^ 31 <= z < 2 ^ 31 -> to_int z = z.
Proof. intros H. unfold to_int. rewrite Z.mod_small by lia. lia. Qed.

(** ** Reading and writing a buffer *)

Lemma within_true (off len : Z) (m : bytes) :
  within off len m = true <->
  0 <= off /\ 0 <= len /\ off + len <= Z.of_nat (length m).
Proof.
  unfold within. rewrite !andb_true_iff, !Z.leb_le. tauto.
Qed.

Lemma length_mem_write (off : Z) (src m : bytes) :
  length (mem_write off src m) = length m.
Proof.
  unfold mem_write. destruct (within off _ m) eqn:E; [|reflexivity].
  apply within_true in E.
  rewrite !length_app, length_firstn, length_skipn. lia.
Qed.

Lemma nth_error_mem_read (off len : Z) (m : bytes) (i : nat) :
  nth_error (mem_read off len m) i
  = if (i <? Z.to_nat len)%nat then nth_error m (Z.to_nat off + i) else None.
Proof.
  unfold mem_read. now rewrite nth_error_firstn, nth_error_skipn.
Qed.

Lemma nth_error_mem_write (off : Z) (src m : bytes) (i : nat) :
  0 <= off -> off + Z.of_nat (length src) <= Z.of_nat (length m) ->
  nth_error (mem_write off src m) i
  = if ((Z.to_nat off <=? i) && (i <? Z.to_nat off + length src))%nat
    then nth_error src (i - Z.to_nat off)
    else nth_error m i.
Proof.
  intros H0 H1. unfold mem_write.
  replace (within off (Z.of_nat (length src)) m) with true
    by (symmetry; apply within_true; lia).
  rewrite !nth_error_app, length_firstn.
  replace (Nat.min (Z.to_nat off) (length m)) with (Z.to_nat off) by lia.
  destruct (Nat.ltb_spec i (Z.to_nat off)) as [Hlt|Hge].
  - replace (Z.to_nat off <=? i)%nat with false
      by (symmetry; apply Nat.leb_gt; lia).
    simpl. rewrite nth_error_firstn.
    now replace (i <? Z.to_nat off)%nat with true
      by (symmetry; apply Nat.ltb_lt; lia).
  - replace (Z.to_nat off <=? i)%nat with true
      by (symmetry; apply Nat.leb_le; lia).
    simpl.
    destruct (Nat.ltb_spec (i - Z.to_nat off) (length src)) as [Hin|Hout].
    + now replace (i <? Z.to_nat off + length src)%nat with true
        by (symmetry; apply Nat.ltb_lt; lia).
    + replace (i <? Z.to_nat off + length src)%nat with false
        by (symmetry; apply Nat.ltb_ge; lia).
      rewrite nth_error_skipn. f_equal. lia.
Qed.

Lemma holds_within (m : bytes) (off : Z) (bs : bytes) :
  holds m off bs -> within off (Z.of_nat (length bs)) m = true.
Proof. intros (H0 & H1 & _). apply within_true. lia. Qed.

Lemma holds_write (off : Z) (src m : bytes) :
  0 <= off -> off + Z.of_nat (length src) <= Z.of_nat (length m) ->
  holds (mem_write off src m) off src.
Proof.
  intros H0 H1. split; [assumption|]. split; [now rewrite length_mem_write|].
  apply nth_error_ext. intros i.
  rewrite nth_error_mem_read, nth_error_mem_write by assumption.
  rewrite Nat2Z.id.
  destruct (Nat.ltb_spec i (length src)) as [Hi|Hi].
  - replace (Z.to_nat off <=? Z.to_nat off + i)%nat with true
      by (symmetry; apply Nat.leb_le; lia).
    replace (Z.to_nat off + i <? Z.to_nat off + length src)%nat with true
      by (symmetry; apply Nat.ltb_lt; lia).
    simpl. f_equal. lia.
  - symmetry. now apply nth_error_None.
Qed.

Lemma holds_write_other (off : Z) (src m : bytes) (off2 : Z) (bs : bytes) :
  holds m off2 bs ->
  off2 + Z.of_nat (length bs) <= off \/ off + Z.of_nat (length src) <= off2 ->
  holds (mem_write off src m) off2 bs.
Proof.
  intros (H0 & H1 & H2) Hd.
  split; [assumption|]. split; [now rewrite length_mem_write|].
  unfold mem_write. destruct (within off _ m) eqn:E; [|assumption].
  apply within_true in E. fold (mem_write off src m).
  assert (Hw : mem_write off src m
               = firstn (Z.to_nat off) m ++ src
                 ++ skipn (Z.to_nat off + length src) m).
  { unfold mem_write.
    now replace (within off (Z.of_nat (length src)) m) with true
      by (symmetry; apply within_true; lia). }
  rewrite <- Hw. rewrite <- H2 at 2.
  apply nth_error_ext. intros i.
  rewrite !nth_error_mem_read, nth_error_mem_write by lia.
  destruct (Nat.ltb_spec i (Z.to_nat (Z.of_nat (length bs)))) as [Hi|Hi];
    [|reflexivity].
  replace ((Z.to_nat off <=? Z.to_nat off2 + i)
           && (Z.to_nat off2 + i <? Z.to_nat off + length src))%nat
    with false; [reflexivity|].
  symmetry. apply andb_false_iff.
  destruct Hd; [left; apply Nat.leb_gt | right; apply Nat.ltb_ge]; lia.
Qed.

Lemma holds_app (m : bytes) (off : Z) (x y : bytes) :
  holds m off (x ++ y) ->
  holds m off x /\ holds m (off + Z.of_nat (length x)) y.
Proof.
  intros (H0 & H1 & H2). rewrite length_app in H1, H2.
  split; (split; [lia|]; split; [lia|]).
  - apply nth_error_ext. intros i.
    apply (f_equal (fun l => nth_error l i)) in H2.
    rewrite nth_error_mem_read in *. rewrite nth_error_app in H2.
    destruct (Nat.ltb_spec i (length x)) as [Hi|Hi].
    + replace (i <? Z.to_nat (Z.of_nat (length x)))%nat with true
        by (symmetry; apply Nat.ltb_lt; lia).
      replace (i <? Z.to_nat (Z.of_nat (length x + length y)))%nat with true
        in H2 by (symmetry; apply Nat.ltb_lt; lia).
      assumption.
    + replace (i <? Z.to_nat (Z.of_nat (length x)))%nat with false
        by (symmetry; apply Nat.ltb_ge; lia).
      symmetry. now apply nth_error_None.
  - apply nth_error_ext. intros i.
    apply (f_equal (fun l => nth_error l (length x + i))) in H2.
    rewrite nth_error_mem_read in *. rewrite nth_error_app in H2.
    replace (length x + i <? length x)%nat with false in H2
      by (symmetry; apply Nat.ltb_ge; lia).
    replace (length x + i - length x)%nat with i in H2 by lia.
    rewrite <- H2.
    replace (Z.to_nat (off + Z.of_nat (length x)) + i)%nat
      with (Z.to_nat off + (length x + i))%nat by lia.
    destruct (Nat.ltb_spec i (Z.to_nat (Z.of_nat (length y)))) as [Hi|Hi].
    + now replace (length x + i <? Z.to_nat (Z.of_nat (length x + length y)))%nat
        with true by (symmetry; apply Nat.ltb_lt; lia).
    + now replace (length x + i <? Z.to_nat (Z.of_nat (length x + length y)))%nat
        with false by (symmetry; apply Nat.ltb_ge; lia).
Qed.

Lemma holds_read (m : bytes) (off : Z) (bs : bytes) (n : Z) :
  holds m off bs -> n = Z.of_nat (length bs) -> mem_read off n m = bs.
Proof. intros (_ & _ & H) ->. exact H. Qed.

Lemma holds_bswap (m : bytes) (off : Z) (bs : bytes) :
  holds m off bs -> length bs = 8%nat ->
  holds (bswap64_bytes off m) off (rev bs).
Proof.
  intros H Hl. unfold bswap64_bytes.
  rewrite (holds_read m off bs 8 H) by (rewrite Hl; reflexivity).
  destruct H as (H0 & H1 & _).
  apply holds_write; [assumption | rewrite length_rev; lia].
Qed.

Lemma holds_bswap_other (m : bytes) (off off2 : Z) (bs : bytes) :
  holds m off2 bs ->
  off2 + Z.of_nat (length bs) <= off \/ off + 8 <= off2 ->
  0 <= off -> off + 8 <= Z.of_nat (length m) ->
  holds (bswap64_bytes off m) off2 bs.
Proof.
  intros H Hd H0 H1. unfold bswap64_bytes.
  apply holds_write_other; [assumption|].
  rewrite length_rev. unfold mem_read.
  rewrite length_firstn, length_skipn. lia.
Qed.

Lemma length_bswap64_bytes (off : Z) (m : bytes) :
  length (bswap64_bytes off m) = length m.
Proof. unfold bswap64_bytes. apply length_mem_write. Qed.

Lemma holds_load64 (m : bytes) (off v : Z) :
  holds m off (le_encode 8 v) -> - 2 ^ 63 <= v < 2 ^ 63 -> load64 off m = v.
Proof.
  intros H Hv. unfold load64.
  rewrite (holds_read m off _ 8 H) by now rewrite length_le_encode.
  rewrite le_decode_le_encode. now apply to_int64_of_mod.
Qed.

Lemma holds_load_ptr (m : bytes) (off v : Z) :
  holds m off (le_encode 8 v) -> 0 <= v < 2 ^ 64 -> load_ptr off m = v.
Proof.
  intros H Hv. unfold load_ptr.
  rewrite (holds_read m off _ 8 H) by now rewrite length_le_encode.
  rewrite le_decode_le_encode. now apply Z.mod_small.
Qed.

(** ** The legacy reader *)

Lemma get_mod_prefix (fd : darshan_fd) (sz : Z) (x y : bytes) :
  mod_data fd = x ++ y -> Z.of_nat (length x) = sz ->
  darshan_log_get_mod fd sz = (sz, x, after_read fd sz y).
Proof.
  intros Hd Hl. unfold darshan_log_get_mod. cbv zeta. rewrite Hd.
  assert (Hn : Z.to_nat sz = length x) by lia. rewrite Hn.
  replace (length x <=? length (x ++ y))%nat with true
    by (symmetry; apply Nat.leb_le; rewrite length_app; lia).
  rewrite firstn_app, Nat.sub_diag, firstn_all, firstn_O, app_nil_r.
  rewrite skipn_app, Nat.sub_diag, skipn_all, skipn_O. simpl.
  now rewrite Hl.
Qed.

Lemma legacy_fixed_record (sw : bool) (pre : bytes) :
  length pre = 40%nat ->
  let data := pre ++ word sw 65536 ++ word sw 4 in
  let fixed_record :=
    if sw then for_upto 7 (fun i m => bswap64_bytes (8 * i) m) data else data in
  load64 (8 * 5) fixed_record = 65536 /\ load64 (8 * 6) fixed_record = 4 /\
  length (mem_read 0 sizeof_base_record fixed_record) = 16%nat.
Proof.
  intros Hl.
  do 40 (destruct pre as [|? pre]; [discriminate|]).
  destruct pre; [|discriminate].
  destruct sw; vm_compute; repeat split; reflexivity.
Qed.

Lemma sizeof_lustre_component_bounds F :
  format_ok F ->
  8 * LUSTRE_COMP_NUM_INDICES F + LUSTRE_POOL_NAME_SIZE F
    <= sizeof_lustre_component F < 2 ^ 20 /\
  off_pool_name F = 8 * LUSTRE_COMP_NUM_INDICES F.
Proof.
  unfold format_ok, sizeof_lustre_component, off_pool_name.
  intros (_ & _ & Hn & Hp).
  pose proof (Z.div_mod (LUSTRE_POOL_NAME_SIZE F + 7) 8 ltac:(lia)).
  pose proof (Z.mod_pos_bound (LUSTRE_POOL_NAME_SIZE F + 7) 8 ltac:(lia)).
  lia.
Qed.

Lemma for_upto_4 {A : Type} (f : Z -> A -> A) (a : A) :
  for_upto 4 f a = f 3 (f 2 (f 1 (f 0 a))).
Proof. reflexivity. Qed.

Lemma for_upto_1 {A : Type} (f : Z -> A -> A) (a : A) :
  for_upto 1 f a = f 0 a.
Proof. reflexivity. Qed.

Lemma oob_poke (off : Z) (src : bytes) (b : block) :
  oob b = false -> 0 <= off ->
  off + Z.of_nat (length src) <= Z.of_nat (length (mem b)) ->
  oob (poke off src b) = false.
Proof.
  intros Ho H0 H1. unfold poke. cbn [oob]. rewrite Ho.
  replace (within off _ (mem b)) with true; [reflexivity|].
  symmetry. apply within_true. lia.
Qed.

Lemma oob_bswap (off : Z) (b : block) :
  oob b = false -> 0 <= off -> off + 8 <= Z.of_nat (length (mem b)) ->
  oob (DARSHAN_BSWAP64 off b) = false.
Proof.
  intros Ho H0 H1. unfold DARSHAN_BSWAP64. cbn [oob]. rewrite Ho.
  replace (within off 8 (mem b)) with true; [reflexivity|].
  symmetry. apply within_true. lia.
Qed.

Lemma length_mem_poke off src b : length (mem (poke off src b)) = length (mem b).
Proof. apply length_mem_write. Qed.

Lemma length_mem_bswap off b :
  length (mem (DARSHAN_BSWAP64 off b)) = length (mem b).
Proof. apply length_bswap64_bytes. Qed.

Lemma length_fresh h from len : length (fresh h from len) = len.
Proof. unfold fresh. now rewrite length_map, length_seq. Qed.

Lemma length_word sw v : length (word sw v) = 8%nat.
Proof. unfold word. destruct sw; rewrite ?length_rev; apply length_le_encode. Qed.

Lemma rev_word_true v : rev (word true v) = le_encode 8 v.
Proof. unfold word. apply rev_involutive. Qed.


Lemma holds_poke (off : Z) (src : bytes) (b : block) :
  0 <= off -> off + Z.of_nat (length src) <= Z.of_nat (length (mem b)) ->
  holds (mem (poke off src b)) off src.
Proof. apply holds_write. Qed.

Lemma holds_poke_other (off : Z) (src : bytes) (b : block) (off2 : Z)
    (bs : bytes) :
  holds (mem b) off2 bs ->
  off2 + Z.of_nat (length bs) <= off \/ off + Z.of_nat (length src) <= off2 ->
  holds (mem (poke off src b)) off2 bs.
Proof. apply holds_write_other. Qed.

Lemma holds_BSWAP64 (off : Z) (b : block) (bs : bytes) :
  holds (mem b) off bs -> length bs = 8%nat ->
  holds (mem (DARSHAN_BSWAP64 off b)) off (rev bs).
Proof. apply holds_bswap. Qed.

Lemma holds_BSWAP64_other (off : Z) (b : block) (off2 : Z) (bs : bytes) :
  holds (mem b) off2 bs ->
  off2 + Z.of_nat (length bs) <= off \/ off + 8 <= off2 ->
  0 <= off -> off + 8 <= Z.of_nat (length (mem b)) ->
  holds (mem (DARSHAN_BSWAP64 off b)) off2 bs.
Proof. apply holds_bswap_other. Qed.

Lemma firstn_upto (k n : Z) :
  0 <= k <= n -> firstn (Z.to_nat k) (upto n) = upto k.
Proof.
  intros H. unfold upto. rewrite firstn_map. f_equal.
  apply nth_error_ext. intros i.
  rewrite nth_error_firstn, !nth_error_seq.
  destruct (Nat.ltb_spec i (Z.to_nat k)) as [Hi|Hi]; [|reflexivity].
  now replace (i <? Z.to_nat n)%nat with true by (symmetry; apply Nat.ltb_lt; lia).
Qed.

Lemma holds_head (m : bytes) (off : Z) (b : byte) (n : Z) :
  holds m off [b] -> 1 <= n -> exists tl, mem_read off n m = b :: tl.
Proof.
  intros (H0 & H1 & H2) Hn. unfold mem_read in *.
  cbn [length] in H1, H2. change (Z.to_nat (Z.of_nat 1)) with 1%nat in H2.
  destruct (skipn (Z.to_nat off) m) as [|x tl] eqn:E; [discriminate|].
  cbn in H2. injection H2 as ->.
  replace (Z.to_nat n) with (S (Z.to_nat n - 1)) by lia.
  cbn [firstn]. eauto.
Qed.

Lemma record_of_legacy (F : format) (rec : block) :
  format_ok F ->
  0 < addr rec -> addr rec + Z.of_nat (length (mem rec)) <= 2 ^ 64 ->
  let S := sizeof_lustre_component F in
  holds (mem rec) 16 (le_encode 8 1) ->
  holds (mem rec) 24 (le_encode 8 (addr rec + 40)) ->
  holds (mem rec) 32 (le_encode 8 (addr rec + 40 + S)) ->
  holds (mem rec) 40 (le_encode 8 65536) ->
  holds (mem rec) 48 (le_encode 8 4) ->
  holds (mem rec) 56 (le_encode 8 (-1)) ->
  holds (mem rec) 64 (le_encode 8 (-1)) ->
  holds (mem rec) 72 (le_encode 8 0) ->
  holds (mem rec) 80 (le_encode 8 (-1)) ->
  holds (mem rec) 88 (le_encode 8 (-1)) ->
  holds (mem rec) (40 + 8 * LUSTRE_COMP_NUM_INDICES F) [x00] ->
  holds (mem rec) (40 + S) (le_encode 8 1) ->
  holds (mem rec) (40 + S + 8) (le_encode 8 2) ->
  holds (mem rec) (40 + S + 16) (le_encode 8 3) ->
  holds (mem rec) (40 + S + 24) (le_encode 8 4) ->
  num_comps (record_of F rec) = 1 /\
  exists c,
    comps (record_of F rec) = [c] /\
    firstn 7 (counters c) = [65536; 4; -1; -1; 0; -1; -1] /\
    pool_name c = [] /\
    ost_ids (record_of F rec) = [1; 2; 3; 4].
Proof.
  intros HF Ha Hfit S Hnc Hcp Hop H0 H1 H2 H3 H4 H5 H6 Hpn I0 I1 I2 I3.
  destruct (sizeof_lustre_component_bounds F HF) as (HS & Hpool).
  fold S in HS.
  destruct HF as (_ & _ & HN & HP).
  assert (Hlen : 40 + S + 32 <= Z.of_nat (length (mem rec))).
  { destruct I3 as (_ & Hl & _). rewrite length_le_encode in Hl. lia. }
  assert (En : load64 off_num_comps (mem rec) = 1)
    by (apply holds_load64; [exact Hnc | lia]).
  assert (Ec : comps_base rec = 40).
  { unfold comps_base. change off_comps with 24.
    rewrite (holds_load_ptr _ _ _ Hcp) by lia. lia. }
  assert (Eo : osts_base rec = 40 + S).
  { unfold osts_base. change off_ost_ids with 32.
    rewrite (holds_load_ptr _ _ _ Hop) by lia. lia. }
  assert (Ek : count_osts F (comps_base rec) 1 (mem rec) = 4).
  { unfold count_osts. rewrite for_upto_1, Ec.
    unfold LUSTRE_COMP_STRIPE_COUNT.
    replace (40 + 0 * sizeof_lustre_component F + 8 * 1) with 48 by lia.
    rewrite (holds_load64 _ _ 4 H1) by lia. reflexivity. }
  unfold record_of. cbn [num_comps comps ost_ids]. rewrite En.
  split; [reflexivity|].
  exists (component_at F rec 0). split; [reflexivity|].
  rewrite Ek, Eo.
  split; [|split].
  - unfold component_at. cbn [counters]. rewrite Ec.
    change 7%nat with (Z.to_nat 7).
    rewrite firstn_map, firstn_upto by lia.
    change (upto 7) with [0; 1; 2; 3; 4; 5; 6]. cbn [map].
    replace (40 + 0 * sizeof_lustre_component F + 8 * 0) with 40 by lia.
    replace (40 + 0 * sizeof_lustre_component F + 8 * 1) with 48 by lia.
    replace (40 + 0 * sizeof_lustre_component F + 8 * 2) with 56 by lia.
    replace (40 + 0 * sizeof_lustre_component F + 8 * 3) with 64 by lia.
    replace (40 + 0 * sizeof_lustre_component F + 8 * 4) with 72 by lia.
    replace (40 + 0 * sizeof_lustre_component F + 8 * 5) with 80 by lia.
    replace (40 + 0 * sizeof_lustre_component F + 8 * 6) with 88 by lia.
    rewrite (holds_load64 _ _ _ H0), (holds_load64 _ _ _ H1),
      (holds_load64 _ _ _ H2), (holds_load64 _ _ _ H3),
      (holds_load64 _ _ _ H4), (holds_load64 _ _ _ H5),
      (holds_load64 _ _ _ H6) by lia.
    reflexivity.
  - unfold component_at. cbn [pool_name]. rewrite Ec, Hpool.
    replace (40 + 0 * sizeof_lustre_component F + 8 * LUSTRE_COMP_NUM_INDICES F)
      with (40 + 8 * LUSTRE_COMP_NUM_INDICES F) by lia.
    destruct (holds_head _ _ _ (LUSTRE_POOL_NAME_SIZE F) Hpn ltac:(lia))
      as (tl & ->).
    reflexivity.
  - change (upto 4) with [0; 1; 2; 3]. cbn [map].
    replace (40 + S + 8 * 0) with (40 + S) by lia.
    replace (40 + S + 8 * 1) with (40 + S + 8) by lia.
    replace (40 + S + 8 * 2) with (40 + S + 16) by lia.
    replace (40 + S + 8 * 3) with (40 + S + 24) by lia.
    rewrite (holds_load64 _ _ _ I0), (holds_load64 _ _ _ I1),
      (holds_load64 _ _ _ I2), (holds_load64 _ _ _ I3) by lia.
    reflexivity.
Qed.

Lemma hand_back_buf_1 buf_p rec fd ev :
  o_buf (hand_back buf_p 1 rec fd ev) = Some rec.
Proof. unfold hand_back. destruct buf_p; reflexivity. Qed.

Lemma buffer_ready_block (h : allocator) (buf_p : option block) (size : Z) :
  0 <= size < 2 ^ 63 ->
  buffer_ready h buf_p size ->
  exists rec,
    match buf_p with Some b => Some b | None => malloc h (to_size_t size) end
    = Some rec /\
    block_ok rec /\ size <= Z.of_nat (length (mem rec)).
Proof.
  intros Hs Hb. destruct buf_p as [b|]; cbn [buffer_ready] in Hb.
  - exists b. tauto.
  - destruct Hb as (a & Hm & Ha & Hfit). unfold malloc. rewrite Hm.
    eexists. split; [reflexivity|].
    rewrite to_size_t_small by lia.
    unfold block_ok. cbn [addr mem oob]. rewrite length_fresh. lia.
Qed.

Ltac norm_offsets :=
  unfold counter_off, off_ost_ids, off_comps, off_num_comps,
    sizeof_lustre_record, fixed_size, sizeof_base_record,
    LUSTRE_COMP_STRIPE_SIZE, LUSTRE_COMP_STRIPE_COUNT,
    LUSTRE_COMP_STRIPE_PATTERN, LUSTRE_COMP_FLAGS, LUSTRE_COMP_EXT_START,
    LUSTRE_COMP_EXT_END, LUSTRE_COMP_MIRROR_ID, sizeof_OST_ID in *.

Ltac norm_lengths :=
  rewrite ?length_mem_poke, ?length_mem_bswap, ?length_rev, ?length_app,
    ?length_word, ?length_le_encode;
  cbn [length].

Ltac peel :=
  unfold store64;
  repeat first
    [ apply holds_poke; [lia | norm_lengths; lia]
    | apply holds_poke_other; [ | norm_lengths; lia ] ].

(** C3.  A legacy (version 1) block of seven 8-byte values with stripe size
    65536 and stripe count 4 in the sixth and seventh places, followed by
    the identifiers 1, 2, 3, 4, is read as a record with one component:
    stripe size 65536, stripe count 4, stripe pattern, flags, extent end and
    mirror id -1, extent start 0, an empty pool name, and the identifiers
    1, 2, 3, 4 in that order.  This holds in either byte order of the log,
    for any first five values and any bytes after the record, whether the
    buffer is the caller's or comes from [malloc]. *)
Theorem legacy_record_is_upgraded (F : format) (fd : darshan_fd) (h : allocator)
    (buf_p : option block) (pre rest : bytes) :
  format_ok F ->
  mod_len fd <> 0 -> mod_ver fd = 1 -> 1 <= DARSHAN_LUSTRE_VER F ->
  length pre = 40%nat ->
  mod_data fd = (pre ++ word (swap_flag fd) 65536 ++ word (swap_flag fd) 4)
                ++ (word (swap_flag fd) 1 ++ word (swap_flag fd) 2
                    ++ word (swap_flag fd) 3 ++ word (swap_flag fd) 4)
                ++ rest ->
  buffer_ready h buf_p
    (sizeof_lustre_record + sizeof_lustre_component F + 4 * sizeof_OST_ID) ->
  let o := darshan_log_get_lustre_record F fd h buf_p in
  o_ret o = 1 /\
  exists rec c,
    o_buf o = Some rec /\ oob rec = false /\
    num_comps (record_of F rec) = 1 /\
    comps (record_of F rec) = [c] /\
    counter c LUSTRE_COMP_STRIPE_SIZE = 65536 /\
    counter c LUSTRE_COMP_STRIPE_COUNT = 4 /\
    counter c LUSTRE_COMP_STRIPE_PATTERN = -1 /\
    counter c LUSTRE_COMP_FLAGS = -1 /\
    counter c LUSTRE_COMP_EXT_START = 0 /\
    counter c LUSTRE_COMP_EXT_END = -1 /\
    counter c LUSTRE_COMP_MIRROR_ID = -1 /\
    pool_name c = [] /\
    ost_ids (record_of F rec) = [1; 2; 3; 4].
Proof.
  intros HF Hlen Hver HV Hpre Hdata Hbuf o. subst o.
  assert (Hcounters : forall c : component,
             firstn 7 (counters c) = [65536; 4; -1; -1; 0; -1; -1] ->
             counter c LUSTRE_COMP_STRIPE_SIZE = 65536 /\
             counter c LUSTRE_COMP_STRIPE_COUNT = 4 /\
             counter c LUSTRE_COMP_STRIPE_PATTERN = -1 /\
             counter c LUSTRE_COMP_FLAGS = -1 /\
             counter c LUSTRE_COMP_EXT_START = 0 /\
             counter c LUSTRE_COMP_EXT_END = -1 /\
             counter c LUSTRE_COMP_MIRROR_ID = -1).
  { intros c Hc. unfold counter.
    rewrite <- (firstn_skipn 7 (counters c)), Hc. repeat split. }
  destruct (sizeof_lustre_component_bounds F HF) as (HS & Hpool).
  pose proof HF as (_ & _ & HN & HP).
  unfold darshan_log_get_lustre_record.
  replace (mod_len fd =? 0) with false by (symmetry; apply Z.eqb_neq; assumption).
  rewrite Hver.
  replace (DARSHAN_LUSTRE_VER F <? 1) with false by (symmetry; apply Z.ltb_ge; lia).
  cbn [Z.eqb orb Pos.eqb].
  unfold darshan_log_get_lustre_record_v1.
  rewrite (get_mod_prefix fd (7 * 8) _ _ Hdata)
    by (rewrite !length_app, !length_word, Hpre; reflexivity).
  change (7 * 8 <? 0) with false. change (7 * 8 <? 7 * 8) with false.
  cbv iota zeta.
  destruct (legacy_fixed_record (swap_flag fd) pre Hpre) as (Hsize & Hcount & Hbase).
  cbv zeta in Hsize, Hcount, Hbase.
  rewrite Hsize, Hcount.
  set (base := mem_read 0 sizeof_base_record _) in *.
  change (to_size_t (4 * sizeof_OST_ID)) with 32.
  change (to_int 32) with 32.
  rewrite (get_mod_prefix (after_read fd (7 * 8) _) 32 _ rest)
    by (try reflexivity; rewrite !length_app, !length_word; reflexivity).
  change (to_size_t 32 <? 32) with false. cbv iota.
  change (4 * sizeof_OST_ID) with 32 in Hbuf.
  destruct (buffer_ready_block h buf_p
              (sizeof_lustre_record + sizeof_lustre_component F + 32)
              ltac:(norm_offsets; lia) Hbuf)
    as (rec0 & Hrec0 & (Ha & Hfit & Hoob) & Hsz).
  rewrite Hrec0.
  rewrite hand_back_ret, hand_back_buf_1.
  split; [reflexivity|].
  repeat match goal with
         | |- context [addr (store64 ?o ?v ?b)] =>
             change (addr (store64 o v b)) with (addr b)
         | |- context [addr (poke ?o ?v ?b)] =>
             change (addr (poke o v b)) with (addr b)
         end.
  rewrite Hpool.
  match goal with
  | |- context [if swap_flag fd then bswap_ost_ids ?o 4 ?p else _] =>
      set (P := p)
  end.
  set (S := sizeof_lustre_component F) in *.
  assert (HlenP : length (mem P) = length (mem rec0))
    by (unfold P, store64; now rewrite !length_mem_poke).
  assert (HaddrP : addr P = addr rec0) by reflexivity.
  assert (HoobP : oob P = false).
  { unfold P, store64.
    repeat (apply oob_poke; [ | norm_offsets; lia | norm_offsets; norm_lengths; try rewrite Hbase; lia]).
    exact Hoob. }
  assert (K : holds (mem P) 16 (le_encode 8 1) /\
              holds (mem P) 24 (le_encode 8 (addr rec0 + 40)) /\
              holds (mem P) 32 (le_encode 8 (addr rec0 + 40 + S)) /\
              holds (mem P) 40 (le_encode 8 65536) /\
              holds (mem P) 48 (le_encode 8 4) /\
              holds (mem P) 56 (le_encode 8 (-1)) /\
              holds (mem P) 64 (le_encode 8 (-1)) /\
              holds (mem P) 72 (le_encode 8 0) /\
              holds (mem P) 80 (le_encode 8 (-1)) /\
              holds (mem P) 88 (le_encode 8 (-1)) /\
              holds (mem P) (40 + 8 * LUSTRE_COMP_NUM_INDICES F) [x00] /\
              holds (mem P) (40 + S)
                (word (swap_flag fd) 1 ++ word (swap_flag fd) 2
                 ++ word (swap_flag fd) 3 ++ word (swap_flag fd) 4)).
  { unfold P. norm_offsets.
    repeat match goal with |- _ /\ _ => split end; peel. }
  destruct K as (Knc & Kcp & Kop & K0 & K1 & K2 & K3 & K4 & K5 & K6 & Kpn & Kid).
  apply holds_app in Kid. destruct Kid as (I0 & Kid).
  apply holds_app in Kid. destruct Kid as (I1 & Kid).
  apply holds_app in Kid. destruct Kid as (I2 & I3).
  rewrite ?length_word in I1. rewrite ?length_word in I2.
  rewrite ?length_word in I3.
  replace (40 + S + Z.of_nat 8 + Z.of_nat 8 + Z.of_nat 8) with (40 + S + 24)
    in I3 by lia.
  replace (40 + S + Z.of_nat 8 + Z.of_nat 8) with (40 + S + 16) in I2 by lia.
  replace (40 + S + Z.of_nat 8) with (40 + S + 8) in I1 by lia.
  clearbody P. clear Hrec0 Hsize Hcount.
  destruct (swap_flag fd).
  - (* the other byte order: every identifier is reversed in place *)
    unfold bswap_ost_ids. rewrite for_upto_4.
    norm_offsets.
    replace (16 + 8 + 8 + 8 + S + 8 * 0) with (40 + S) by lia.
    replace (16 + 8 + 8 + 8 + S + 8 * 1) with (40 + S + 8) by lia.
    replace (16 + 8 + 8 + 8 + S + 8 * 2) with (40 + S + 16) by lia.
    replace (16 + 8 + 8 + 8 + S + 8 * 3) with (40 + S + 24) by lia.
    match goal with
    | |- context [Some ?r = Some _] => set (R := r)
    end.
    assert (HaddrR : addr R = addr rec0) by (rewrite <- HaddrP; reflexivity).
    assert (HlenR : length (mem R) = length (mem rec0))
      by (unfold R; norm_lengths; exact HlenP).
    destruct (record_of_legacy F R HF) as (Hn & c & Hc & Hfs & Hpn & Hids);
      fold S; rewrite ?HaddrR, ?HlenR; try lia;
      try (unfold R;
           repeat (apply holds_BSWAP64_other;
                   [ | norm_lengths; lia | lia | norm_lengths; lia]);
           assumption);
      try (unfold R;
           match goal with
           | |- holds _ _ (le_encode 8 ?v) => rewrite <- (rev_word_true v)
           end;
           repeat first
             [ apply holds_BSWAP64; [ | apply length_word]
             | apply holds_BSWAP64_other;
               [ | norm_lengths; lia | lia | norm_lengths; lia] ];
           assumption).
    exists R, c. split; [reflexivity|].
    split; [|pose proof (Hcounters c Hfs); tauto].
    unfold R.
    repeat (apply oob_bswap; [ | lia | norm_lengths; lia]). exact HoobP.
  - cbn [word] in I0, I1, I2, I3.
    destruct (record_of_legacy F P HF) as (Hn & c & Hc & Hfs & Hpn & Hids);
      fold S; rewrite ?HaddrP, ?HlenP; try assumption; try lia.
    exists P, c. split; [reflexivity|].
    split; [exact HoobP | pose proof (Hcounters c Hfs); tauto].
Qed.

(** ** Records without components *)

Lemma empty_header (sw : bool) (hdr : bytes) :
  length hdr = 16%nat ->
  let data := hdr ++ word sw 0 in
  let tmp_rec :=
    if sw
    then bswap64_bytes off_num_comps (bswap64_bytes 8 (bswap64_bytes 0 data))
    else data in
  load64 off_num_comps tmp_rec = 0 /\
  exists base, length base = 16%nat /\
    mem_read 0 fixed_size tmp_rec = base ++ le_encode 8 0.
Proof.
  intros Hl.
  do 16 (destruct hdr as [|? hdr]; [discriminate|]).
  destruct hdr; [|discriminate].
  destruct sw; (split; [vm_compute; reflexivity|]);
    eexists (_ :: _ :: _ :: _ :: _ :: _ :: _ :: _ :: _ :: _ :: _ :: _ :: _ :: _ :: _ :: [_]);
    (split; [reflexivity|]); vm_compute; reflexivity.
Qed.

Lemma for_upto_0 {A : Type} (f : Z -> A -> A) (a : A) : for_upto 0 f a = a.
Proof. reflexivity. Qed.

(** A record without components, read into the caller's buffer. *)
Theorem empty_record_in_caller_buffer (F : format) (fd : darshan_fd)
    (h : allocator) (b : block) (hdr rest : bytes) :
  mod_len fd <> 0 -> version_ok F fd -> mod_ver fd <> 1 ->
  length hdr = 16%nat ->
  mod_data fd = (hdr ++ word (swap_flag fd) 0) ++ rest ->
  block_ok b -> sizeof_lustre_record <= Z.of_nat (length (mem b)) ->
  let o := darshan_log_get_lustre_record F fd h (Some b) in
  o_ret o = fixed_size /\
  exists rec,
    o_buf o = Some rec /\ oob rec = false /\
    num_comps (record_of F rec) = 0 /\
    comps (record_of F rec) = [] /\
    ost_ids (record_of F rec) = [] /\
    put_bytes F rec = [mem_read 0 sizeof_lustre_record (mem rec)] /\
    Z.of_nat (length (mem_read 0 sizeof_lustre_record (mem rec)))
    = sizeof_lustre_record.
Proof.
  intros Hlen (Hv0 & Hv) Hv1 Hhdr Hdata (Ha & Hfit & Hoob) Hsz o. subst o.
  unfold darshan_log_get_lustre_record.
  replace (mod_len fd =? 0) with false by (symmetry; apply Z.eqb_neq; assumption).
  replace (mod_ver fd =? 0) with false by (symmetry; apply Z.eqb_neq; assumption).
  replace (DARSHAN_LUSTRE_VER F <? mod_ver fd) with false
    by (symmetry; apply Z.ltb_ge; lia).
  replace (mod_ver fd =? 1) with false by (symmetry; apply Z.eqb_neq; assumption).
  cbn [orb].
  unfold darshan_log_get_lustre_record_cur.
  rewrite (get_mod_prefix fd fixed_size _ _ Hdata)
    by (rewrite !length_app, !length_word, Hhdr; reflexivity).
  change (fixed_size <? 0) with false. change (fixed_size <? fixed_size) with false.
  cbv iota zeta.
  destruct (empty_header (swap_flag fd) hdr Hhdr) as (Hn & base & Hbase & Htmp).
  cbv zeta in Hn, Htmp. rewrite Hn, Htmp.
  change (0 <? 1) with true. cbv iota.
  rewrite hand_back_ret. split; [reflexivity|].
  cbn [hand_back leave o_buf].
  eexists. split; [reflexivity|].
  match goal with |- oob ?r = false /\ _ => set (R := r) end.
  assert (HlenR : length (mem R) = length (mem b))
    by (unfold R, store64; now rewrite !length_mem_poke).
  assert (K : holds (mem R) 0 (base ++ le_encode 8 0) /\
              holds (mem R) 24 (le_encode 8 0) /\
              holds (mem R) 32 (le_encode 8 0)).
  { unfold R. norm_offsets.
    repeat match goal with |- _ /\ _ => split end;
      unfold store64;
      repeat first
        [ apply holds_poke;
          [lia | norm_lengths; rewrite ?Hbase; lia]
        | apply holds_poke_other; [ | norm_lengths; rewrite ?Hbase; lia ] ]. }
  destruct K as (K0 & Kc & Ko).
  apply holds_app in K0. destruct K0 as (_ & Kn). rewrite Hbase in Kn.
  change (0 + Z.of_nat 16) with 16 in Kn.
  assert (En : load64 off_num_comps (mem R) = 0)
    by (apply holds_load64; [exact Kn | lia]).
  split.
  { unfold R, store64. norm_offsets.
    repeat (apply oob_poke;
            [ | lia | norm_lengths; rewrite ?length_app, ?Hbase, ?length_le_encode; lia]).
    exact Hoob. }
  unfold record_of, put_bytes, darshan_log_put_lustre_record,
    darshan_log_put_lustre_record_with.
  cbn [num_comps comps ost_ids]. rewrite En.
  unfold count_osts. rewrite !for_upto_0.
  repeat split.
  - unfold LUSTRE_RECORD_SIZE, LUSTRE_RECORD_SIZE_with.
    replace (sizeof_lustre_record + sizeof_lustre_component F * 0 + sizeof_OST_ID * 0)
      with sizeof_lustre_record by lia.
    reflexivity.
  - unfold mem_read. rewrite length_firstn, length_skipn.
    norm_offsets. lia.
Qed.

(** X15. A record without components read with a null buffer pointer: the
    reader returns the size of the fixed-size part, not 1, frees the
    record it built, and the caller gets nothing. *)
Theorem empty_record_is_dropped (F : format) (fd : darshan_fd)
    (h : allocator) (a : Z) (hdr rest : bytes) :
  mod_len fd <> 0 -> version_ok F fd -> mod_ver fd <> 1 ->
  length hdr = 16%nat ->
  mod_data fd = (hdr ++ word (swap_flag fd) 0) ++ rest ->
  malloc_ret h = Some a ->
  let o := darshan_log_get_lustre_record F fd h None in
  o_ret o = fixed_size /\ o_buf o = None /\
  o_heap o = [Malloc sizeof_lustre_record; Free a].
Proof.
  intros Hlen (Hv0 & Hv) Hv1 Hhdr Hdata Hm o. subst o.
  unfold darshan_log_get_lustre_record.
  replace (mod_len fd =? 0) with false by (symmetry; apply Z.eqb_neq; assumption).
  replace (mod_ver fd =? 0) with false by (symmetry; apply Z.eqb_neq; assumption).
  replace (DARSHAN_LUSTRE_VER F <? mod_ver fd) with false
    by (symmetry; apply Z.ltb_ge; lia).
  replace (mod_ver fd =? 1) with false by (symmetry; apply Z.eqb_neq; assumption).
  cbn [orb].
  unfold darshan_log_get_lustre_record_cur.
  rewrite (get_mod_prefix fd fixed_size _ _ Hdata)
    by (rewrite !length_app, !length_word, Hhdr; reflexivity).
  change (fixed_size <? 0) with false. change (fixed_size <? fixed_size) with false.
  cbv iota zeta.
  destruct (empty_header (swap_flag fd) hdr Hhdr) as (Hn & _).
  cbv zeta in Hn. rewrite Hn.
  change (0 <? 1) with true. cbv iota.
  change (to_int (to_size_t 0 * sizeof_lustre_component F)) with 0.
  unfold malloc. rewrite Hm.
  repeat split.
Qed.

(** ** Sizes asked of the container by the current-format reader *)

Lemma asked_after_read (fd : darshan_fd) (sz : Z) :
  asked (snd (darshan_log_get_mod fd sz)) = asked fd ++ [sz].
Proof. apply get_mod_consumes. Qed.

Lemma hand_back_fd buf_p ret rec fd ev :
  o_fd (hand_back buf_p ret rec fd ev) = fd.
Proof. unfold hand_back. destruct buf_p; [|destruct (ret =? 1)]; reflexivity. Qed.

(** X16. Whenever the fixed-size part is read in full, a buffer can be had and
    at least one component is announced, the second request made to the
    container is for the component array, and its size is computed from
    [num_comps] as normalized, byte-reversed when the flag is set: the
    header is normalized before its count is used. *)
Lemma component_request_uses_normalized_count (F : format) (fd : darshan_fd)
    (h : allocator) (buf_p : option block) :
  fixed_size <= remaining fd -> buffer_available h buf_p ->
  1 <= peek_num_comps fd ->
  exists more,
    asked (o_fd (darshan_log_get_lustre_record_cur F fd h buf_p))
    = asked fd
      ++ fixed_size
         :: to_int (to_size_t (peek_num_comps fd) * sizeof_lustre_component F)
         :: more.
Proof.
  intros Hrem Hav Hn.
  unfold darshan_log_get_lustre_record_cur.
  pose proof (get_mod_full_data fd fixed_size ltac:(reflexivity)) as Hd.
  pose proof (asked_after_read fd fixed_size) as Ha.
  destruct (get_mod_cases fd fixed_size ltac:(unfold fixed_size, sizeof_base_record; lia))
    as [(_ & Hr)|[(Hlt & _)|(Hlt & _)]]; try lia.
  destruct (darshan_log_get_mod fd fixed_size) as [[ret data] fd1].
  cbn [fst snd] in Hd, Ha, Hr. subst ret.
  specialize (Hd ltac:(lia)). subst data.
  change (fixed_size <? 0) with false. rewrite Z.ltb_irrefl. cbv iota zeta.
  fold (peek_num_comps fd).
  replace (peek_num_comps fd <? 1) with false by (symmetry; apply Z.ltb_ge; lia).
  set (comps_size := to_int (to_size_t (peek_num_comps fd) * sizeof_lustre_component F)).
  assert (Hbuf : exists rec0,
             match buf_p with
             | Some b => Some b
             | None => malloc h (to_size_t (sizeof_lustre_record + comps_size))
             end = Some rec0).
  { destruct buf_p as [b|]; [eauto|]. unfold malloc.
    destruct Hav as [Hav|Hav]; [congruence|].
    destruct (malloc_ret h); [eauto | congruence]. }
  destruct Hbuf as (rec0 & ->).
  pose proof (asked_after_read fd1 comps_size) as Ha1.
  destruct (darshan_log_get_mod fd1 comps_size) as [[ret1 data1] fd2].
  cbn [snd] in Ha1.
  match goal with
  | |- context [darshan_log_get_mod fd2 ?sz] =>
      pose proof (asked_after_read fd2 sz) as Ha2;
      destruct (darshan_log_get_mod fd2 sz) as [[ret2 data2] fd3]
  end.
  cbn [snd] in Ha2.
  match goal with
  | |- context [match ?m with Some _ => _ | None => leave _ _ _ _ end] =>
      destruct m
  end.
  - destruct (ret2 <? _); rewrite hand_back_fd, Ha2, Ha1, Ha, <- !app_assoc;
      eexists; reflexivity.
  - cbn [leave o_fd]. rewrite Ha1, Ha, <- !app_assoc. eexists; reflexivity.
Qed.

(** ** The flags rendering *)

Lemma land_pow2_low (a k : Z) :
  0 <= k < 12 -> Z.land (a mod 2 ^ 12) (2 ^ k) = Z.land a (2 ^ k).
Proof.
  intros Hk. apply Z.bits_inj'. intros i Hi.
  rewrite !Z.land_spec, Z.pow2_bits_eqb by lia.
  destruct (Z.eqb_spec k i) as [<-|Hne]; [|now rewrite !andb_false_r].
  rewrite Z.mod_pow2_bits_low by lia. reflexivity.
Qed.

Lemma set_labels_low (flags : Z) : set_labels (flags mod 2 ^ 12) = set_labels flags.
Proof.
  unfold set_labels. f_equal. apply filter_ext_in.
  intros [k l] Hin. apply in_combine_l in Hin. apply in_seq in Hin.
  cbn [fst]. apply Z.mod_pow2_bits_low. lia.
Qed.

Lemma flags_as_specified_low (flags : Z) :
  0 <= flags < 2 ^ 64 -> flags <> 2 ^ 64 - 1 ->
  flags_as_specified flags = flags_as_specified (flags mod 2 ^ 12).
Proof.
  intros Hr Hnot.
  assert (Hn : 0 <= flags mod 2 ^ 12 < 4096) by (apply Z.mod_pos_bound; lia).
  unfold flags_as_specified.
  rewrite (to_size_t_small flags), (to_size_t_small (flags mod 2 ^ 12)) by lia.
  replace (flags =? 2 ^ 64 - 1) with false by (symmetry; apply Z.eqb_neq; lia).
  replace (flags mod 2 ^ 12 =? 2 ^ 64 - 1) with false
    by (symmetry; apply Z.eqb_neq; lia).
  now rewrite set_labels_low.
Qed.

Lemma rendering_length_low (flags : Z) :
  0 <= flags < 2 ^ 64 ->
  rendering_length flags = rendering_length (flags mod 2 ^ 12).
Proof.
  intros Hr.
  assert (Hn : 0 <= flags mod 2 ^ 12 < 4096) by (apply Z.mod_pos_bound; lia).
  unfold rendering_length.
  rewrite (to_size_t_small flags), (to_size_t_small (flags mod 2 ^ 12)) by lia.
  now rewrite set_labels_low.
Qed.

Lemma to_size_t_idem (z : Z) : to_size_t (to_size_t z) = to_size_t z.
Proof. unfold to_size_t. apply Z.mod_mod. lia. Qed.

(** * Whole records, printing and the allocator *)

(** ** Loops and runs of words *)

Lemma for_upto_succ {A : Type} (n : Z) (f : Z -> A -> A) (a : A) :
  0 <= n -> for_upto (n + 1) f a = f n (for_upto n f a).
Proof.
  intros Hn. unfold for_upto.
  replace (Z.to_nat (n + 1)) with (S (Z.to_nat n)) by lia.
  rewrite seq_S, fold_left_app. cbn [fold_left Nat.add].
  now rewrite Z2Nat.id by lia.
Qed.

Lemma fold_left_map_seq {A B C : Type} (g : A -> C -> A) (h : B -> C)
    (l : list B) (a : A) :
  fold_left g (map h l) a = fold_left (fun acc x => g acc (h x)) l a.
Proof. revert a. induction l; simpl; intros; auto. Qed.

Lemma for_upto_shift {A : Type} (n : Z) (f : Z -> A -> A) (a : A) :
  0 <= n -> for_upto (n + 1) f a = for_upto n (fun i => f (i + 1)) (f 0 a).
Proof.
  intros Hn. unfold for_upto.
  replace (Z.to_nat (n + 1)) with (S (Z.to_nat n)) by lia.
  cbn [seq fold_left]. rewrite <- seq_shift, fold_left_map_seq.
  change (Z.of_nat 0) with 0.
  generalize (f 0 a). generalize (seq 0 (Z.to_nat n)).
  induction l as [|i l IH]; simpl; intros x; [reflexivity|].
  rewrite IH. do 2 f_equal. lia.
Qed.

Lemma for_upto_nonpos {A : Type} (n : Z) (f : Z -> A -> A) (a : A) :
  n <= 0 -> for_upto n f a = a.
Proof.
  intros Hn. unfold for_upto.
  now replace (Z.to_nat n) with 0%nat by lia.
Qed.

Lemma for_upto_bounded {A : Type} (P : A -> Prop) (n : Z)
    (f : Z -> A -> A) (a : A) :
  P a -> (forall i x, 0 <= i < n -> P x -> P (f i x)) -> P (for_upto n f a).
Proof.
  intros Ha Hstep. unfold for_upto.
  assert (H : forall l, (forall i, In i l -> (i < Z.to_nat n)%nat) ->
            forall a, P a -> P (fold_left (fun acc i => f (Z.of_nat i) acc) l a)).
  { induction l as [|i l IH]; simpl; intros Hl x Hx; [assumption|].
    apply IH; [auto|]. apply Hstep; [|assumption].
    specialize (Hl i (or_introl eq_refl)). lia. }
  apply H; [|assumption]. intros i Hi. apply in_seq in Hi. lia.
Qed.

Lemma for_upto_ext {A : Type} (n : Z) (f g : Z -> A -> A) (a : A) :
  (forall i x, 0 <= i < n -> f i x = g i x) -> for_upto n f a = for_upto n g a.
Proof.
  intros H. unfold for_upto.
  assert (K : forall l, (forall i, In i l -> (i < Z.to_nat n)%nat) ->
            forall a, fold_left (fun acc i => f (Z.of_nat i) acc) l a
                      = fold_left (fun acc i => g (Z.of_nat i) acc) l a).
  { induction l as [|i l IH]; simpl; intros Hl x; [reflexivity|].
    rewrite H by (specialize (Hl i (or_introl eq_refl)); lia).
    apply IH. auto. }
  apply K. intros i Hi. apply in_seq in Hi. lia.
Qed.

Lemma for_upto_commute {A B : Type} (g : A -> B) (n : Z)
    (f : Z -> A -> A) (f' : Z -> B -> B) (a : A) :
  (forall i x, g (f i x) = f' i (g x)) ->
  g (for_upto n f a) = for_upto n f' (g a).
Proof.
  intros H. unfold for_upto.
  generalize (seq 0 (Z.to_nat n)) a.
  induction l as [|i l IH]; simpl; intros; [reflexivity|].
  now rewrite IH, H.
Qed.

Lemma holds_intro (m : bytes) (off : Z) (bs : bytes) :
  0 <= off -> off + Z.of_nat (length bs) <= Z.of_nat (length m) ->
  (forall i, (i < length bs)%nat ->
             nth_error m (Z.to_nat off + i) = nth_error bs i) ->
  holds m off bs.
Proof.
  intros H0 H1 H. split; [assumption|]. split; [assumption|].
  apply nth_error_ext. intros i. rewrite nth_error_mem_read, Nat2Z.id.
  destruct (Nat.ltb_spec i (length bs)) as [Hi|Hi]; [now apply H|].
  symmetry. now apply nth_error_None.
Qed.

Lemma holds_nth (m : bytes) (off : Z) (bs : bytes) (i : nat) :
  holds m off bs -> (i < length bs)%nat ->
  nth_error m (Z.to_nat off + i) = nth_error bs i.
Proof.
  intros (H0 & H1 & H2) Hi.
  apply (f_equal (fun l => nth_error l i)) in H2.
  rewrite nth_error_mem_read, Nat2Z.id in H2.
  now replace (i <? length bs)%nat with true in H2
    by (symmetry; apply Nat.ltb_lt; lia).
Qed.

Lemma holds_adjacent (m : bytes) (off : Z) (x y : bytes) :
  holds m off x -> holds m (off + Z.of_nat (length x)) y ->
  holds m off (x ++ y).
Proof.
  intros Hx Hy.
  pose proof Hx as (H0 & H1 & _). pose proof Hy as (H2 & H3 & _).
  apply holds_intro; [assumption | rewrite length_app; lia|].
  intros i Hi. rewrite nth_error_app.
  destruct (Nat.ltb_spec i (length x)) as [Hlt|Hge].
  - now apply holds_nth.
  - rewrite <- (holds_nth m _ y (i - length x) Hy)
      by (rewrite length_app in Hi; lia).
    f_equal. lia.
Qed.

Lemma mem_write_inside (off : Z) (src m : bytes) :
  0 <= off -> off + Z.of_nat (length src) <= Z.of_nat (length m) ->
  mem_write off src m
  = firstn (Z.to_nat off) m ++ src ++ skipn (Z.to_nat off + length src) m.
Proof.
  intros H0 H1. unfold mem_write.
  now replace (within off (Z.of_nat (length src)) m) with true
    by (symmetry; apply within_true; lia).
Qed.

Lemma mem_write_same (off : Z) (bs m : bytes) :
  holds m off bs -> mem_write off bs m = m.
Proof.
  intros H. pose proof H as (H0 & H1 & _).
  apply nth_error_ext. intros i.
  rewrite nth_error_mem_write by assumption.
  destruct (Nat.leb_spec (Z.to_nat off) i) as [Hle|Hgt]; [|reflexivity].
  destruct (Nat.ltb_spec i (Z.to_nat off + length bs)) as [Hlt|Hge];
    [|reflexivity].
  cbn [andb]. rewrite <- (holds_nth m off bs (i - Z.to_nat off) H) by lia.
  f_equal. lia.
Qed.

Lemma mem_write_app (off : Z) (a b m : bytes) :
  0 <= off ->
  off + Z.of_nat (length a) + Z.of_nat (length b) <= Z.of_nat (length m) ->
  mem_write (off + Z.of_nat (length a)) b (mem_write off a m)
  = mem_write off (a ++ b) m.
Proof.
  intros H0 H1.
  apply nth_error_ext. intros i.
  rewrite !nth_error_mem_write
    by (rewrite ?length_mem_write, ?length_app; lia).
  rewrite length_app, nth_error_app.
  replace (Z.to_nat (off + Z.of_nat (length a)))
    with (Z.to_nat off + length a)%nat by lia.
  destruct (Nat.leb_spec (Z.to_nat off + length a) i) as [Hle|Hgt].
  - replace (Z.to_nat off <=? i)%nat with true
      by (symmetry; apply Nat.leb_le; lia).
    replace (i <? Z.to_nat off + length a)%nat with false
      by (symmetry; apply Nat.ltb_ge; lia).
    replace (i - Z.to_nat off <? length a)%nat with false
      by (symmetry; apply Nat.ltb_ge; lia).
    replace (i <? Z.to_nat off + length a + length b)%nat
      with (i <? Z.to_nat off + (length a + length b))%nat by (f_equal; lia).
    cbn [andb].
    destruct (i <? Z.to_nat off + (length a + length b))%nat; [|reflexivity].
    f_equal. lia.
  - cbn [andb].
    destruct (Nat.leb_spec (Z.to_nat off) i) as [Hle'|Hgt']; [|reflexivity].
    replace (i <? Z.to_nat off + length a)%nat with true
      by (symmetry; apply Nat.ltb_lt; lia).
    replace (i <? Z.to_nat off + (length a + length b))%nat with true
      by (symmetry; apply Nat.ltb_lt; lia).
    replace (i - Z.to_nat off <? length a)%nat with true
      by (symmetry; apply Nat.ltb_lt; lia).
    reflexivity.
Qed.

Lemma bswap_is_write (off : Z) (m w : bytes) :
  holds m off w -> length w = 8%nat ->
  bswap64_bytes off m = mem_write off (rev w) m.
Proof.
  intros H Hl. unfold bswap64_bytes.
  now rewrite (holds_read m off w 8 H) by (rewrite Hl; reflexivity).
Qed.

Lemma length_words (sw : bool) (vs : list Z) :
  length (words sw vs) = (8 * length vs)%nat.
Proof.
  induction vs as [|v vs IH]; [reflexivity|].
  cbn [words flat_map]. fold (words sw vs).
  rewrite length_app, length_word, IH. cbn [length]. lia.
Qed.

Lemma rev_word (v : Z) : rev (word true v) = word false v.
Proof. apply rev_involutive. Qed.

(** Reversing in place each word of a run of words is one write of the
    run in the other byte order. *)
Lemma bswap_words (vs : list Z) (base : Z) (m : bytes) :
  holds m base (words true vs) ->
  for_upto (Z.of_nat (length vs)) (fun i m => bswap64_bytes (base + 8 * i) m) m
  = mem_write base (words false vs) m.
Proof.
  revert base m. induction vs as [|v vs IH]; intros base m H.
  - pose proof H as (H0 & H1 & _). cbn in *.
    unfold mem_write. cbn [length].
    replace (within base (Z.of_nat 0) m) with true
      by (symmetry; apply within_true; lia).
    cbn [app]. rewrite Nat.add_0_r. now rewrite firstn_skipn.
  - cbn [length]. rewrite Nat2Z.inj_succ, <- Z.add_1_r.
    rewrite for_upto_shift by lia.
    cbn [words flat_map] in *. fold (words true vs) in H.
    fold (words false vs).
    pose proof H as (H0 & H1 & _).
    rewrite length_app, length_word, length_words in H1.
    apply holds_app in H. destruct H as (Hv & Hvs).
    rewrite length_word in Hvs.
    replace (base + 8 * 0) with base by lia.
    rewrite (bswap_is_write base m _ Hv (length_word _ _)), rev_word.
    rewrite (for_upto_ext _ _ (fun i m => bswap64_bytes (base + 8 + 8 * i) m))
      by (intros; f_equal; lia).
    rewrite IH.
    + replace (base + 8) with (base + Z.of_nat (length (word false v)))
        by (rewrite length_word; lia).
      apply mem_write_app; [lia|].
      rewrite length_word, length_words. lia.
    + apply holds_write_other; [exact Hvs|].
      rewrite length_word. lia.
Qed.

Lemma mem_for_upto_bswap (n : Z) (off : Z -> Z) (b : block) :
  mem (for_upto n (fun i b => DARSHAN_BSWAP64 (off i) b) b)
  = for_upto n (fun i m => bswap64_bytes (off i) m) (mem b).
Proof. apply for_upto_commute. reflexivity. Qed.

Lemma oob_for_upto_bswap (n : Z) (off : Z -> Z) (b : block) :
  oob b = false ->
  (forall i, 0 <= i < n -> 0 <= off i /\ off i + 8 <= Z.of_nat (length (mem b))) ->
  oob (for_upto n (fun i b => DARSHAN_BSWAP64 (off i) b) b) = false.
Proof.
  intros Ho H.
  apply (for_upto_bounded
           (fun x => oob x = false /\ length (mem x) = length (mem b))).
  - auto.
  - intros i x Hi (Hx & Hl). split.
    + apply oob_bswap; [assumption | |]; rewrite ?Hl; apply H; assumption.
    + now rewrite length_mem_bswap.
Qed.

Lemma for_upto_add {A : Type} (a b : Z) (f : Z -> A -> A) (x : A) :
  0 <= a -> 0 <= b ->
  for_upto (a + b) f x = for_upto b (fun i => f (a + i)) (for_upto a f x).
Proof.
  intros Ha Hb. revert b Hb.
  apply natlike_ind.
  - now rewrite Z.add_0_r.
  - intros b Hb IH. unfold Z.succ.
    rewrite Z.add_assoc, !for_upto_succ by lia. now rewrite IH.
Qed.

Lemma stdio_bytes_words sw r :
  stdio_bytes sw r
  = words sw (stdio_id r :: stdio_rank r :: stdio_counters r ++ stdio_fcounters r).
Proof.
  unfold stdio_bytes, words. cbn [flat_map].
  now rewrite flat_map_app.
Qed.

Lemma mem_stdio_bswap (F : format) (file : block) :
  0 <= STDIO_NUM_INDICES F -> 0 <= STDIO_F_NUM_INDICES F ->
  mem (stdio_bswap F file)
  = for_upto (2 + STDIO_NUM_INDICES F + STDIO_F_NUM_INDICES F)
      (fun i m => bswap64_bytes (8 * i) m) (mem file).
Proof.
  intros HN HF. unfold stdio_bswap. rewrite !mem_for_upto_bswap.
  unfold sizeof_base_record. cbn [mem DARSHAN_BSWAP64].
  rewrite (for_upto_ext (STDIO_F_NUM_INDICES F) _
             (fun i m => bswap64_bytes (8 * (2 + STDIO_NUM_INDICES F + i)) m))
    by (intros; f_equal; lia).
  rewrite (for_upto_ext (STDIO_NUM_INDICES F) _
             (fun i m => bswap64_bytes (8 * (2 + i)) m))
    by (intros; f_equal; lia).
  symmetry.
  rewrite (for_upto_add (2 + STDIO_NUM_INDICES F)) by lia.
  rewrite (for_upto_add 2) by lia.
  reflexivity.
Qed.

Lemma oob_stdio_bswap (F : format) (file : block) :
  0 <= STDIO_NUM_INDICES F -> 0 <= STDIO_F_NUM_INDICES F ->
  oob file = false -> sizeof_stdio_file F <= Z.of_nat (length (mem file)) ->
  oob (stdio_bswap F file) = false.
Proof.
  intros HN HF Ho Hl. unfold stdio_bswap, sizeof_stdio_file, sizeof_base_record in *.
  assert (L : forall n off b, length (mem (for_upto n (fun i b => DARSHAN_BSWAP64 (off i) b) b))
                         = length (mem b)).
  { intros n off b.
    apply (for_upto_invariant (fun x => length (mem x) = length (mem b))); auto.
    intros i x Hx. now rewrite length_mem_bswap. }
  apply oob_for_upto_bswap.
  - apply oob_for_upto_bswap.
    + apply oob_bswap; [apply oob_bswap| |]; rewrite ?length_mem_bswap; try lia.
      exact Ho.
    + intros i Hi. rewrite !length_mem_bswap. lia.
  - intros i Hi. rewrite L, !length_mem_bswap. lia.
Qed.

Lemma stdio_bswap_words (F : format) (file : block) (vs : list Z) :
  Z.of_nat (length vs) = 2 + STDIO_NUM_INDICES F + STDIO_F_NUM_INDICES F ->
  0 <= STDIO_NUM_INDICES F -> 0 <= STDIO_F_NUM_INDICES F ->
  holds (mem file) 0 (words true vs) ->
  holds (mem (stdio_bswap F file)) 0 (words false vs).
Proof.
  intros Hl HN HF H. rewrite mem_stdio_bswap, <- Hl by assumption.
  rewrite (for_upto_ext _ _ (fun i m => bswap64_bytes (0 + 8 * i) m))
    by reflexivity.
  rewrite bswap_words by assumption.
  destruct H as (H0 & H1 & _). rewrite length_words in *.
  apply holds_write; rewrite ?length_words; lia.
Qed.

(** What the reader leaves in the buffer when a whole record is there. *)
Lemma get_stdio_record_full (F : format) (fd : darshan_fd) (h : allocator)
    (buf_p : option block) (bs rest : bytes) :
  format_ok F -> mod_len fd <> 0 ->
  Z.of_nat (length bs) = sizeof_stdio_file F ->
  mod_data fd = bs ++ rest ->
  buffer_ready h buf_p (sizeof_stdio_file F) ->
  exists rec0,
    block_ok rec0 /\ sizeof_stdio_file F <= Z.of_nat (length (mem rec0)) /\
    darshan_log_get_stdio_record F fd h buf_p
    = leave 1
        (Some (if swap_flag fd then stdio_bswap F (poke 0 bs rec0)
               else poke 0 bs rec0))
        (after_read fd (sizeof_stdio_file F) rest)
        (match buf_p with Some _ => [] | None => [Malloc (sizeof_stdio_file F)] end).
Proof.
  intros HF Hlen Hbs Hdata Hbuf.
  pose proof (sizeof_stdio_file_bounds F HF) as Hsz.
  destruct (buffer_ready_block h buf_p (sizeof_stdio_file F) ltac:(lia) Hbuf)
    as (rec0 & Hrec0 & Hok & Hfit).
  rewrite to_size_t_small in Hrec0 by lia.
  exists rec0. split; [assumption|]. split; [assumption|].
  unfold darshan_log_get_stdio_record.
  replace (mod_len fd =? 0) with false by (symmetry; apply Z.eqb_neq; assumption).
  rewrite Hrec0.
  rewrite (get_mod_prefix fd _ _ _ Hdata Hbs).
  replace (sizeof_stdio_file F <? 0) with false by (symmetry; apply Z.ltb_ge; lia).
  rewrite to_size_t_small by lia.
  rewrite Z.ltb_irrefl, Z.eqb_refl.
  destruct buf_p; reflexivity.
Qed.

Lemma mem_read_mem_read (off len n : Z) (m : bytes) :
  0 <= off -> 0 <= len -> off + len <= n ->
  mem_read off len (mem_read 0 n m) = mem_read off len m.
Proof.
  intros H0 H1 H2. unfold mem_read. cbn [Z.to_nat skipn].
  rewrite skipn_firstn_comm, firstn_firstn. f_equal. lia.
Qed.

Lemma load64_words (m : bytes) (base : Z) (vs : list Z) :
  holds m base (words false vs) -> Forall is_int64 vs ->
  map (fun i => load64 (base + 8 * i) m) (upto (Z.of_nat (length vs))) = vs.
Proof.
  revert base. induction vs as [|v vs IH]; intros base H Hr; [reflexivity|].
  cbn [words flat_map] in H. fold (words false vs) in H.
  apply holds_app in H. destruct H as (Hv & Hvs). rewrite length_word in Hvs.
  inversion Hr as [|? ? Hv' Hr']; subst.
  unfold upto. rewrite Nat2Z.id. cbn [length seq map].
  change (Z.of_nat 0) with 0. rewrite Z.mul_0_r, Z.add_0_r.
  f_equal.
  - apply holds_load64; assumption.
  - rewrite <- seq_shift, !map_map.
    rewrite <- (IH (base + 8) Hvs Hr') at 2.
    unfold upto. rewrite Nat2Z.id, map_map.
    apply map_ext. intros i. f_equal. lia.
Qed.

Lemma load_ptr_words (m : bytes) (base : Z) (vs : list Z) :
  holds m base (words false vs) -> Forall is_uint64 vs ->
  map (fun i => load_ptr (base + 8 * i) m) (upto (Z.of_nat (length vs))) = vs.
Proof.
  revert base. induction vs as [|v vs IH]; intros base H Hr; [reflexivity|].
  cbn [words flat_map] in H. fold (words false vs) in H.
  apply holds_app in H. destruct H as (Hv & Hvs). rewrite length_word in Hvs.
  inversion Hr as [|? ? Hv' Hr']; subst.
  unfold upto. rewrite Nat2Z.id. cbn [length seq map].
  change (Z.of_nat 0) with 0. rewrite Z.mul_0_r, Z.add_0_r.
  f_equal.
  - apply holds_load_ptr; assumption.
  - rewrite <- seq_shift, !map_map.
    rewrite <- (IH (base + 8) Hvs Hr') at 2.
    unfold upto. rewrite Nat2Z.id, map_map.
    apply map_ext. intros i. f_equal. lia.
Qed.

Lemma stdio_record_of_bytes (F : format) (file : block) (r : stdio_file) :
  stdio_file_ok F r -> holds (mem file) 0 (stdio_bytes false r) ->
  stdio_record_of F file = r.
Proof.
  intros (Hid & Hrank & Hn & Hc & Hfn & Hf) H.
  unfold stdio_bytes in H.
  apply holds_app in H. destruct H as (H0 & H).
  apply holds_app in H. destruct H as (H1 & H).
  apply holds_app in H. destruct H as (H2 & H3).
  rewrite !length_word in *. rewrite length_words in H3.
  change (0 + Z.of_nat 8 + Z.of_nat 8) with 16 in H2, H3.
  change (0 + Z.of_nat 8) with 8 in H1.
  replace (16 + Z.of_nat (8 * length (stdio_counters r)))
    with (16 + 8 * Z.of_nat (length (stdio_counters r))) in H3 by lia.
  unfold stdio_record_of, sizeof_base_record.
  rewrite <- Hn, <- Hfn.
  rewrite (load64_words _ _ _ H2 Hc).
  rewrite (load_ptr_words _ _ _ H3 Hf).
  rewrite (holds_load_ptr _ _ _ H0 Hid).
  rewrite (holds_load64 _ _ _ H1 Hrank).
  now destruct r.
Qed.

Lemma length_stdio_bytes F sw r :
  stdio_file_ok F r -> Z.of_nat (length (stdio_bytes sw r)) = sizeof_stdio_file F.
Proof.
  intros (_ & _ & Hn & _ & Hfn & _).
  unfold stdio_bytes, sizeof_stdio_file, sizeof_base_record.
  rewrite !length_app, !length_word, !length_words. lia.
Qed.

(** The outcome of the STDIO reader on the bytes of a record: the buffer
    handed back holds the record in host byte order. *)
Lemma get_stdio_record_outcome (F : format) (fd : darshan_fd) (h : allocator)
    (buf_p : option block) (r : stdio_file) (rest : bytes) :
  format_ok F -> stdio_file_ok F r -> mod_len fd <> 0 ->
  mod_data fd = stdio_bytes (swap_flag fd) r ++ rest ->
  buffer_ready h buf_p (sizeof_stdio_file F) ->
  exists rec,
    darshan_log_get_stdio_record F fd h buf_p
    = leave 1 (Some rec) (after_read fd (sizeof_stdio_file F) rest)
        (match buf_p with Some _ => [] | None => [Malloc (sizeof_stdio_file F)] end)
    /\ oob rec = false /\ stdio_record_of F rec = r.
Proof.
  intros HF Hr Hlen Hdata Hbuf.
  pose proof (length_stdio_bytes F (swap_flag fd) r Hr) as Hl.
  destruct (get_stdio_record_full F fd h buf_p _ rest HF Hlen Hl Hdata Hbuf)
    as (rec0 & (Ha & Hfit & Hoob) & Hsz & ->).
  eexists. split; [reflexivity|].
  pose proof HF as (HN & HFN & _).
  assert (HP : holds (mem (poke 0 (stdio_bytes (swap_flag fd) r) rec0)) 0
                 (stdio_bytes (swap_flag fd) r))
    by (apply holds_poke; lia).
  assert (HoP : oob (poke 0 (stdio_bytes (swap_flag fd) r) rec0) = false)
    by (apply oob_poke; [assumption | lia | lia]).
  destruct (swap_flag fd).
  - split.
    + apply oob_stdio_bswap; try lia; [assumption|].
      now rewrite length_mem_poke.
    + apply stdio_record_of_bytes; [assumption|].
      rewrite !stdio_bytes_words. rewrite !stdio_bytes_words in HP.
      apply stdio_bswap_words; [|lia|lia|assumption].
      destruct Hr as (_ & _ & Hn & _ & Hfn & _).
      cbn [length]. rewrite length_app. lia.
  - split; [assumption|].
    now apply stdio_record_of_bytes.
Qed.

(** X1. Decoding, STDIO.  When the module region starts with the bytes of a
    record [r] of the format, in the byte order the log announces, and a
    buffer can be had (the caller's, large enough, or one from [malloc]),
    [darshan_log_get_stdio_record] returns 1, consumes exactly
    [sizeof(struct darshan_stdio_file)] bytes and hands back a buffer that
    holds [r]: id, rank, every integer counter and every floating point
    counter, byte-reversed when the flag is set, and no access outside the
    buffer was made. *)
Theorem get_stdio_record_decodes (F : format) (fd : darshan_fd) (h : allocator)
    (buf_p : option block) (r : stdio_file) (rest : bytes) :
  format_ok F -> stdio_file_ok F r -> mod_len fd <> 0 ->
  mod_data fd = stdio_bytes (swap_flag fd) r ++ rest ->
  buffer_ready h buf_p (sizeof_stdio_file F) ->
  let o := darshan_log_get_stdio_record F fd h buf_p in
  o_ret o = 1 /\
  o_fd o = after_read fd (sizeof_stdio_file F) rest /\
  exists rec,
    o_buf o = Some rec /\ oob rec = false /\ stdio_record_of F rec = r.
Proof.
  intros HF Hr Hlen Hdata Hbuf o. subst o.
  destruct (get_stdio_record_outcome F fd h buf_p r rest HF Hr Hlen Hdata Hbuf)
    as (rec & -> & Hoob & Hrec).
  cbn [leave o_ret o_fd o_buf].
  split; [reflexivity|]. split; [reflexivity|].
  exists rec. now repeat split.
Qed.


(** ** STDIO: writing a record and reading it again *)

Lemma in_upto (n i : Z) : In i (upto n) <-> 0 <= i < n.
Proof.
  unfold upto. rewrite in_map_iff. split.
  - intros (k & <- & Hk). apply in_seq in Hk. lia.
  - intros H. exists (Z.to_nat i). split; [lia|]. apply in_seq. lia.
Qed.

Lemma length_mem_read (off len : Z) (m : bytes) :
  0 <= off -> 0 <= len -> off + len <= Z.of_nat (length m) ->
  Z.of_nat (length (mem_read off len m)) = len.
Proof.
  intros. unfold mem_read. rewrite length_firstn, length_skipn. lia.
Qed.

Lemma stdio_record_of_ext (F : format) (a b : block) :
  format_ok F ->
  mem_read 0 (sizeof_stdio_file F) (mem a) = mem_read 0 (sizeof_stdio_file F) (mem b) ->
  stdio_record_of F a = stdio_record_of F b.
Proof.
  intros (HN & HFN & _) H.
  assert (K : forall off, 0 <= off -> off + 8 <= sizeof_stdio_file F ->
                mem_read off 8 (mem a) = mem_read off 8 (mem b)).
  { intros off H0 H1.
    rewrite <- (mem_read_mem_read off 8 (sizeof_stdio_file F) (mem a)) by lia.
    rewrite <- (mem_read_mem_read off 8 (sizeof_stdio_file F) (mem b)) by lia.
    now rewrite H. }
  unfold sizeof_stdio_file, sizeof_base_record in K.
  unfold stdio_record_of, load64, load_ptr, sizeof_base_record.
  rewrite (K 0), (K 8) by lia.
  f_equal.
  - apply map_ext_in. intros i Hi. apply in_upto in Hi. rewrite K by lia. reflexivity.
  - apply map_ext_in. intros i Hi. apply in_upto in Hi. rewrite K by lia. reflexivity.
Qed.

(** X2. Round trip, STDIO.  Whatever a buffer of at least
    [sizeof(struct darshan_stdio_file)] bytes holds and whatever version
    is asked for, writing it with [darshan_log_put_stdio_record] and
    reading what was written with [darshan_log_get_stdio_record] returns
    1, leaves nothing unread, and hands back a buffer with the same first
    [sizeof(struct darshan_stdio_file)] bytes, hence the same record. *)
Theorem stdio_put_then_get_round_trip (F : format) (h : allocator) (rec : block)
    (ver : Z) (buf_p : option block) :
  format_ok F -> sizeof_stdio_file F <= Z.of_nat (length (mem rec)) ->
  buffer_ready h buf_p (sizeof_stdio_file F) ->
  let o := stdio_put_then_get F h rec ver buf_p in
  o_ret o = 1 /\ mod_data (o_fd o) = [] /\
  exists rec',
    o_buf o = Some rec' /\ oob rec' = false /\
    mem_read 0 (sizeof_stdio_file F) (mem rec')
    = mem_read 0 (sizeof_stdio_file F) (mem rec) /\
    stdio_record_of F rec' = stdio_record_of F rec.
Proof.
  intros HF Hsz Hbuf o. subst o.
  pose proof (sizeof_stdio_file_bounds F HF) as Hb.
  unfold stdio_put_then_get, darshan_log_put_stdio_record, darshan_log_put_mod.
  cbn [log_of write_broken after_write written app].
  change (0 <? 0) with false. cbv iota.
  change (written (after_write (log_of (DARSHAN_STDIO_VER F) false [])
                     (DARSHAN_STDIO_VER F)
                     (mem_read 0 (sizeof_stdio_file F) (mem rec))))
    with [(DARSHAN_STDIO_VER F, mem_read 0 (sizeof_stdio_file F) (mem rec))].
  cbv iota.
  set (bs := mem_read 0 (sizeof_stdio_file F) (mem rec)).
  assert (Hl : Z.of_nat (length bs) = sizeof_stdio_file F)
    by (apply length_mem_read; lia).
  destruct (get_stdio_record_full F (log_of (DARSHAN_STDIO_VER F) false bs) h
              buf_p bs [] HF)
    as (rec0 & (Ha & Hfit & Hoob) & Hsz0 & ->);
    try assumption.
  { cbn. lia. }
  { cbn. now rewrite app_nil_r. }
  cbn [leave o_ret o_fd o_buf log_of swap_flag after_read mod_data].
  split; [reflexivity|]. split; [reflexivity|].
  eexists. split; [reflexivity|].
  split; [apply oob_poke; [assumption | lia | lia]|].
  assert (E : mem_read 0 (sizeof_stdio_file F) (mem (poke 0 bs rec0)) = bs).
  { apply holds_read; [apply holds_poke; lia | lia]. }
  split; [exact E|].
  apply stdio_record_of_ext; [assumption|]. exact E.
Qed.


(** ** Components in a buffer *)

Lemma holds_self (m : bytes) : holds m 0 m.
Proof.
  split; [lia|]. split; [lia|].
  unfold mem_read. cbn [Z.to_nat skipn]. rewrite Nat2Z.id. apply firstn_all.
Qed.

Lemma mem_write_all (src m : bytes) :
  length src = length m -> mem_write 0 src m = src.
Proof.
  intros H. rewrite mem_write_inside by lia.
  cbn [Z.to_nat firstn app Nat.add]. rewrite H, skipn_all. apply app_nil_r.
Qed.

Lemma holds_app_right (m x : bytes) (off : Z) (bs : bytes) :
  holds m off bs -> holds (m ++ x) off bs.
Proof.
  intros H. pose proof H as (H0 & H1 & _).
  apply holds_intro; [assumption | rewrite length_app; lia|].
  intros i Hi. rewrite nth_error_app1 by lia. now apply holds_nth.
Qed.

Lemma mem_read_prefix (m : bytes) (off : Z) (bs : bytes) (len : Z) :
  holds m off bs -> 0 <= len <= Z.of_nat (length bs) ->
  mem_read off len m = firstn (Z.to_nat len) bs.
Proof.
  intros (H0 & H1 & H2) Hl. rewrite <- H2. unfold mem_read.
  rewrite firstn_firstn. f_equal. lia.
Qed.

Lemma length_zeros n : length (zeros n) = n.
Proof. apply repeat_length. Qed.

Lemma c_string_padded (pool : bytes) (k P : nat) :
  ~ In x00 pool -> (length pool <= P)%nat -> (P <= length pool + k)%nat ->
  c_string (firstn P (pool ++ zeros k)) = pool.
Proof.
  revert P. induction pool as [|b pool IH]; intros P Hin Hl Hk.
  - cbn [app length] in *. destruct P; [reflexivity|].
    destruct k; [lia|]. reflexivity.
  - cbn [length] in *. destruct P as [|P]; [lia|].
    cbn [app firstn c_string].
    destruct (Byte.eqb b x00) eqn:E.
    + apply Byte.byte_dec_bl in E. exfalso. apply Hin. left. assumption.
    + f_equal. apply IH; [|lia|lia]. intros H. apply Hin. now right.
Qed.

Lemma holds_words_nth (m : bytes) (base : Z) (vs : list Z) (j : nat) :
  holds m base (words false vs) -> (j < length vs)%nat ->
  is_int64 (nth j vs 0) ->
  load64 (base + 8 * Z.of_nat j) m = nth j vs 0.
Proof.
  revert base j. induction vs as [|v vs IH]; intros base j H Hj Hr;
    [cbn in Hj; lia|].
  cbn [words flat_map] in H. fold (words false vs) in H.
  apply holds_app in H. destruct H as (Hv & Hvs). rewrite length_word in Hvs.
  destruct j as [|j].
  - cbn [nth] in *. change (Z.of_nat 0) with 0.
    rewrite Z.mul_0_r, Z.add_0_r. apply holds_load64; assumption.
  - cbn [nth length] in *.
    rewrite <- (IH (base + Z.of_nat 8) j Hvs) by (assumption || lia).
    f_equal. lia.
Qed.

Section Components.

Variable F : format.
Hypothesis HF : format_ok F.

Let sz := sizeof_lustre_component F.
Let NUM := LUSTRE_COMP_NUM_INDICES F.

Lemma length_component_bytes_of (sw : bool) (c : component) :
  component_ok F c -> Z.of_nat (length (component_bytes_of F sw c)) = sz.
Proof.
  intros (Hn & _ & _ & Hp & _).
  destruct (sizeof_lustre_component_bounds F HF) as (Hs & Ho).
  unfold component_bytes_of. rewrite !length_app, length_words, length_zeros.
  fold sz in Hs |- *. rewrite Ho. lia.
Qed.

Lemma length_components (sw : bool) (cs : list component) :
  Forall (component_ok F) cs ->
  Z.of_nat (length (flat_map (component_bytes_of F sw) cs))
  = Z.of_nat (length cs) * sz.
Proof.
  induction 1 as [|c cs Hc Hcs IH]; [reflexivity|].
  cbn [flat_map length]. rewrite length_app, Nat2Z.inj_add, IH.
  rewrite (length_component_bytes_of sw c Hc). lia.
Qed.

Lemma stripe_total_nonneg (cs : list component) :
  Forall (component_ok F) cs -> 0 <= stripe_total cs.
Proof.
  induction 1 as [|c cs (_ & _ & Hc & _) Hcs IH]; cbn [stripe_total fold_right];
    [lia|]. fold (stripe_total cs). lia.
Qed.

Lemma component_counter (m : bytes) (base : Z) (c : component)
    (j : Z) :
  component_ok F c -> holds m base (component_bytes_of F false c) ->
  0 <= j < NUM ->
  load64 (base + 8 * j) m = counter c j.
Proof.
  intros (Hn & Hr & _) H Hj. unfold component_bytes_of in H.
  apply holds_app in H. destruct H as (H & _).
  unfold counter. rewrite <- (Z2Nat.id j) at 1 by lia.
  apply holds_words_nth; [assumption | fold NUM in Hn; lia|].
  rewrite Forall_forall in Hr. apply Hr. apply nth_In. fold NUM in Hn. lia.
Qed.

(** The sum of the stripe counts as the code computes it. *)
Lemma count_osts_from (cs : list component) (base : Z) (m : bytes) (acc : Z) :
  Forall (component_ok F) cs ->
  holds m base (flat_map (component_bytes_of F false) cs) ->
  0 <= acc -> acc + stripe_total cs < 2 ^ 31 ->
  for_upto (Z.of_nat (length cs))
    (fun i num_osts =>
       to_int (num_osts + load64 (base + i * sz + 8 * LUSTRE_COMP_STRIPE_COUNT) m))
    acc
  = acc + stripe_total cs.
Proof.
  intros Hcs. revert base acc.
  induction Hcs as [|c cs Hc Hcs IH]; intros base acc H Hacc Hsum.
  - cbn. lia.
  - cbn [length]. rewrite Nat2Z.inj_succ, <- Z.add_1_r.
    rewrite for_upto_shift by lia.
    cbn [flat_map] in H. apply holds_app in H. destruct H as (Hc0 & Hrest).
    rewrite (length_component_bytes_of false c Hc) in Hrest.
    cbn [stripe_total fold_right] in *. fold (stripe_total cs) in *.
    pose proof (stripe_total_nonneg cs Hcs) as Hnn.
    pose proof Hc as (_ & _ & Hsc & _).
    pose proof HF as (_ & _ & HN & _).
    replace (base + 0 * sz + 8 * LUSTRE_COMP_STRIPE_COUNT)
      with (base + 8 * LUSTRE_COMP_STRIPE_COUNT) by lia.
    rewrite (component_counter m base c _ Hc Hc0)
      by (unfold LUSTRE_COMP_STRIPE_COUNT, NUM; lia).
    rewrite to_int_small by lia.
    rewrite (for_upto_ext _ _
               (fun i num_osts =>
                  to_int (num_osts
                          + load64 (base + sz + i * sz
                                    + 8 * LUSTRE_COMP_STRIPE_COUNT) m)))
      by (intros; do 3 f_equal; lia).
    rewrite IH by (assumption || lia). lia.
Qed.

(** Un-reversing the counters of every component. *)
Lemma bswap_components_from (cs : list component) (base : Z) (m : bytes) :
  Forall (component_ok F) cs ->
  holds m base (flat_map (component_bytes_of F true) cs) ->
  for_upto (Z.of_nat (length cs))
    (fun i m => for_upto NUM
                  (fun j m => bswap64_bytes (base + i * sz + 8 * j) m) m) m
  = mem_write base (flat_map (component_bytes_of F false) cs) m.
Proof.
  intros Hcs. revert base m.
  induction Hcs as [|c cs Hc Hcs IH]; intros base m H.
  - pose proof H as (H0 & H1 & _). cbn in *.
    rewrite mem_write_inside by (cbn; lia). cbn [length app].
    rewrite Nat.add_0_r. now rewrite firstn_skipn.
  - cbn [length]. rewrite Nat2Z.inj_succ, <- Z.add_1_r.
    rewrite for_upto_shift by lia.
    cbn [flat_map] in *.
    pose proof H as (H0 & H1 & _).
    rewrite length_app in H1. rewrite Nat2Z.inj_add in H1.
    rewrite (length_component_bytes_of true c Hc) in H1.
    rewrite (length_components true cs Hcs) in H1.
    apply holds_app in H. destruct H as (Hc0 & Hrest).
    rewrite (length_component_bytes_of true c Hc) in Hrest.
    pose proof Hrest as (_ & Hr1 & _).
    pose proof Hc as (Hn & _).
    unfold component_bytes_of in Hc0 |- *.
    set (tail := pool_name c ++ zeros _) in *.
    apply holds_app in Hc0. destruct Hc0 as (Hw & Htail).
    rewrite length_words in Htail.
    pose proof (length_component_bytes_of false c Hc) as Hlc.
    unfold component_bytes_of in Hlc. fold tail in Hlc.
    rewrite length_app, length_words in Hlc.
    (* the first component *)
    rewrite (for_upto_ext NUM _ (fun j m => bswap64_bytes (base + 8 * j) m))
      by (intros; f_equal; lia).
    unfold NUM. rewrite <- Hn. rewrite (bswap_words _ _ _ Hw).
    set (m1 := mem_write base (words false (counters c)) m).
    assert (Hw1 : holds m1 base (words false (counters c))).
    { apply holds_write; [lia|]. rewrite length_words. lia. }
    assert (Htail1 : holds m1 (base + Z.of_nat (8 * length (counters c))) tail).
    { apply holds_write_other; [assumption|]. rewrite length_words. lia. }
    assert (Hrest1 : holds m1 (base + sz)
                       (flat_map (fun c => words true (counters c) ++ pool_name c ++
                                  zeros (Z.to_nat (sizeof_lustre_component F - off_pool_name F)
                                         - length (pool_name c))) cs)).
    { apply holds_write_other; [assumption|]. rewrite length_words. right. lia. }
    (* the others *)
    rewrite (for_upto_ext _ _
               (fun i m => for_upto (Z.of_nat (length (counters c)))
                             (fun j m => bswap64_bytes (base + sz + i * sz + 8 * j) m) m)).
    2:{ intros i x Hi. rewrite Hn. apply for_upto_ext. intros; f_equal; lia. }
    rewrite Hn. fold NUM. rewrite (IH (base + sz) m1 Hrest1).
    assert (E1 : m1 = mem_write base (words false (counters c) ++ tail) m).
    { rewrite <- mem_write_app by (rewrite ?length_words; lia). fold m1.
      rewrite length_words. symmetry. apply mem_write_same. assumption. }
    rewrite E1.
    replace (base + sz)
      with (base + Z.of_nat (length (words false (counters c) ++ tail)))
      by (rewrite length_app, length_words; lia).
    apply mem_write_app; [lia|].
    rewrite length_app, length_words.
    pose proof (length_components false cs Hcs) as Hl2.
    unfold component_bytes_of in Hl2. lia.
Qed.

End Components.


(** ** The view of a laid out record *)

Lemma upto_succ (n : nat) :
  upto (Z.of_nat (S n)) = 0 :: map (fun i => i + 1) (upto (Z.of_nat n)).
Proof.
  unfold upto. rewrite !Nat2Z.id. cbn [seq map]. f_equal.
  rewrite <- seq_shift, !map_map. apply map_ext. intros i. lia.
Qed.

Lemma normalize_header (sw : bool) (id rank n : Z) :
  (if sw
   then bswap64_bytes off_num_comps
          (bswap64_bytes 8 (bswap64_bytes 0 (header_bytes sw id rank n)))
   else header_bytes sw id rank n)
  = header_bytes false id rank n.
Proof.
  destruct sw; [|reflexivity].
  pose proof (bswap_words [id; rank; n] 0 _ (holds_self _)) as E.
  rewrite mem_write_all in E by (rewrite !length_words; reflexivity).
  unfold words in E. cbn [flat_map length] in E. rewrite !app_nil_r in E.
  exact E.
Qed.

Lemma length_header_bytes sw id rank n :
  length (header_bytes sw id rank n) = 24%nat.
Proof. unfold header_bytes. now rewrite !length_app, !length_word. Qed.

Lemma header_fields (m : bytes) (id rank n : Z) :
  holds m 0 (header_bytes false id rank n) ->
  is_uint64 id -> is_int64 rank -> is_int64 n ->
  load_ptr 0 m = id /\ load64 8 m = rank /\ load64 off_num_comps m = n.
Proof.
  intros H Hid Hrank Hn. unfold header_bytes in H.
  apply holds_app in H. destruct H as (H0 & H).
  apply holds_app in H. destruct H as (H1 & H2).
  rewrite !length_word in *.
  split; [now apply holds_load_ptr|].
  split; now apply holds_load64.
Qed.

Section Decode.

Variable F : format.
Hypothesis HF : format_ok F.

Let sz := sizeof_lustre_component F.
Let NUM := LUSTRE_COMP_NUM_INDICES F.

Lemma components_at (cs : list component) (base : Z) (m : bytes) :
  Forall (component_ok F) cs ->
  holds m base (flat_map (component_bytes_of F false) cs) ->
  map (fun i =>
         mk_component
           (map (fun j => load64 (base + i * sz + 8 * j) m) (upto NUM))
           (c_string (mem_read (base + i * sz + off_pool_name F)
                        (LUSTRE_POOL_NAME_SIZE F) m)))
      (upto (Z.of_nat (length cs)))
  = cs.
Proof.
  intros Hcs. revert base.
  induction Hcs as [|c cs Hc Hcs IH]; intros base H; [reflexivity|].
  cbn [length]. rewrite upto_succ. cbn [map flat_map] in *.
  apply holds_app in H. destruct H as (Hc0 & Hrest).
  rewrite (length_component_bytes_of F HF false c Hc) in Hrest.
  destruct (sizeof_lustre_component_bounds F HF) as (Hs & Ho).
  pose proof HF as (_ & _ & HN & HP).
  f_equal.
  - pose proof Hc as (Hn & Hr & _ & Hp & Hz).
    unfold component_bytes_of in Hc0.
    apply holds_app in Hc0. destruct Hc0 as (Hw & Htail).
    rewrite length_words in Htail.
    destruct c as [cnt pool]. cbn [counters pool_name] in *.
    f_equal.
    + unfold NUM. rewrite <- Hn. rewrite <- (load64_words m base cnt Hw Hr) at 2.
      apply map_ext. intros j. f_equal. lia.
    + replace (base + 0 * sz + off_pool_name F)
        with (base + Z.of_nat (8 * length cnt)) by lia.
      rewrite (mem_read_prefix _ _ _ (LUSTRE_POOL_NAME_SIZE F) Htail)
        by (rewrite length_app, length_zeros; lia).
      apply c_string_padded; [assumption | lia | lia].
  - rewrite map_map. rewrite <- (IH (base + sz) Hrest) at 2.
    apply map_ext. intros i.
    replace (base + (i + 1) * sz) with (base + sz + i * sz) by lia.
    reflexivity.
Qed.

(** A buffer laid out as the reader lays it out holds the record. *)
Lemma record_of_layout (rec : block) (r : lustre_record) :
  lustre_record_ok F r -> laid_out F rec r -> record_of F rec = r.
Proof.
  intros (Hid & Hrank & Hn & Hn1 & Hcs & Hids & Hidr & Hsize)
    (Ha & Hfit & Hh & Hcp & Hop & Hc & Hi).
  change (word false) with (le_encode 8) in Hcp, Hop.
  unfold record_size in *. fold sz in Hsize, Hfit.
  pose proof (stripe_total_nonneg F (comps r) Hcs) as Ht.
  destruct (sizeof_lustre_component_bounds F HF) as (Hs & Ho). fold sz in Hs.
  pose proof HF as (_ & _ & HN & HP).
  assert (Hnsz : 1 <= num_comps r * sz) by nia.
  change off_comps with 24 in *. change off_ost_ids with 32 in *.
  change sizeof_lustre_record with 40 in *. change sizeof_OST_ID with 8 in *.
  destruct (header_fields _ _ _ _ Hh Hid Hrank) as (E0 & E1 & E2).
  { unfold is_int64. nia. }
  assert (Ec : comps_base rec = 40).
  { unfold comps_base. change off_comps with 24.
    rewrite (holds_load_ptr _ _ _ Hcp) by lia. lia. }
  assert (Eo : osts_base rec = 40 + num_comps r * sz).
  { unfold osts_base. change off_ost_ids with 32.
    rewrite (holds_load_ptr _ _ _ Hop) by lia. lia. }
  assert (Ek : count_osts F (comps_base rec) (num_comps r) (mem rec)
               = stripe_total (comps r)).
  { unfold count_osts. rewrite Ec, Hn.
    rewrite (count_osts_from F HF (comps r) 40 (mem rec) 0) by (assumption || lia).
    lia. }
  unfold record_of.
  rewrite E0, E1, E2, Ek, Eo.
  destruct r as [id rank n cs ids]. cbn [comps ost_ids num_comps] in *.
  f_equal.
  - rewrite Hn. rewrite <- (components_at cs 40 (mem rec) Hcs Hc) at 2.
    apply map_ext. intros i. unfold component_at. rewrite Ec. reflexivity.
  - rewrite <- Hids. apply load64_words; assumption.
Qed.

End Decode.


(** ** Normalizing in place *)

Lemma mem_touch_counts F base n rec : mem (touch_counts F base n rec) = mem rec.
Proof.
  unfold touch_counts.
  apply (for_upto_invariant (fun x => mem x = mem rec)); auto.
Qed.

Lemma oob_touch_counts F base n rec :
  oob rec = false ->
  (forall i, 0 <= i < n ->
     0 <= base + i * sizeof_lustre_component F + 8 * LUSTRE_COMP_STRIPE_COUNT /\
     base + i * sizeof_lustre_component F + 8 * LUSTRE_COMP_STRIPE_COUNT + 8
     <= Z.of_nat (length (mem rec))) ->
  oob (touch_counts F base n rec) = false.
Proof.
  intros Ho H. unfold touch_counts.
  apply (for_upto_bounded (fun x => oob x = false /\ mem x = mem rec)).
  - auto.
  - intros i x Hi (Hx & Hm). split; [|exact Hm].
    unfold touch. cbn [oob]. rewrite Hx, Hm.
    replace (within _ 8 (mem rec)) with true; [reflexivity|].
    symmetry. apply within_true. specialize (H i Hi). lia.
Qed.

Lemma mem_bswap_components (F : format) (rec : block) :
  mem (bswap_components F rec)
  = for_upto (load64 off_num_comps (mem rec))
      (fun i m => for_upto (LUSTRE_COMP_NUM_INDICES F)
                    (fun j m => bswap64_bytes (counter_off F i j) m) m)
      (mem rec).
Proof.
  unfold bswap_components. apply for_upto_commute.
  intros i x. apply mem_for_upto_bswap.
Qed.

Lemma length_mem_for_upto_bswap (n : Z) (off : Z -> Z) (b : block) :
  length (mem (for_upto n (fun i b => DARSHAN_BSWAP64 (off i) b) b))
  = length (mem b).
Proof.
  apply (for_upto_invariant (fun x => length (mem x) = length (mem b))); auto.
  intros i x Hx. now rewrite length_mem_bswap.
Qed.

Lemma oob_bswap_components (F : format) (rec : block) :
  format_ok F -> oob rec = false ->
  sizeof_lustre_record
  + load64 off_num_comps (mem rec) * sizeof_lustre_component F
  <= Z.of_nat (length (mem rec)) ->
  oob (bswap_components F rec) = false.
Proof.
  intros HF Ho Hl. unfold bswap_components.
  destruct (sizeof_lustre_component_bounds F HF) as (Hs & _).
  pose proof HF as (_ & _ & HN & HP).
  apply (for_upto_bounded
           (fun x => oob x = false /\ length (mem x) = length (mem rec))).
  - auto.
  - intros i x Hi (Hx & Hlx). split.
    + apply oob_for_upto_bswap; [assumption|].
      intros j Hj. rewrite Hlx. unfold counter_off.
      change sizeof_lustre_record with 40 in *. nia.
    + now rewrite length_mem_for_upto_bswap.
Qed.


(** ** The current-format reader on a whole record *)

Lemma lustre_record_ok_components (F : format) (r : lustre_record) :
  lustre_record_ok F r -> header_and_components_ok F r.
Proof. unfold lustre_record_ok, header_and_components_ok. tauto. Qed.

(** The reader up to its last read: the header and the components are in
    the buffer, which is large enough for the identifiers. *)
Lemma get_lustre_record_components (F : format) (fd : darshan_fd)
    (h : allocator) (buf_p : option block) (r : lustre_record) (tail : bytes) :
  format_ok F -> header_and_components_ok F r ->
  mod_len fd <> 0 -> version_ok F fd -> mod_ver fd <> 1 ->
  mod_data fd
  = header_bytes (swap_flag fd) (base_rec_id r) (base_rec_rank r) (num_comps r)
    ++ flat_map (component_bytes_of F (swap_flag fd)) (comps r) ++ tail ->
  heap_ready h buf_p (record_size F r) ->
  let ost_off := sizeof_lustre_record + num_comps r * sizeof_lustre_component F in
  let osts_size := stripe_total (comps r) * sizeof_OST_ID in
  exists (rec5 : block) (ev : list heap_event) (fd2 : darshan_fd),
    oob rec5 = false /\ 0 < addr rec5 /\
    addr rec5 + record_size F r < 2 ^ 64 /\
    record_size F r <= Z.of_nat (length (mem rec5)) /\
    holds (mem rec5) 0
      (header_bytes false (base_rec_id r) (base_rec_rank r) (num_comps r)) /\
    holds (mem rec5) sizeof_lustre_record
      (flat_map (component_bytes_of F false) (comps r)) /\
    mod_data fd2 = tail /\ mod_broken fd2 = mod_broken fd /\
    darshan_log_get_lustre_record F fd h buf_p
    = (let '(ret, data, fd3) := darshan_log_get_mod fd2 osts_size in
       let rec :=
         poke ost_off data
           (store64 off_ost_ids (addr rec5 + ost_off)
              (store64 off_comps (addr rec5 + sizeof_lustre_record) rec5)) in
       if ret <? osts_size then hand_back buf_p (-1) rec fd3 ev
       else hand_back buf_p 1
              (if swap_flag fd
               then bswap_ost_ids ost_off (stripe_total (comps r)) rec
               else rec)
              fd3 ev).
Proof.
  intros HF Hr Hlen (Hv0 & Hv) Hv1 Hdata Hheap. cbv zeta.
  pose proof Hr as (Hid & Hrank & Hn & Hn1 & Hcs & Hsize).
  destruct (sizeof_lustre_component_bounds F HF) as (Hs & Hpool).
  pose proof HF as (_ & _ & HN & HP).
  pose proof (stripe_total_nonneg F (comps r) Hcs) as Ht.
  unfold record_size in *.
  remember (sizeof_lustre_component F) as sz eqn:Esz.
  remember (num_comps r) as n eqn:En'.
  remember (stripe_total (comps r)) as T eqn:ET.
  change sizeof_lustre_record with 40 in *. change sizeof_OST_ID with 8 in *.
  assert (Hnsz : 1 <= n * sz) by nia.
  assert (Hnb : n < 2 ^ 31) by nia.
  unfold darshan_log_get_lustre_record.
  replace (mod_len fd =? 0) with false by (symmetry; apply Z.eqb_neq; assumption).
  replace (mod_ver fd =? 0) with false by (symmetry; apply Z.eqb_neq; assumption).
  replace (DARSHAN_LUSTRE_VER F <? mod_ver fd) with false
    by (symmetry; apply Z.ltb_ge; lia).
  replace (mod_ver fd =? 1) with false by (symmetry; apply Z.eqb_neq; assumption).
  cbn [orb].
  unfold darshan_log_get_lustre_record_cur.
  rewrite (get_mod_prefix fd fixed_size _ _ Hdata)
    by (rewrite length_header_bytes; reflexivity).
  change (fixed_size <? 0) with false. change (fixed_size <? fixed_size) with false.
  cbv iota.
  rewrite !normalize_header.
  assert (Hhdr : holds (header_bytes false (base_rec_id r) (base_rec_rank r) n) 0
                   (header_bytes false (base_rec_id r) (base_rec_rank r) n))
    by apply holds_self.
  destruct (header_fields _ _ _ _ Hhdr Hid Hrank) as (_ & _ & En).
  { unfold is_int64. lia. }
  rewrite <- ?En'. rewrite !En.
  replace (mem_read 0 fixed_size (header_bytes false (base_rec_id r) (base_rec_rank r) n))
    with (header_bytes false (base_rec_id r) (base_rec_rank r) n)
    by (symmetry; apply (holds_read _ _ _ _ Hhdr); now rewrite length_header_bytes).
  replace (n <? 1) with false by (symmetry; apply Z.ltb_ge; lia).
  rewrite <- ?Esz.
  rewrite (to_size_t_small n) by lia.
  rewrite (to_int_small (n * sz)) by lia.
  change sizeof_lustre_record with 40.
  rewrite (to_size_t_small (40 + n * sz)) by lia.
  rewrite (get_mod_prefix (after_read fd fixed_size _) (n * sz) _ _ eq_refl)
    by (rewrite (length_components F HF _ _ Hcs); lia).
  rewrite Z.ltb_irrefl.
  (* the buffer *)
  assert (Hbuf0 : exists rec0,
             match buf_p with
             | Some b => Some b
             | None => malloc h (40 + n * sz)
             end = Some rec0 /\
             oob rec0 = false /\ 40 + n * sz <= Z.of_nat (length (mem rec0)) /\
             (buf_p = None -> Z.of_nat (length (mem rec0)) = 40 + n * sz) /\
             (forall b, buf_p = Some b -> rec0 = b)).
  { destruct buf_p as [b|]; cbn [heap_ready] in Hheap.
    - exists b. destruct Hheap as ((_ & _ & Ho) & Hl & _).
      repeat split; try assumption; try lia; try discriminate.
      intros b' E. now injection E.
    - destruct Hheap as (Hm & _). unfold malloc.
      destruct (malloc_ret h) as [a|]; [|congruence].
      eexists. split; [reflexivity|]. cbn [oob mem]. rewrite length_fresh.
      repeat split; try lia. discriminate. }
  destruct Hbuf0 as (rec0 & -> & Ho0 & Hl0 & Hnone & Hsome).
  cbv beta iota.
  match goal with |- context [touch_counts F 40 _ ?x] => set (rec4 := x) end.
  set (hdr := header_bytes false (base_rec_id r) (base_rec_rank r) n) in *.
  assert (Hlh : length hdr = 24%nat) by apply length_header_bytes.
  assert (K4 : addr rec4 = addr rec0 /\
               length (mem rec4) = length (mem rec0) /\
               oob rec4 = false /\
               holds (mem rec4) 0 hdr /\
               holds (mem rec4) 40 (flat_map (component_bytes_of F false) (comps r))).
  { pose proof (length_components F HF (swap_flag fd) _ Hcs) as Hlc.
    rewrite <- Hn, <- Esz in Hlc.
    match goal with
    | rec4 := if _ then bswap_components F ?p else _ |- _ => set (P := p) in *
    end.
    assert (HlP : length (mem P) = length (mem rec0))
      by (unfold P, store64; now rewrite !length_mem_poke).
    assert (HoP : oob P = false).
    { unfold P, store64.
      repeat (apply oob_poke; [ | norm_offsets; lia
                              | norm_offsets; norm_lengths; lia]).
      exact Ho0. }
    assert (HhP : holds (mem P) 0 hdr).
    { unfold P, store64. norm_offsets.
      repeat first
        [ apply holds_poke; [lia | norm_lengths; lia]
        | apply holds_poke_other; [ | norm_lengths; lia ] ]. }
    assert (HcP : holds (mem P) 40
                    (flat_map (component_bytes_of F (swap_flag fd)) (comps r))).
    { unfold P. apply holds_poke; [lia|].
      unfold store64. rewrite !length_mem_poke. lia. }
    subst rec4. destruct (swap_flag fd).
    - assert (EnP : load64 off_num_comps (mem P) = n).
      { apply (header_fields _ _ _ _ HhP Hid Hrank). unfold is_int64. lia. }
      assert (Em : mem (bswap_components F P)
                   = mem_write 40 (flat_map (component_bytes_of F false) (comps r))
                       (mem P)).
      { rewrite mem_bswap_components, EnP, Hn.
        rewrite <- (bswap_components_from F HF (comps r) 40 (mem P) Hcs HcP).
        apply for_upto_ext. intros i x Hi. apply for_upto_ext. intros j y Hj.
        reflexivity. }
      pose proof (length_components F HF false _ Hcs) as Hlc'.
      rewrite <- Hn, <- Esz in Hlc'.
      split; [rewrite addr_bswap_components; reflexivity|].
      split; [rewrite Em, length_mem_write; exact HlP|].
      split; [apply oob_bswap_components; [assumption | assumption|];
              rewrite EnP, <- Esz, HlP;
              change sizeof_lustre_record with 40; lia|].
      rewrite Em. split.
      + apply holds_write_other; [assumption|]. rewrite Hlh. lia.
      + apply holds_write; [lia|]. rewrite HlP. lia.
    - repeat match goal with |- _ /\ _ => split end;
        first [reflexivity | assumption]. }
  destruct K4 as (A4 & L4 & O4 & H4h & H4c).
  clearbody rec4.
  assert (En4 : load64 off_num_comps (mem rec4) = n).
  { apply (header_fields _ _ _ _ H4h Hid Hrank). unfold is_int64. lia. }
  assert (Ec4 : count_osts F 40 n (mem rec4) = T).
  { unfold count_osts. rewrite Hn.
    rewrite (count_osts_from F HF (comps r) 40 (mem rec4) 0), <- ET
      by (assumption || lia).
    lia. }
  rewrite !En4, !Ec4.
  change sizeof_OST_ID with 8.
  rewrite (to_size_t_small T) by lia.
  rewrite (to_int_small (T * 8)) by lia.
  rewrite (to_size_t_small (40 + n * sz + T * 8)) by lia.
  set (rec4t := touch_counts F 40 n rec4).
  assert (K4t : addr rec4t = addr rec0 /\ mem rec4t = mem rec4 /\
                oob rec4t = false).
  { unfold rec4t. rewrite addr_touch_counts, mem_touch_counts.
    split; [assumption|]. split; [reflexivity|].
    apply oob_touch_counts; [assumption|].
    intros i Hi. rewrite L4, <- Esz. unfold LUSTRE_COMP_STRIPE_COUNT. nia. }
  destruct K4t as (A4t & M4t & O4t). clearbody rec4t.
  (* the buffer grown to take the identifiers *)
  assert (Hbuf5 : exists rec5,
             match buf_p with
             | Some _ => Some rec4t
             | None => realloc h rec4t (40 + n * sz + T * 8)
             end = Some rec5 /\
             oob rec5 = false /\ 0 < addr rec5 /\
             addr rec5 + (40 + n * sz + 8 * T) < 2 ^ 64 /\
             40 + n * sz + 8 * T <= Z.of_nat (length (mem rec5)) /\
             holds (mem rec5) 0 hdr /\
             holds (mem rec5) 40
               (flat_map (component_bytes_of F false) (comps r))).
  { destruct buf_p as [b|]; cbn [heap_ready] in Hheap.
    - exists rec4t. rewrite (Hsome b eq_refl) in *.
      destruct Hheap as ((Ha & _ & _) & Hl & Hfit).
      rewrite M4t, A4t, L4.
      repeat match goal with |- _ /\ _ => split end;
        first [reflexivity | assumption | lia].
    - destruct Hheap as (_ & a & Hre & Ha & Hfit). unfold realloc.
      rewrite Hre. eexists. split; [reflexivity|]. cbn [oob addr mem].
      specialize (Hnone eq_refl).
      rewrite firstn_all2 by (rewrite M4t, L4; lia).
      rewrite length_app, length_fresh, M4t, L4.
      repeat match goal with |- _ /\ _ => split end;
        first [ assumption | lia | now apply holds_app_right ]. }
  destruct Hbuf5 as (rec5 & -> & O5 & A5 & Afit5 & L5 & H5h & H5c).
  cbv beta iota.
  eexists rec5, _, _.
  repeat match goal with |- _ /\ _ => split end.
  9: reflexivity.
  all: first [assumption | lia | reflexivity].
Qed.

Lemma get_lustre_record_layout (F : format) (fd : darshan_fd) (h : allocator)
    (buf_p : option block) (r : lustre_record) (rest : bytes) :
  format_ok F -> lustre_record_ok F r ->
  mod_len fd <> 0 -> version_ok F fd -> mod_ver fd <> 1 ->
  mod_data fd = lustre_bytes F (swap_flag fd) r ++ rest ->
  heap_ready h buf_p (record_size F r) ->
  let o := darshan_log_get_lustre_record F fd h buf_p in
  o_ret o = 1 /\ mod_data (o_fd o) = rest /\
  exists rec,
    o_buf o = Some rec /\ oob rec = false /\ laid_out F rec r.
Proof.
  intros HF Hr Hlen Hv Hv1 Hdata Hheap o. subst o.
  pose proof Hr as (Hid & Hrank & Hn & Hn1 & Hcs & Hids & Hidr & Hsize).
  destruct (sizeof_lustre_component_bounds F HF) as (Hs & Hpool).
  pose proof HF as (_ & _ & HN & HP).
  pose proof (stripe_total_nonneg F (comps r) Hcs) as Ht.
  unfold lustre_bytes in Hdata. rewrite <- !app_assoc in Hdata.
  destruct (get_lustre_record_components F fd h buf_p r _ HF
              (lustre_record_ok_components F r Hr) Hlen Hv Hv1 Hdata Hheap)
    as (rec5 & ev & fd2 & O5 & A5 & Afit5 & L5 & H5h & H5c & Hd2 & _ & ->).
  unfold record_size in *.
  remember (sizeof_lustre_component F) as sz eqn:Esz.
  remember (num_comps r) as n eqn:En'.
  remember (stripe_total (comps r)) as T eqn:ET.
  change sizeof_lustre_record with 40 in *. change sizeof_OST_ID with 8 in *.
  assert (Hnsz : 1 <= n * sz) by nia.
  set (hdr := header_bytes false (base_rec_id r) (base_rec_rank r) n) in *.
  assert (Hlh : length hdr = 24%nat) by apply length_header_bytes.
  rewrite (get_mod_prefix fd2 (T * 8) _ _ Hd2)
    by (rewrite length_words; lia).
  rewrite Z.ltb_irrefl.
  rewrite hand_back_ret, hand_back_fd, hand_back_buf_1.
  split; [reflexivity|]. split; [reflexivity|].
  eexists. split; [reflexivity|].
  change (addr (store64 off_comps (addr rec5 + 40) rec5)) with (addr rec5).
  match goal with
  | |- oob (if _ then bswap_ost_ids _ _ ?p else _) = _ /\ _ => set (P := p)
  end.
  assert (HaP : addr P = addr rec5) by reflexivity.
  assert (HlP : length (mem P) = length (mem rec5))
    by (unfold P, store64; now rewrite !length_mem_poke).
  assert (HoP : oob P = false).
  { unfold P, store64.
    repeat (apply oob_poke; [ | norm_offsets; lia
                            | norm_offsets; norm_lengths;
                              rewrite ?length_words; lia]).
    exact O5. }
  assert (KP : holds (mem P) 0 hdr /\
               holds (mem P) off_comps (le_encode 8 (addr rec5 + 40)) /\
               holds (mem P) off_ost_ids (le_encode 8 (addr rec5 + (40 + n * sz))) /\
               holds (mem P) 40 (flat_map (component_bytes_of F false) (comps r)) /\
               holds (mem P) (40 + n * sz) (words (swap_flag fd) (ost_ids r))).
  { pose proof (length_components F HF false _ Hcs) as Hlc.
    rewrite <- Hn, <- Esz in Hlc.
    unfold P, store64. norm_offsets.
    repeat match goal with |- _ /\ _ => split end;
      repeat first
        [ apply holds_poke; [lia | norm_lengths; rewrite ?length_words; lia]
        | apply holds_poke_other;
          [ | norm_lengths; rewrite ?length_words, ?Hlh; lia ] ];
      assumption. }
  destruct KP as (HhP & HcpP & HopP & HcP & HiP).
  assert (Final : forall R : block,
             addr R = addr rec5 -> oob R = false ->
             holds (mem R) 0 hdr ->
             holds (mem R) off_comps (le_encode 8 (addr rec5 + 40)) ->
             holds (mem R) off_ost_ids (le_encode 8 (addr rec5 + (40 + n * sz))) ->
             holds (mem R) 40 (flat_map (component_bytes_of F false) (comps r)) ->
             holds (mem R) (40 + n * sz) (words false (ost_ids r)) ->
             oob R = false /\ laid_out F R r).
  { intros R HaR HoR H1 H2 H3 H4 H5. split; [assumption|].
    subst n sz T hdr. unfold laid_out, record_size.
    change (word false) with (le_encode 8).
    change sizeof_lustre_record with 40. change sizeof_OST_ID with 8.
    rewrite HaR. rewrite Z.add_assoc in H3.
    repeat match goal with |- _ /\ _ => split end; first [assumption | lia]. }
  clearbody P.
  destruct (swap_flag fd).
  - assert (Em : mem (bswap_ost_ids (40 + n * sz) T P)
                 = mem_write (40 + n * sz) (words false (ost_ids r)) (mem P)).
    { unfold bswap_ost_ids. rewrite mem_for_upto_bswap, <- Hids.
      now apply bswap_words. }
    apply Final; rewrite ?Em.
    + now rewrite addr_bswap_ost_ids.
    + unfold bswap_ost_ids. apply oob_for_upto_bswap; [assumption|].
      intros i Hi. rewrite HlP. lia.
    + apply holds_write_other; [assumption|]. rewrite Hlh. lia.
    + apply holds_write_other; [assumption|]. rewrite length_le_encode.
      norm_offsets. lia.
    + apply holds_write_other; [assumption|]. rewrite length_le_encode.
      norm_offsets. lia.
    + apply holds_write_other; [assumption|].
      rewrite (length_components F HF false _ Hcs), <- Hn, <- Esz. lia.
    + apply holds_write; [lia|]. rewrite length_words, HlP. lia.
  - apply Final; first [reflexivity | assumption].
Qed.

(** X9. Decoding, Lustre, current format.  When the module region starts
    with the bytes of a record [r] of the format with at least one
    component (fixed-size part, components, identifiers, in the byte order
    the log announces) and a buffer can be had,
    [darshan_log_get_lustre_record] returns 1, consumes exactly these
    bytes and hands back a buffer whose view through [comps] and
    [ost_ids] is [r], with no access outside the buffer. *)
Theorem get_lustre_record_decodes (F : format) (fd : darshan_fd) (h : allocator)
    (buf_p : option block) (r : lustre_record) (rest : bytes) :
  format_ok F -> lustre_record_ok F r ->
  mod_len fd <> 0 -> version_ok F fd -> mod_ver fd <> 1 ->
  mod_data fd = lustre_bytes F (swap_flag fd) r ++ rest ->
  heap_ready h buf_p (record_size F r) ->
  let o := darshan_log_get_lustre_record F fd h buf_p in
  o_ret o = 1 /\ mod_data (o_fd o) = rest /\
  exists rec,
    o_buf o = Some rec /\ oob rec = false /\ record_of F rec = r.
Proof.
  intros HF Hr Hlen Hv Hv1 Hdata Hheap.
  destruct (get_lustre_record_layout F fd h buf_p r rest HF Hr Hlen Hv Hv1
              Hdata Hheap) as (H1 & H2 & rec & H3 & H4 & H5).
  split; [exact H1|]. split; [exact H2|].
  exists rec. split; [exact H3|]. split; [exact H4|].
  now apply record_of_layout.
Qed.

Lemma length_memory_image (F : format) (rec : block) (r : lustre_record) :
  format_ok F -> lustre_record_ok F r ->
  Z.of_nat (length (memory_image F rec r)) = record_size F r.
Proof.
  intros HF (_ & _ & Hn & _ & Hcs & Hids & _).
  unfold memory_image, record_size.
  rewrite !length_app, length_header_bytes, !length_word, length_words.
  pose proof (length_components F HF false _ Hcs) as Hl.
  change sizeof_lustre_record with 40. change sizeof_OST_ID with 8.
  lia.
Qed.

Lemma laid_out_image (F : format) (rec : block) (r : lustre_record) :
  format_ok F -> lustre_record_ok F r -> laid_out F rec r ->
  holds (mem rec) 0 (memory_image F rec r).
Proof.
  intros HF Hr (Ha & Hfit & Hh & Hcp & Hop & Hc & Hi).
  pose proof Hr as (_ & _ & Hn & _ & Hcs & _).
  unfold memory_image.
  apply holds_adjacent; [assumption|].
  rewrite length_header_bytes.
  apply holds_adjacent; [assumption|]. rewrite length_word.
  apply holds_adjacent; [assumption|]. rewrite length_word.
  apply holds_adjacent; [assumption|].
  replace (0 + Z.of_nat 24 + Z.of_nat 8 + Z.of_nat 8
           + Z.of_nat (length (flat_map (component_bytes_of F false) (comps r))))
    with (sizeof_lustre_record + num_comps r * sizeof_lustre_component F).
  - assumption.
  - rewrite (length_components F HF false _ Hcs), Hn.
    change sizeof_lustre_record with 40. lia.
Qed.

(** What the writer appends for a laid out record, whatever the header
    term of [LUSTRE_RECORD_SIZE] between the two readings of the spec's
    words: the first bytes of the memory image. *)
Lemma put_lustre_record_with_laid_out (F : format) (header : Z)
    (fd : darshan_fd) (rec : block) (r : lustre_record) :
  format_ok F -> lustre_record_ok F r -> laid_out F rec r ->
  fixed_size <= header <= sizeof_lustre_record ->
  darshan_log_put_lustre_record_with F header fd rec
  = if write_broken fd then (-1, fd)
    else (0, after_write fd (DARSHAN_LUSTRE_VER F)
               (firstn (Z.to_nat (written_size F header r))
                  (memory_image F rec r))).
Proof.
  intros HF Hr Hl Hhd.
  pose proof (laid_out_image F rec r HF Hr Hl) as Himg.
  pose proof (length_memory_image F rec r HF Hr) as Hlen.
  pose proof Hr as (Hid & Hrank & Hn & Hn1 & Hcs & Hids & Hidr & Hsize).
  pose proof Hl as (Ha & Hfit & Hh & Hcp & Hop & Hc & Hi).
  pose proof (stripe_total_nonneg F (comps r) Hcs) as Ht.
  destruct (sizeof_lustre_component_bounds F HF) as (Hs & _).
  unfold record_size in *.
  change sizeof_lustre_record with 40 in *. change sizeof_OST_ID with 8 in *.
  assert (Hnsz : 1 <= num_comps r * sizeof_lustre_component F)
    by (pose proof HF as (_ & _ & HN & HP); nia).
  assert (En : load64 off_num_comps (mem rec) = num_comps r).
  { apply (header_fields _ _ _ _ Hh Hid Hrank). unfold is_int64.
    pose proof HF as (_ & _ & HN & HP). nia. }
  assert (Ec : comps_base rec = 40).
  { unfold comps_base. change (word false) with (le_encode 8) in Hcp.
    rewrite (holds_load_ptr _ _ _ Hcp) by lia. lia. }
  change fixed_size with 24 in Hhd.
  unfold darshan_log_put_lustre_record_with, LUSTRE_RECORD_SIZE_with, written_size.
  rewrite En, Ec. unfold count_osts. rewrite Hn.
  rewrite (count_osts_from F HF (comps r) 40 (mem rec) 0) by (assumption || lia).
  rewrite <- Hn. change sizeof_OST_ID with 8.
  rewrite Z.add_0_l.
  replace (header + sizeof_lustre_component F * num_comps r
           + 8 * stripe_total (comps r))
    with (header + num_comps r * sizeof_lustre_component F
          + 8 * stripe_total (comps r)) by lia.
  rewrite to_size_t_small by lia. rewrite to_int_small by lia.
  rewrite (mem_read_prefix _ _ _ _ Himg) by lia.
  unfold darshan_log_put_mod. destruct (write_broken fd); reflexivity.
Qed.

Lemma put_lustre_record_laid_out (F : format) (fd : darshan_fd) (rec : block)
    (r : lustre_record) :
  format_ok F -> lustre_record_ok F r -> laid_out F rec r ->
  darshan_log_put_lustre_record F fd rec
  = if write_broken fd then (-1, fd)
    else (0, after_write fd (DARSHAN_LUSTRE_VER F) (memory_image F rec r)).
Proof.
  intros HF Hr Hl. unfold darshan_log_put_lustre_record.
  rewrite (put_lustre_record_with_laid_out F _ fd rec r HF Hr Hl)
    by (unfold sizeof_lustre_record, fixed_size, sizeof_base_record; lia).
  rewrite firstn_all2; [reflexivity|].
  pose proof (length_memory_image F rec r HF Hr) as Hlen.
  unfold written_size, record_size in *. lia.
Qed.

(** X10. What [darshan_log_put_lustre_record] writes for a record that
    [darshan_log_get_lustre_record] decoded, whatever the header term of
    the macro [LUSTRE_RECORD_SIZE] between the fixed-size part (24 bytes)
    and the structure (40 bytes): one block tagged [DARSHAN_LUSTRE_VER]
    that holds the first [header + comps_size + osts_size] bytes of the
    record as it lies in memory, that is the fixed-size part, then the
    two pointer members [comps] and [ost_ids], then the components and
    the identifiers.  With the header term 40 it is the whole image, 16
    bytes longer than the form the reader takes; with 24 it has the
    length of that form and stops 16 bytes before the end of the
    identifiers.  A writer that rejects the append gives -1. *)
Theorem get_then_put_writes_memory_image (F : format) (fd : darshan_fd)
    (h : allocator) (buf_p : option block) (r : lustre_record) (rest : bytes) :
  format_ok F -> lustre_record_ok F r ->
  mod_len fd <> 0 -> version_ok F fd -> mod_ver fd <> 1 ->
  mod_data fd = lustre_bytes F (swap_flag fd) r ++ rest ->
  heap_ready h buf_p (record_size F r) ->
  exists rec,
    o_buf (darshan_log_get_lustre_record F fd h buf_p) = Some rec /\
    (forall (header : Z) (out : darshan_fd),
        fixed_size <= header <= sizeof_lustre_record ->
        darshan_log_put_lustre_record_with F header out rec
        = if write_broken out then (-1, out)
          else (0, after_write out (DARSHAN_LUSTRE_VER F)
                     (firstn (Z.to_nat (written_size F header r))
                        (memory_image F rec r)))) /\
    (forall out : darshan_fd,
        darshan_log_put_lustre_record F out rec
        = if write_broken out then (-1, out)
          else (0, after_write out (DARSHAN_LUSTRE_VER F)
                     (memory_image F rec r))) /\
    firstn (Z.to_nat sizeof_lustre_record) (memory_image F rec r)
    = header_bytes false (base_rec_id r) (base_rec_rank r) (num_comps r)
      ++ word false (addr rec + sizeof_lustre_record)
      ++ word false (addr rec + sizeof_lustre_record
                     + num_comps r * sizeof_lustre_component F) /\
    Z.of_nat (length (memory_image F rec r))
    = Z.of_nat (length (lustre_bytes F false r)) + 16 /\
    written_size F fixed_size r = Z.of_nat (length (lustre_bytes F false r)).
Proof.
  intros HF Hr Hlen Hv Hv1 Hdata Hheap.
  destruct (get_lustre_record_layout F fd h buf_p r rest HF Hr Hlen Hv Hv1
              Hdata Hheap) as (_ & _ & rec & H3 & _ & H5).
  exists rec. split; [exact H3|]. split; [|split; [|split; [|split]]].
  - intros header out Hh. now apply put_lustre_record_with_laid_out.
  - intros out. now apply put_lustre_record_laid_out.
  - unfold memory_image.
    set (w1 := word false (addr rec + sizeof_lustre_record)).
    set (w2 := word false (addr rec + sizeof_lustre_record
                           + num_comps r * sizeof_lustre_component F)).
    set (hd := header_bytes false (base_rec_id r) (base_rec_rank r) (num_comps r)).
    replace (hd ++ w1 ++ w2 ++ flat_map (component_bytes_of F false) (comps r)
             ++ words false (ost_ids r))
      with ((hd ++ w1 ++ w2)
            ++ flat_map (component_bytes_of F false) (comps r)
            ++ words false (ost_ids r))
      by (now rewrite <- !app_assoc).
    replace (Z.to_nat sizeof_lustre_record)
      with (length (hd ++ w1 ++ w2) + 0)%nat
      by (unfold hd, w1, w2;
          rewrite !length_app, length_header_bytes, !length_word; reflexivity).
    rewrite firstn_app_2. cbn [firstn]. apply app_nil_r.
  - unfold memory_image, lustre_bytes.
    rewrite !length_app, !length_word. lia.
  - pose proof Hr as (_ & _ & Hn & _ & Hcs & Hids & _).
    unfold written_size, lustre_bytes.
    rewrite !length_app, length_header_bytes, length_words.
    pose proof (length_components F HF false _ Hcs) as Hl.
    change fixed_size with 24. change sizeof_OST_ID with 8. lia.
Qed.


(** ** The null buffer pointer *)

Lemma hand_back_null (ret : Z) (rec : block) (fd : darshan_fd)
    (ev : list heap_event) :
  (o_buf (hand_back None ret rec fd ev) <> None <-> ret = 1) /\
  o_ret (hand_back None ret rec fd ev) = ret /\
  o_heap (hand_back None ret rec fd ev)
  = if ret =? 1 then ev else ev ++ [Free (addr rec)].
Proof.
  unfold hand_back. destruct (Z.eqb_spec ret 1) as [->|Hne]; cbn.
  - split; [split; [reflexivity | discriminate]|]. split; reflexivity.
  - split; [split; [congruence | contradiction]|]. split; reflexivity.
Qed.

Lemma get_mod_ret_range (fd : darshan_fd) (sz : Z) :
  0 <= sz ->
  fst (fst (darshan_log_get_mod fd sz)) = -1 \/
  0 <= fst (fst (darshan_log_get_mod fd sz)) <= sz.
Proof.
  intros Hsz.
  destruct (get_mod_cases fd sz Hsz) as [(H & ->)|[(H & _ & ->)|(H & _ & ->)]];
    unfold remaining in *; lia.
Qed.

Lemma get_lustre_record_v1_null (F : format) (fd : darshan_fd) (h : allocator) :
  let o := darshan_log_get_lustre_record_v1 F fd h None in
  o_buf o <> None <-> o_ret o = 1.
Proof.
  unfold darshan_log_get_lustre_record_v1.
  destruct (darshan_log_get_mod fd (7 * 8)) as [[ret data] fd1].
  destruct (ret <? 0); [cbn; split; [congruence | discriminate]|].
  destruct (ret <? 7 * 8); [cbn; split; [congruence | discriminate]|].
  cbv zeta. unfold malloc.
  destruct (malloc_ret h) as [a|]; [|cbn; split; [congruence | discriminate]].
  destruct (darshan_log_get_mod fd1 _) as [[ret1 data1] fd2].
  destruct (to_size_t ret1 <? _);
    match goal with
    | |- o_buf (hand_back None ?r ?rec ?fd ?ev) <> None <-> _ =>
        destruct (hand_back_null r rec fd ev) as (H1 & H2 & _);
        rewrite H2; exact H1
    end.
Qed.

Lemma get_lustre_record_cur_null (F : format) (fd : darshan_fd) (h : allocator) :
  let o := darshan_log_get_lustre_record_cur F fd h None in
  o_buf o <> None <-> o_ret o = 1.
Proof.
  unfold darshan_log_get_lustre_record_cur.
  destruct (darshan_log_get_mod fd fixed_size) as [[ret data] fd1].
  destruct (ret <? 0); [cbn; split; [congruence | discriminate]|].
  destruct (ret <? fixed_size); [cbn; split; [congruence | discriminate]|].
  cbv zeta. unfold malloc.
  destruct (malloc_ret h) as [a|]; [|cbn; split; [congruence | discriminate]].
  destruct (_ <? 1).
  { match goal with
    | |- o_buf (hand_back None ?r ?rec ?fd ?ev) <> None <-> _ =>
        destruct (hand_back_null r rec fd ev) as (H1 & H2 & _);
        rewrite H2; exact H1
    end. }
  destruct (darshan_log_get_mod fd1 _) as [[ret1 data1] fd2].
  unfold realloc.
  destruct (realloc_ret h) as [a'|]; [|cbn; split; [congruence | discriminate]].
  destruct (darshan_log_get_mod fd2 _) as [[ret2 data2] fd3].
  destruct (ret2 <? _);
    match goal with
    | |- o_buf (hand_back None ?r ?rec ?fd ?ev) <> None <-> _ =>
        destruct (hand_back_null r rec fd ev) as (H1 & H2 & _);
        rewrite H2; exact H1
    end.
Qed.

Lemma get_stdio_record_null (F : format) (fd : darshan_fd) (h : allocator) :
  format_ok F ->
  let o := darshan_log_get_stdio_record F fd h None in
  o_buf o <> None <-> o_ret o = 1.
Proof.
  intros HF. pose proof (sizeof_stdio_file_bounds F HF) as Hsz.
  unfold darshan_log_get_stdio_record.
  destruct (mod_len fd =? 0); [cbn; split; [congruence | discriminate]|].
  unfold malloc.
  destruct (malloc_ret h) as [a|]; [|cbn; split; [congruence | discriminate]].
  pose proof (get_mod_ret_range fd (sizeof_stdio_file F) ltac:(lia)) as Hr.
  destruct (darshan_log_get_mod fd (sizeof_stdio_file F)) as [[ret data] fd1].
  cbn [fst] in Hr.
  destruct Hr as [->|Hr].
  - change (-1 <? 0) with true. cbv iota.
    change (to_size_t (-1)) with (2 ^ 64 - 1).
    replace (2 ^ 64 - 1 =? sizeof_stdio_file F) with false
      by (symmetry; apply Z.eqb_neq; lia).
    cbn. split; [congruence | discriminate].
  - replace (ret <? 0) with false by (symmetry; apply Z.ltb_ge; lia).
    rewrite to_size_t_small by lia.
    destruct (Z.ltb_spec ret (sizeof_stdio_file F)).
    + replace (ret =? sizeof_stdio_file F) with false
        by (symmetry; apply Z.eqb_neq; lia).
      cbn. split; [congruence | discriminate].
    + replace (ret =? sizeof_stdio_file F) with true
        by (symmetry; apply Z.eqb_eq; lia).
      cbn. split; [reflexivity | discriminate].
Qed.

(** X17. Called with a null buffer pointer, either reader hands a record
    to the caller exactly when it returns 1: on every other code
    [*buf_p] is still null. *)
Theorem null_pointer_set_exactly_on_success (F : format) (fd : darshan_fd)
    (h : allocator) :
  format_ok F ->
  let s := darshan_log_get_stdio_record F fd h None in
  let l := darshan_log_get_lustre_record F fd h None in
  (o_buf s <> None <-> o_ret s = 1) /\ (o_buf l <> None <-> o_ret l = 1).
Proof.
  intros HF. split; [now apply get_stdio_record_null|].
  unfold darshan_log_get_lustre_record.
  destruct (mod_len fd =? 0); [cbn; split; [congruence | discriminate]|].
  destruct (_ || _); [cbn; split; [congruence | discriminate]|].
  destruct (mod_ver fd =? 1).
  - apply get_lustre_record_v1_null.
  - apply get_lustre_record_cur_null.
Qed.


(** ** What stays allocated *)

Lemma release_self p : release p [p] = [].
Proof. unfold release. cbn. now rewrite Z.eqb_refl. Qed.

(** X8. Called with a null buffer pointer, the STDIO reader leaves
    allocated exactly what it hands to the caller: the record on success,
    nothing otherwise. *)
Theorem stdio_reader_does_not_leak (F : format) (fd : darshan_fd)
    (h : allocator) :
  let o := darshan_log_get_stdio_record F fd h None in
  still_held h (o_heap o) = owned o.
Proof.
  unfold darshan_log_get_stdio_record, still_held, owned.
  destruct (mod_len fd =? 0); [reflexivity|].
  unfold malloc.
  destruct (malloc_ret h) as [a|] eqn:Hm; [|cbn; now rewrite Hm].
  destruct (darshan_log_get_mod fd (sizeof_stdio_file F)) as [[ret data] fd1].
  destruct (ret <? 0); [|destruct (to_size_t ret <? _)];
    destruct (to_size_t ret =? _); cbn; rewrite Hm; cbn;
    rewrite ?Z.eqb_refl; cbn; try reflexivity;
    destruct (swap_flag fd); rewrite ?addr_stdio_bswap; reflexivity.
Qed.




(** ** The legacy reader on a whole block *)

Lemma legacy_header (sw : bool) (vs : list Z) :
  length vs = 7%nat ->
  (if sw then for_upto 7 (fun i m => bswap64_bytes (8 * i) m) (words sw vs)
   else words sw vs)
  = words false vs.
Proof.
  intros Hl. destruct sw; [|reflexivity].
  pose proof (bswap_words vs 0 _ (holds_self (words true vs))) as E.
  rewrite Hl in E. change (Z.of_nat 7) with 7 in E.
  rewrite mem_write_all in E by (now rewrite !length_words).
  exact E.
Qed.

(** X13. The legacy reader on a record whose identifier list is cut
    short.  When the region ends early the read returns a short count and
    the code is -1.  When the read fails, the -1 it returns is compared
    with [stripe_count * sizeof(OST_ID)], an [unsigned long]: converted,
    it is not smaller, and the reader returns 1 with the identifiers not
    read. *)
Theorem legacy_identifier_list_cut_short (F : format) (fd : darshan_fd)
    (h : allocator) (buf_p : option block) (vs : list Z) (tail : bytes) :
  format_ok F -> mod_len fd <> 0 -> mod_ver fd = 1 -> 1 <= DARSHAN_LUSTRE_VER F ->
  length vs = 7%nat ->
  let stripe_count := nth 6 vs 0 in
  0 < stripe_count -> sizeof_OST_ID * stripe_count < 2 ^ 31 ->
  Z.of_nat (length tail) < sizeof_OST_ID * stripe_count ->
  mod_data fd = words (swap_flag fd) vs ++ tail ->
  buffer_ready h buf_p
    (sizeof_lustre_record + sizeof_lustre_component F
     + sizeof_OST_ID * stripe_count) ->
  o_ret (darshan_log_get_lustre_record F fd h buf_p)
  = if mod_broken fd then 1 else -1.
Proof.
  intros HF Hlen Hver HV Hvs c Hc Hcb Htail Hdata Hbuf.
  destruct (sizeof_lustre_component_bounds F HF) as (HS & Hpool).
  pose proof HF as (_ & _ & HN & HP).
  change sizeof_OST_ID with 8 in *. change sizeof_lustre_record with 40 in *.
  unfold darshan_log_get_lustre_record.
  replace (mod_len fd =? 0) with false by (symmetry; apply Z.eqb_neq; assumption).
  rewrite Hver.
  replace (DARSHAN_LUSTRE_VER F <? 1) with false by (symmetry; apply Z.ltb_ge; lia).
  cbn [Z.eqb orb Pos.eqb].
  unfold darshan_log_get_lustre_record_v1.
  rewrite (get_mod_prefix fd (7 * 8) _ _ Hdata)
    by (rewrite length_words, Hvs; reflexivity).
  change (7 * 8 <? 0) with false. change (7 * 8 <? 7 * 8) with false.
  cbv iota.
  rewrite !(legacy_header _ _ Hvs).
  assert (Ec : load64 (8 * 6) (words false vs) = c).
  { apply (holds_words_nth (words false vs) 0 vs 6 (holds_self _)).
    - rewrite Hvs. lia.
    - fold c. unfold is_int64. lia. }
  rewrite !Ec.
  change sizeof_OST_ID with 8. change sizeof_lustre_record with 40.
  rewrite (to_size_t_small (c * 8)) by lia.
  rewrite (to_int_small (c * 8)) by lia.
  destruct (buffer_ready_block h buf_p (40 + sizeof_lustre_component F + c * 8)
              ltac:(lia))
    as (rec0 & Hrec0 & _).
  { replace (c * 8) with (8 * c) by lia. exact Hbuf. }
  rewrite Hrec0.
  unfold darshan_log_get_mod at 1. cbn [mod_data after_read mod_broken].
  replace (Z.to_nat (c * 8) <=? length tail)%nat with false
    by (symmetry; apply Nat.leb_gt; lia).
  destruct (mod_broken fd); rewrite ?hand_back_ret.
  - change (to_size_t (-1)) with (2 ^ 64 - 1).
    replace (2 ^ 64 - 1 <? c * 8) with false by (symmetry; apply Z.ltb_ge; lia).
    now rewrite hand_back_ret.
  - rewrite to_size_t_small by lia.
    replace (Z.of_nat (length tail) <? c * 8) with true
      by (symmetry; apply Z.ltb_lt; lia).
    now rewrite hand_back_ret.
Qed.


Lemma holds_nil (m : bytes) (off : Z) :
  0 <= off <= Z.of_nat (length m) -> holds m off [].
Proof. intros H. split; [lia|]. split; [cbn; lia | reflexivity]. Qed.

Lemma record_of_upgraded (F : format) (rec : block)
    (id rank stripe_size stripe_count : Z) (ids : list Z) :
  format_ok F ->
  is_uint64 id -> is_int64 rank -> is_int64 stripe_size ->
  0 <= stripe_count < 2 ^ 28 ->
  Z.of_nat (length ids) = stripe_count -> Forall is_int64 ids ->
  0 < addr rec ->
  addr rec + sizeof_lustre_record + sizeof_lustre_component F < 2 ^ 64 ->
  holds (mem rec) 0 (header_bytes false id rank 1) ->
  holds (mem rec) off_comps (word false (addr rec + sizeof_lustre_record)) ->
  holds (mem rec) off_ost_ids
    (word false (addr rec + sizeof_lustre_record + sizeof_lustre_component F)) ->
  holds (mem rec) sizeof_lustre_record
    (words false [stripe_size; stripe_count; -1; -1; 0; -1; -1]) ->
  holds (mem rec) (sizeof_lustre_record + off_pool_name F) [x00] ->
  holds (mem rec) (sizeof_lustre_record + sizeof_lustre_component F)
    (words false ids) ->
  upgraded (record_of F rec) id rank stripe_size stripe_count ids.
Proof.
  intros HF Hid Hrank Hss Hsc Hli Hir Ha Hfit Hh Hcp Hop Hc Hpn Hi.
  destruct (sizeof_lustre_component_bounds F HF) as (HS & Hpool).
  pose proof HF as (_ & _ & HN & HP).
  change (word false) with (le_encode 8) in Hcp, Hop.
  change sizeof_lustre_record with 40 in *.
  change off_comps with 24 in *. change off_ost_ids with 32 in *.
  destruct (header_fields _ _ _ _ Hh Hid Hrank) as (E0 & E1 & E2).
  { unfold is_int64. lia. }
  assert (Ec : comps_base rec = 40).
  { unfold comps_base. change off_comps with 24.
    rewrite (holds_load_ptr _ _ _ Hcp) by lia. lia. }
  assert (Eo : osts_base rec = 40 + sizeof_lustre_component F).
  { unfold osts_base. change off_ost_ids with 32.
    rewrite (holds_load_ptr _ _ _ Hop) by lia. lia. }
  assert (E7 : map (fun j => load64 (40 + 8 * j) (mem rec)) (upto 7)
               = [stripe_size; stripe_count; -1; -1; 0; -1; -1]).
  { apply (load64_words (mem rec) 40
             [stripe_size; stripe_count; -1; -1; 0; -1; -1] Hc).
    unfold is_int64 in *. repeat (apply Forall_cons; [lia|]). apply Forall_nil. }
  assert (Ek : count_osts F (comps_base rec) 1 (mem rec) = stripe_count).
  { unfold count_osts. rewrite for_upto_1, Ec.
    unfold LUSTRE_COMP_STRIPE_COUNT.
    replace (40 + 0 * sizeof_lustre_component F + 8 * 1)
      with (40 + 8 * Z.of_nat 1) by lia.
    rewrite (holds_words_nth _ _ _ 1 Hc) by (cbn; unfold is_int64; lia).
    cbn [nth]. apply to_int_small. lia. }
  unfold upgraded, record_of. cbn [base_rec_id base_rec_rank num_comps comps ost_ids].
  rewrite E0, E1, E2, Ek, Eo.
  split; [reflexivity|]. split; [reflexivity|]. split; [reflexivity|].
  split.
  { rewrite <- Hli. apply load64_words; assumption. }
  exists (component_at F rec 0). split; [reflexivity|].
  unfold component_at. cbn [counters pool_name]. rewrite Ec. split.
  - change 7%nat with (Z.to_nat 7).
    rewrite firstn_map, firstn_upto by lia.
    rewrite <- E7. apply map_ext. intros j. f_equal; lia.
  - replace (40 + 0 * sizeof_lustre_component F + off_pool_name F)
      with (40 + off_pool_name F) by lia.
    destruct (holds_head _ _ _ (LUSTRE_POOL_NAME_SIZE F) Hpn ltac:(lia))
      as (tl & ->).
    reflexivity.
Qed.

Lemma legacy_fields (id rank x2 x3 x4 stripe_size stripe_count : Z) :
  is_int64 stripe_size -> is_int64 stripe_count ->
  let fixed_record :=
    words false [id; rank; x2; x3; x4; stripe_size; stripe_count] in
  load64 (8 * 5) fixed_record = stripe_size /\
  load64 (8 * 6) fixed_record = stripe_count /\
  mem_read 0 sizeof_base_record fixed_record = word false id ++ word false rank.
Proof.
  intros Hss Hsc fixed_record.
  pose proof (holds_self fixed_record) as H.
  split; [|split].
  - apply (holds_words_nth fixed_record 0 _ 5 H); [cbn; lia | exact Hss].
  - apply (holds_words_nth fixed_record 0 _ 6 H); [cbn; lia | exact Hsc].
  - change sizeof_base_record with 16.
    rewrite (mem_read_prefix _ _ _ 16 H)
      by (unfold fixed_record; rewrite length_words; cbn; lia).
    unfold fixed_record, words. cbn [flat_map].
    change (Z.to_nat 16) with (length (word false id) + 8)%nat.
    rewrite firstn_app_2.
    change 8%nat with (length (word false rank) + 0)%nat.
    rewrite firstn_app_2. cbn [firstn]. now rewrite app_nil_r.
Qed.

(** X12. Decoding, Lustre, legacy format, identifiers included.  A legacy
    block of seven words followed by [stripe_count] identifiers, in the
    byte order the log announces, is read as a record with the id and
    rank of the block, one component (stripe size and stripe count of the
    block, stripe pattern, flags and mirror id -1, extent from 0 to -1,
    empty pool name) and the identifiers of the block; the reader returns
    1 and consumes exactly the block. *)
Theorem legacy_record_decodes (F : format) (fd : darshan_fd) (h : allocator)
    (buf_p : option block) (id rank x2 x3 x4 stripe_size stripe_count : Z)
    (ids : list Z) (rest : bytes) :
  format_ok F ->
  mod_len fd <> 0 -> mod_ver fd = 1 -> 1 <= DARSHAN_LUSTRE_VER F ->
  is_uint64 id -> is_int64 rank -> is_int64 stripe_size ->
  1 <= stripe_count ->
  sizeof_lustre_record + sizeof_lustre_component F
  + sizeof_OST_ID * stripe_count < 2 ^ 31 ->
  Z.of_nat (length ids) = stripe_count -> Forall is_int64 ids ->
  mod_data fd
  = words (swap_flag fd) [id; rank; x2; x3; x4; stripe_size; stripe_count]
    ++ words (swap_flag fd) ids ++ rest ->
  buffer_ready h buf_p
    (sizeof_lustre_record + sizeof_lustre_component F
     + sizeof_OST_ID * stripe_count) ->
  let o := darshan_log_get_lustre_record F fd h buf_p in
  o_ret o = 1 /\ mod_data (o_fd o) = rest /\
  exists rec,
    o_buf o = Some rec /\ oob rec = false /\
    upgraded (record_of F rec) id rank stripe_size stripe_count ids.
Proof.
  intros HF Hlen Hver HV Hid Hrank Hss Hsc Hsize Hli Hir Hdata Hbuf o. subst o.
  destruct (sizeof_lustre_component_bounds F HF) as (HS & Hpool).
  pose proof HF as (_ & _ & HN & HP).
  remember (sizeof_lustre_component F) as sz eqn:Esz.
  change sizeof_OST_ID with 8 in *. change sizeof_lustre_record with 40 in *.
  unfold darshan_log_get_lustre_record.
  replace (mod_len fd =? 0) with false by (symmetry; apply Z.eqb_neq; assumption).
  rewrite Hver.
  replace (DARSHAN_LUSTRE_VER F <? 1) with false by (symmetry; apply Z.ltb_ge; lia).
  cbn [Z.eqb orb Pos.eqb].
  unfold darshan_log_get_lustre_record_v1.
  rewrite (get_mod_prefix fd (7 * 8) _ _ Hdata)
    by (rewrite length_words; reflexivity).
  change (7 * 8 <? 0) with false. change (7 * 8 <? 7 * 8) with false.
  cbv iota.
  rewrite !(legacy_header (swap_flag fd)
              [id; rank; x2; x3; x4; stripe_size; stripe_count] eq_refl).
  destruct (legacy_fields id rank x2 x3 x4 stripe_size stripe_count Hss)
    as (Ess & Esc & Ebase).
  { unfold is_int64. lia. }
  cbv zeta in Ess, Esc, Ebase. rewrite !Ess, !Esc, !Ebase.
  change sizeof_OST_ID with 8. change sizeof_lustre_record with 40.
  rewrite <- !Esz.
  rewrite (to_size_t_small (stripe_count * 8)) by lia.
  rewrite (to_int_small (stripe_count * 8)) by lia.
  rewrite (get_mod_prefix (after_read fd (7 * 8) _) (stripe_count * 8) _ rest eq_refl)
    by (rewrite length_words; lia).
  rewrite (to_size_t_small (stripe_count * 8)) by lia.
  rewrite Z.ltb_irrefl.
  destruct (buffer_ready_block h buf_p (40 + sz + stripe_count * 8) ltac:(lia))
    as (rec0 & Hrec0 & (Ha & Hfit & Hoob) & Hsz).
  { replace (stripe_count * 8) with (8 * stripe_count) by lia. exact Hbuf. }
  rewrite Hrec0.
  rewrite hand_back_ret, hand_back_fd, hand_back_buf_1.
  split; [reflexivity|]. split; [reflexivity|].
  eexists. split; [reflexivity|].
  repeat match goal with
         | |- context [addr (store64 ?o ?v ?b)] =>
             change (addr (store64 o v b)) with (addr b)
         | |- context [addr (poke ?o ?v ?b)] =>
             change (addr (poke o v b)) with (addr b)
         end.
  rewrite Hpool.
  match goal with
  | |- oob (if swap_flag fd then bswap_ost_ids _ _ ?p else _) = _ /\ _ =>
      set (P := p)
  end.
  assert (HaP : addr P = addr rec0) by reflexivity.
  assert (HlP : length (mem P) = length (mem rec0))
    by (unfold P, store64; now rewrite !length_mem_poke).
  assert (HoP : oob P = false).
  { unfold P, store64.
    repeat (apply oob_poke; [ | norm_offsets; lia
                            | norm_offsets; norm_lengths;
                              rewrite ?length_words; lia]).
    exact Hoob. }
  assert (K : holds (mem P) 0 (word false id ++ word false rank) /\
              holds (mem P) 16 (le_encode 8 1) /\
              holds (mem P) 24 (le_encode 8 (addr rec0 + 40)) /\
              holds (mem P) 32 (le_encode 8 (addr rec0 + 40 + sz)) /\
              holds (mem P) 40 (le_encode 8 stripe_size) /\
              holds (mem P) 48 (le_encode 8 stripe_count) /\
              holds (mem P) 56 (le_encode 8 (-1)) /\
              holds (mem P) 64 (le_encode 8 (-1)) /\
              holds (mem P) 72 (le_encode 8 0) /\
              holds (mem P) 80 (le_encode 8 (-1)) /\
              holds (mem P) 88 (le_encode 8 (-1)) /\
              holds (mem P) (40 + 8 * LUSTRE_COMP_NUM_INDICES F) [x00] /\
              holds (mem P) (40 + sz) (words (swap_flag fd) ids)).
  { unfold P. norm_offsets.
    repeat match goal with |- _ /\ _ => split end;
      unfold store64;
      repeat first
        [ apply holds_poke; [lia | norm_lengths; rewrite ?length_words; lia]
        | apply holds_poke_other; [ | norm_lengths; rewrite ?length_words; lia ] ]. }
  destruct K as (Kb & Knc & Kcp & Kop & K0 & K1 & K2 & K3 & K4 & K5 & K6 & Kpn & Kid).
  assert (Final : forall R : block,
             addr R = addr rec0 -> length (mem R) = length (mem rec0) ->
             oob R = false ->
             (forall off bs, holds (mem P) off bs ->
                             off + Z.of_nat (length bs) <= 40 + sz ->
                             holds (mem R) off bs) ->
             holds (mem R) (40 + sz) (words false ids) ->
             oob R = false /\
             upgraded (record_of F R) id rank stripe_size stripe_count ids).
  { intros R HaR HlR HoR Hframe HiR. split; [assumption|].
    apply record_of_upgraded; rewrite ?HaR; rewrite <- ?Esz, ?Hpool;
      change sizeof_lustre_record with 40;
      change off_comps with 24; change off_ost_ids with 32;
      change (word false) with (le_encode 8);
      try assumption; try lia.
    - unfold header_bytes. change (word false) with (le_encode 8) in *.
      apply Hframe; [|rewrite !length_app, !length_le_encode; lia].
      rewrite app_assoc. apply holds_adjacent; [assumption|].
      rewrite length_app, !length_le_encode. exact Knc.
    - apply Hframe; [assumption | rewrite length_le_encode; lia].
    - apply Hframe; [assumption | rewrite length_le_encode; lia].
    - apply Hframe; [|rewrite length_words; cbn [length]; lia].
      unfold words. cbn [flat_map]. change (word false) with (le_encode 8).
      repeat (apply holds_adjacent; [assumption|]; rewrite length_le_encode).
      destruct K6 as (? & K6l & _). rewrite length_le_encode in K6l.
      apply holds_nil; lia.
    - apply Hframe; [assumption | cbn [length]; lia]. }
  clearbody P.
  destruct (swap_flag fd).
  - assert (Em : mem (bswap_ost_ids (40 + sz) stripe_count P)
                 = mem_write (40 + sz) (words false ids) (mem P)).
    { unfold bswap_ost_ids. rewrite mem_for_upto_bswap, <- Hli.
      now apply bswap_words. }
    apply Final; rewrite ?Em.
    + now rewrite addr_bswap_ost_ids.
    + now rewrite length_mem_write.
    + unfold bswap_ost_ids. apply oob_for_upto_bswap; [assumption|].
      intros i Hi. rewrite HlP. lia.
    + intros off bs Hb Hoff. apply holds_write_other; [assumption|]. lia.
    + apply holds_write; [lia|]. rewrite length_words, HlP. lia.
  - apply Final; first [reflexivity | assumption | auto].
Qed.


(** ** The STDIO printer and differ *)

Lemma for_upto_collect {A : Type} (n : Z) (g : Z -> list A) (init : list A) :
  for_upto n (fun i out => out ++ g i) init = init ++ flat_map g (upto n).
Proof.
  unfold for_upto, upto. generalize (seq 0 (Z.to_nat n)). intros l.
  revert init. induction l as [|i l IH]; intros init; cbn [fold_left map flat_map].
  - now rewrite app_nil_r.
  - now rewrite IH, app_assoc.
Qed.

Lemma for_upto_collect_some {A : Type} (n : Z) (g : Z -> list A)
    (init : list A) :
  for_upto n
    (fun i out => match out with
                  | Some out => Some (out ++ g i)
                  | None => None
                  end) (Some init)
  = Some (init ++ flat_map g (upto n)).
Proof.
  unfold for_upto, upto. generalize (seq 0 (Z.to_nat n)). intros l.
  revert init. induction l as [|i l IH]; intros init; cbn [fold_left map flat_map].
  - now rewrite app_nil_r.
  - now rewrite IH, app_assoc.
Qed.

Lemma for_upto_none {A : Type} (n : Z) (f : Z -> option A -> option A) :
  (forall i, f i None = None) -> for_upto n f None = None.
Proof.
  intros H. apply (for_upto_invariant (fun x => x = None)); [reflexivity|].
  intros i x ->. apply H.
Qed.

Lemma upto_nil (n : Z) : upto n = [] <-> n <= 0.
Proof.
  unfold upto. split.
  - intros H. apply map_eq_nil in H.
    destruct (Z.to_nat n) eqn:E; [lia | discriminate].
  - intros H. now replace (Z.to_nat n) with 0%nat by lia.
Qed.

Lemma flat_map_of_single {A B C : Type} (h : B -> list C) (g : A -> B)
    (l : list A) :
  flat_map h (flat_map (fun x => [g x]) l) = flat_map (fun x => h (g x)) l.
Proof.
  induction l as [|x l IH]; cbn; [reflexivity|].
  now rewrite IH.
Qed.

Lemma flat_map_nil_iff {A B : Type} (g : A -> list B) (l : list A) :
  flat_map g l = [] <-> forall x, In x l -> g x = [].
Proof.
  induction l as [|x l IH]; cbn [flat_map In].
  - split; [intros _ y [] | reflexivity].
  - split.
    + intros H. apply app_eq_nil in H. destruct H as (Hx & Hl).
      intros y [<-|Hy]; [assumption|]. now apply IH.
    + intros H. rewrite (H x (or_introl eq_refl)). cbn. apply IH.
      intros y Hy. apply H. now right.
Qed.

Section StdioPrintFacts.

Variable F : format.
Variable stdio_counter_names stdio_f_counter_names : Z -> string.

#[local] Abbreviation print_record :=
  (darshan_log_print_stdio_record F stdio_counter_names stdio_f_counter_names).
#[local] Abbreviation print_diff :=
  (darshan_log_print_stdio_record_diff F stdio_counter_names stdio_f_counter_names).

(** X4. Against an absent record, the differ prints the counters of the
    record that is there as [darshan_log_print_stdio_record] does with an
    empty mount point and file system type, each line preceded by "- "
    (the record is the first one) or by "+ " (it is the second one). *)
Theorem stdio_diff_against_absent_record (file : block)
    (file_name other_name : string) (ver : Z) :
  print_diff (Some file) file_name None other_name
  = Some (flat_map (fun line => [printf "- "; line])
            (print_record file file_name ""%string ""%string ver)) /\
  print_diff None other_name (Some file) file_name
  = Some (flat_map (fun line => [printf "+ "; line])
            (print_record file file_name ""%string ""%string ver)).
Proof.
  unfold darshan_log_print_stdio_record_diff, darshan_log_print_stdio_record,
    stdio_diff_step.
  rewrite !for_upto_collect, !for_upto_collect_some. cbn [app].
  rewrite !flat_map_app, !flat_map_of_single.
  split; reflexivity.
Qed.

Lemma stdio_diff_both (a b : block) (name1 name2 : string) :
  print_diff (Some a) name1 (Some b) name2
  = Some (flat_map
            (fun i =>
               if negb (stdio_counter a i =? stdio_counter b i)
               then [printf "- ";
                     stdio_counter_print stdio_counter_names a name1 "" "" i;
                     printf "+ ";
                     stdio_counter_print stdio_counter_names b name2 "" "" i]
               else [])
            (upto (STDIO_NUM_INDICES F))
          ++ flat_map
               (fun i =>
                  if double_ne (stdio_fcounter F a i) (stdio_fcounter F b i)
                  then [printf "- ";
                        stdio_f_counter_print F stdio_f_counter_names a name1 "" "" i;
                        printf "+ ";
                        stdio_f_counter_print F stdio_f_counter_names b name2 "" "" i]
                  else [])
               (upto (STDIO_F_NUM_INDICES F))).
Proof.
  unfold darshan_log_print_stdio_record_diff, stdio_diff_step.
  rewrite (for_upto_ext (STDIO_NUM_INDICES F) _
             (fun i out =>
                match out with
                | Some out =>
                    Some (out ++
                          (if negb (stdio_counter a i =? stdio_counter b i)
                           then [printf "- ";
                                 stdio_counter_print stdio_counter_names a name1 "" "" i;
                                 printf "+ ";
                                 stdio_counter_print stdio_counter_names b name2 "" "" i]
                           else []))
                | None => None
                end)).
  2:{ intros i [out|] _; [|reflexivity].
      destruct (negb _); [reflexivity | now rewrite app_nil_r]. }
  rewrite for_upto_collect_some. cbn [app].
  rewrite (for_upto_ext (STDIO_F_NUM_INDICES F) _
             (fun i out =>
                match out with
                | Some out =>
                    Some (out ++
                          (if double_ne (stdio_fcounter F a i) (stdio_fcounter F b i)
                           then [printf "- ";
                                 stdio_f_counter_print F stdio_f_counter_names a name1 "" "" i;
                                 printf "+ ";
                                 stdio_f_counter_print F stdio_f_counter_names b name2 "" "" i]
                           else []))
                | None => None
                end)).
  2:{ intros i [out|] _; [|reflexivity].
      destruct (double_ne _ _); [reflexivity | now rewrite app_nil_r]. }
  now rewrite for_upto_collect_some.
Qed.

(** Counter by counter: two records that are both present give no output
    exactly when no counter differs. *)
Lemma stdio_diff_both_silent (a b : block) (name1 name2 : string) :
  print_diff (Some a) name1 (Some b) name2 = Some [] <->
  (forall i, In i (upto (STDIO_NUM_INDICES F)) ->
             stdio_counter a i = stdio_counter b i) /\
  (forall i, In i (upto (STDIO_F_NUM_INDICES F)) ->
             double_ne (stdio_fcounter F a i) (stdio_fcounter F b i) = false).
Proof.
  rewrite stdio_diff_both. split.
  - intros H. injection H as H. apply app_eq_nil in H. destruct H as (H1 & H2).
    rewrite flat_map_nil_iff in H1, H2. split.
    + intros i Hi. specialize (H1 i Hi).
      destruct (Z.eqb_spec (stdio_counter a i) (stdio_counter b i));
        [assumption | discriminate].
    + intros i Hi. specialize (H2 i Hi).
      destruct (double_ne _ _); [discriminate | reflexivity].
  - intros (H1 & H2). f_equal.
    replace (flat_map _ (upto (STDIO_NUM_INDICES F))) with (@nil output).
    + cbn [app]. apply flat_map_nil_iff. intros i Hi. now rewrite (H2 i Hi).
    + symmetry. apply flat_map_nil_iff. intros i Hi.
      rewrite (H1 i Hi), Z.eqb_refl. reflexivity.
Qed.

(** X5. Two records that are both present give no output exactly when all
    their integer counters are equal and all their floating point counters
    compare equal as [double]s; the record ids, the ranks and the file
    names play no part. *)
Theorem stdio_diff_silent_iff (a b : block) (name1 name2 : string) :
  print_diff (Some a) name1 (Some b) name2 = Some [] <->
  stdio_counters (stdio_record_of F a) = stdio_counters (stdio_record_of F b) /\
  Forall (fun i => double_ne (stdio_fcounter F a i) (stdio_fcounter F b i) = false)
    (upto (STDIO_F_NUM_INDICES F)).
Proof.
  rewrite stdio_diff_both_silent, Forall_forall.
  unfold stdio_record_of. cbn [stdio_counters].
  split; intros (H1 & H2); (split; [|exact H2]).
  - apply map_ext_in. intros i Hi. exact (H1 i Hi).
  - intros i Hi. unfold stdio_counter.
    apply (f_equal (fun l => nth (Z.to_nat i) l 0)) in H1.
    apply in_upto in Hi.
    assert (Hnth : forall f : Z -> Z,
               nth (Z.to_nat i) (map f (upto (STDIO_NUM_INDICES F))) 0 = f i).
    { intros f. unfold upto. rewrite map_map.
      rewrite (nth_indep _ 0 (f (Z.of_nat 0)))
        by (rewrite length_map, length_seq; lia).
      rewrite (map_nth (fun k => f (Z.of_nat k))), seq_nth by lia.
      f_equal. lia. }
    now rewrite !Hnth in H1.
Qed.

(** With one record absent the output is defined. *)
Lemma stdio_diff_one_absent (file : block) (name1 name2 : string) :
  print_diff (Some file) name1 None name2 <> None /\
  print_diff None name1 (Some file) name2 <> None.
Proof.
  unfold darshan_log_print_stdio_record_diff, stdio_diff_step.
  rewrite !for_upto_collect_some. split; discriminate.
Qed.

(** X7. The differ dereferences a null pointer, so that no output is
    defined, exactly when both records are absent and the format has a
    counter to print: its first branch, taken when the second record is
    absent, reads the first one without testing it. *)
Theorem stdio_diff_undefined_iff (file_rec1 file_rec2 : option block)
    (name1 name2 : string) :
  print_diff file_rec1 name1 file_rec2 name2 = None <->
  file_rec1 = None /\ file_rec2 = None /\
  (0 < STDIO_NUM_INDICES F \/ 0 < STDIO_F_NUM_INDICES F).
Proof.
  destruct file_rec1 as [a|], file_rec2 as [b|].
  - rewrite stdio_diff_both. split; [discriminate | intros (H & _); discriminate].
  - split; [intros H; now apply (stdio_diff_one_absent a name1 name2) in H
           | intros (H & _); discriminate].
  - split; [intros H; now apply (stdio_diff_one_absent b name1 name2) in H
           | intros (_ & H & _); discriminate].
  - unfold darshan_log_print_stdio_record_diff.
    assert (Hstep : forall differ print n init,
               for_upto n (stdio_diff_step None name1 None name2 differ print) init
               = if 0 <? n then None else init).
    { intros differ print n init.
      destruct (Z.ltb_spec 0 n) as [Hn|Hn]; [|now apply for_upto_nonpos].
      replace n with ((n - 1) + 1) by lia.
      rewrite for_upto_shift by lia.
      replace (stdio_diff_step None name1 None name2 differ print 0 init)
        with (@None (list output)) by (destruct init; reflexivity).
      apply for_upto_none. reflexivity. }
    rewrite !Hstep.
    destruct (Z.ltb_spec 0 (STDIO_NUM_INDICES F)) as [HN|HN],
      (Z.ltb_spec 0 (STDIO_F_NUM_INDICES F)) as [HFN|HFN];
      (split; [intros Hx; try discriminate Hx; repeat split; auto
              | intros (_ & _ & [H'|H']); try reflexivity; lia]).
Qed.

Lemma double_ne_refl (x : Z) : double_ne x x = double_is_nan x.
Proof.
  unfold double_ne. rewrite Z.eqb_refl, orb_true_r. cbn [negb].
  destruct (double_is_nan x); reflexivity.
Qed.

(** X6. A record compared with itself gives no output exactly when none
    of its floating point counters is a NaN: [!=] on [double]s holds of a
    NaN and itself, so a record with such a counter is reported as
    differing from itself. *)
Theorem stdio_diff_with_itself (a : block) (name1 name2 : string) :
  print_diff (Some a) name1 (Some a) name2 = Some [] <->
  Forall (fun i => double_is_nan (stdio_fcounter F a i) = false)
    (upto (STDIO_F_NUM_INDICES F)).
Proof.
  rewrite stdio_diff_both_silent, Forall_forall. split.
  - intros (_ & H) i Hi. rewrite <- double_ne_refl. now apply H.
  - intros H. split; [reflexivity|]. intros i Hi.
    rewrite double_ne_refl. now apply H.
Qed.

End StdioPrintFacts.


(** *** The lines of a decoded record

    What is to be printed for a record given as a value, written with the
    printing macros directly. *)

(** ** The flags rendering within its array *)

(** The loop over [flag_str_table] for a given flags value, unchecked and
    checked. *)
#[local] Abbreviation flags_loop flags :=
  (fold_left
      (fun '(flag_str, flag) label =>
         ((if (Z.land flags flag =? 0)%Z then flag_str
           else strncat flag_str label (64 - strlen flag_str)%Z),
          to_size_t (Z.shiftl flag 1)))).

#[local] Abbreviation flags_loop_checked flags :=
  (fold_left
      (fun '(flag_str, flag) label =>
         ((if (Z.land flags flag =? 0)%Z then flag_str
           else match flag_str with
                | Some flag_str =>
                    strncat_checked 64 flag_str label (64 - strlen flag_str)%Z
                | None => None
                end),
          to_size_t (Z.shiftl flag 1)))).

Lemma next_flag (k : Z) :
  0 <= k < 12 -> to_size_t (Z.shiftl (2 ^ k) 1) = 2 ^ (k + 1).
Proof.
  intros Hk. rewrite Z.shiftl_mul_pow2 by lia. rewrite <- Z.pow_add_r by lia.
  apply to_size_t_small. split; [apply Z.pow_nonneg; lia|].
  apply Z.pow_lt_mono_r; lia.
Qed.

(** Only the twelve low bits of the counter are looked at. *)
Lemma flags_loop_checked_low (flags : Z) (table : list string) (k : Z)
    (s : option string) :
  0 <= k -> k + Z.of_nat (length table) <= 12 ->
  flags_loop_checked flags table (s, 2 ^ k)
  = flags_loop_checked (flags mod 2 ^ 12) table (s, 2 ^ k).
Proof.
  revert k s. induction table as [|label table IH]; intros k s Hk Hlen.
  - reflexivity.
  - cbn [length] in Hlen. cbn [fold_left].
    rewrite land_pow2_low by lia.
    rewrite next_flag by lia. apply IH; lia.
Qed.

(** Once a [strncat] has written past the array there is no string. *)
Lemma flags_loop_checked_none (flags : Z) (table : list string) (flag : Z) :
  fst (flags_loop_checked flags table (None, flag)) = None.
Proof.
  revert flag. induction table as [|label table IH]; intros flag;
    [reflexivity|].
  cbn [fold_left].
  replace (if Z.land flags flag =? 0 then @None string else None)
    with (@None string) by (now destruct (Z.land flags flag =? 0)).
  apply IH.
Qed.

(** Where the checked loop has a string, the unchecked one has the same. *)
Lemma flags_loop_checked_sound (flags : Z) (table : list string) (flag : Z)
    (s s' : string) :
  fst (flags_loop_checked flags table (Some s, flag)) = Some s' ->
  fst (flags_loop flags table (s, flag)) = s'.
Proof.
  revert flag s. induction table as [|label table IH]; intros flag s.
  - cbn [fold_left fst]. now intros [= <-].
  - cbn [fold_left]. destruct (Z.land flags flag =? 0); [apply IH|].
    unfold strncat_checked.
    destruct (strlen s + Z.min (strlen label) (64 - strlen s) + 1 <=? 64);
      [apply IH|].
    rewrite flags_loop_checked_none. discriminate.
Qed.

Lemma lustre_flags_str_checked_sound (counter : Z) (s : string) :
  lustre_flags_str_checked counter = Some s -> lustre_flags_str counter = s.
Proof.
  unfold lustre_flags_str_checked, lustre_flags_str.
  pose proof (flags_loop_checked_sound (to_size_t counter) flag_str_table 1
                ""%string) as H.
  destruct (flags_loop_checked (to_size_t counter) flag_str_table (Some ""%string, 1))
    as [[x|] f] eqn:E; [|discriminate].
  specialize (H x eq_refl).
  destruct (flags_loop (to_size_t counter) flag_str_table (""%string, 1))
    as [y g].
  cbn [fst] in H. subst y. now intros [= <-].
Qed.

Lemma flags_checked :
  forallb
    (fun n =>
       match lustre_flags_str_checked n with
       | Some s => (rendering_length n <? 64)%nat
                   && String.eqb s (flags_as_specified n)
       | None => (64 <=? rendering_length n)%nat
       end)
    (map Z.of_nat (seq 0 4096)) = true.
Proof. vm_compute. reflexivity. Qed.

Lemma flags_checked_at (n : Z) :
  0 <= n < 4096 ->
  lustre_flags_str_checked n
  = if (rendering_length n <? 64)%nat then Some (flags_as_specified n) else None.
Proof.
  intros Hn.
  pose proof flags_checked as Hall. rewrite forallb_forall in Hall.
  specialize (Hall n).
  assert (Hin : In n (map Z.of_nat (seq 0 4096))).
  { apply in_map_iff. exists (Z.to_nat n). split; [lia|]. apply in_seq. lia. }
  specialize (Hall Hin). cbv beta in Hall.
  destruct (lustre_flags_str_checked n) as [s|].
  - destruct (rendering_length n <? 64)%nat; [|discriminate Hall].
    destruct (String.eqb s (flags_as_specified n)) eqn:E; [|discriminate Hall].
    apply String.eqb_eq in E. now rewrite E.
  - destruct (Nat.ltb_spec (rendering_length n) 64) as [Hlt|Hge];
      [|reflexivity].
    apply Nat.leb_le in Hall. lia.
Qed.

Lemma lustre_flags_str_checked_low (flags : Z) :
  0 <= flags < 2 ^ 64 -> flags <> 2 ^ 64 - 1 ->
  lustre_flags_str_checked flags = lustre_flags_str_checked (flags mod 2 ^ 12).
Proof.
  intros Hr Hnot.
  assert (Hn : 0 <= flags mod 2 ^ 12 < 4096) by (apply Z.mod_pos_bound; lia).
  unfold lustre_flags_str_checked.
  rewrite (to_size_t_small flags), (to_size_t_small (flags mod 2 ^ 12)) by lia.
  change (to_size_t (-1)) with (2 ^ 64 - 1).
  replace (flags =? 2 ^ 64 - 1) with false by (symmetry; apply Z.eqb_neq; lia).
  replace (flags mod 2 ^ 12 =? 2 ^ 64 - 1) with false
    by (symmetry; apply Z.eqb_neq; lia).
  pose proof (flags_loop_checked_low flags flag_str_table 0 (Some ""%string)
                ltac:(lia) ltac:(cbn; lia)) as E.
  change (2 ^ 0) with 1 in E. now rewrite E.
Qed.

(** The flags branch has a string exactly when the labels of the set
    flags, each with its comma, take fewer than 64 characters, and the
    string is then the one the spec describes. *)
Lemma lustre_flags_str_checked_spec (counter : Z) :
  lustre_flags_str_checked counter
  = if (rendering_length counter <? 64)%nat
    then Some (flags_as_specified counter)
    else None.
Proof.
  assert (Hr : 0 <= to_size_t counter < 2 ^ 64) by (apply Z.mod_pos_bound; lia).
  assert (Ec : lustre_flags_str_checked counter
               = lustre_flags_str_checked (to_size_t counter))
    by (unfold lustre_flags_str_checked; now rewrite to_size_t_idem).
  assert (Es : flags_as_specified counter = flags_as_specified (to_size_t counter))
    by (unfold flags_as_specified; now rewrite to_size_t_idem).
  assert (El : rendering_length counter = rendering_length (to_size_t counter))
    by (unfold rendering_length; now rewrite to_size_t_idem).
  rewrite Ec, Es, El. clear Ec Es El.
  generalize dependent (to_size_t counter). intros flags Hr.
  destruct (Z.eq_dec flags (2 ^ 64 - 1)) as [->|Hnot].
  - vm_compute. reflexivity.
  - rewrite lustre_flags_str_checked_low, flags_as_specified_low by assumption.
    rewrite rendering_length_low by assumption.
    apply flags_checked_at. apply Z.mod_pos_bound. lia.
Qed.

(** X21. The [LUSTRE_COMP_FLAGS] branch stays within [char flag_str[64]]
    exactly when the labels of the set flags, each with its comma, take
    fewer than 64 characters; the string printed is then the labels of
    the set bits among the twelve known flags, in bit order, joined by
    commas, or "0" when none is set.  With 64 characters or more a
    [strncat] writes past the array. *)
Theorem flags_rendering_when_it_fits (counter : Z) :
  lustre_flags_str_checked counter
  = (if (rendering_length counter <? 64)%nat
     then Some (flags_as_specified counter)
     else None) /\
  ((rendering_length counter < 64)%nat ->
   lustre_flags_str counter = flags_as_specified counter).
Proof.
  split; [apply lustre_flags_str_checked_spec|].
  intros Hfit. apply lustre_flags_str_checked_sound.
  rewrite lustre_flags_str_checked_spec.
  now replace (rendering_length counter <? 64)%nat with true
    by (symmetry; apply Nat.ltb_lt; assumption).
Qed.


(** ** Counter labels *)

Local Open Scope string_scope.

Lemma index_underscore (a rest : string) :
  no_underscore a ->
  index 0 "_" (a ++ String "_" rest) = Some (String.length a).
Proof.
  induction a as [|c a IH]; intros Ha.
  - cbn [append index prefix]. destruct (ascii_dec "_" "_"); [|congruence].
    now destruct rest.
  - destruct Ha as (Hc & Ha). cbn [append String.length].
    change (index 0 "_" (String c (a ++ String "_" rest)))
      with (if prefix "_" (String c (a ++ String "_" rest)) then Some 0%nat
            else match index 0 "_" (a ++ String "_" rest) with
                 | Some n => Some (S n)
                 | None => None
                 end).
    cbn [prefix]. destruct (ascii_dec "_" c) as [E|_]; [congruence|].
    now rewrite IH.
Qed.

Lemma index_skip (p x s : string) (n : nat) :
  index (String.length p + n) s (p ++ x)
  = option_map (Nat.add (String.length p)) (index n s x).
Proof.
  induction p as [|c p IH].
  - cbn. now destruct (index n s x).
  - cbn [append String.length Nat.add].
    change (index (S (String.length p + n)) s (String c (p ++ x)))
      with (match index (String.length p + n) s (p ++ x) with
            | Some k => Some (S k)
            | None => None
            end).
    rewrite IH. now destruct (index n s x).
Qed.

Lemma substring_prefix (p x : string) :
  substring 0 (String.length p) (p ++ x) = p.
Proof. induction p as [|c p IH]; cbn; [now destruct x | now rewrite IH]. Qed.

Lemma substring_suffix (p x : string) :
  substring (String.length p) (String.length x) (p ++ x) = x.
Proof.
  induction p as [|c p IH]; cbn [append String.length substring]; [|exact IH].
  induction x as [|c x IHx]; cbn; [reflexivity | now rewrite IHx].
Qed.

Lemma substring_all (x : string) (n : nat) :
  (String.length x <= n)%nat -> substring 0 n x = x.
Proof.
  revert n. induction x as [|c x IH]; intros n Hn.
  - now destruct n.
  - destruct n as [|n]; cbn in *; [lia|]. rewrite IH by lia. reflexivity.
Qed.

Lemma length_append (a b : string) :
  String.length (a ++ b) = (String.length a + String.length b)%nat.
Proof. induction a as [|c a IH]; cbn; [reflexivity | now rewrite IH]. Qed.

Lemma append_assoc (a b c : string) : (a ++ b) ++ c = a ++ b ++ c.
Proof. induction a as [|x a IH]; cbn; [reflexivity | now rewrite IH]. Qed.

Lemma substring_0_app (p x : string) (n : nat) :
  substring 0 (String.length p + n) (p ++ x) = p ++ substring 0 n x.
Proof. induction p as [|c p IH]; cbn; [reflexivity | now rewrite IH]. Qed.

(** [snprintf] behind the first characters of [tmp_counter_str] keeps the
    63 characters that fit the array. *)
Lemma snprintf_cut (kept text : string) :
  (String.length kept <= 63)%nat ->
  snprintf kept (64 - strlen kept) text = label_cut (kept ++ text).
Proof.
  intros H. unfold snprintf, label_cut, strlen.
  replace (substring 0 63 (kept ++ text))
    with (substring 0 (String.length kept + (63 - String.length kept))
            (kept ++ text))
    by (f_equal; lia).
  rewrite substring_0_app. do 2 f_equal. lia.
Qed.

(** Lines 284-288 on a name of the form [a_b_c]. *)
Lemma counter_label_split (names : Z -> string) (i j : Z) (a b c : string) :
  names j = a ++ "_" ++ b ++ "_" ++ c ->
  no_underscore a -> no_underscore b ->
  (String.length (names j) < 64)%nat ->
  counter_label names i j
  = Some (a ++ "_" ++ b,
          snprintf (a ++ "_" ++ b) (64 - strlen (a ++ "_" ++ b))
            (dec (to_int (i + 1)) ++ "_" ++ c)).
Proof.
  intros Hname Ha Hb Hlen.
  unfold counter_label. rewrite Hname in *.
  replace (64 <=? strlen (a ++ "_" ++ b ++ "_" ++ c))%Z with false
    by (symmetry; apply Z.leb_gt; unfold strlen; lia).
  change ("_" ++ b ++ "_" ++ c) with (String "_" (b ++ String "_" c)).
  rewrite (index_underscore a _ Ha).
  replace (S (String.length a)) with (String.length a + 1)%nat by lia.
  rewrite index_skip.
  change (index 1 "_" (String "_" (b ++ String "_" c)))
    with (match index 0 "_" (b ++ String "_" c) with
          | Some k => Some (S k)
          | None => None
          end).
  rewrite (index_underscore b _ Hb). cbn [option_map].
  set (idx := (String.length a + S (String.length b))%nat).
  set (name := a ++ String "_" (b ++ String "_" c)).
  assert (Ename : name = (a ++ "_" ++ b) ++ "_" ++ c).
  { unfold name. rewrite !append_assoc. reflexivity. }
  assert (Eidx : idx = String.length (a ++ "_" ++ b)).
  { unfold idx. rewrite !length_append. cbn. lia. }
  assert (Elen : String.length name = (idx + S (String.length c))%nat).
  { rewrite Ename, Eidx, !length_append. cbn. lia. }
  rewrite Elen. replace (idx + S (String.length c) - idx)%nat
    with (String.length ("_" ++ c)) by (cbn; lia).
  rewrite Ename, Eidx, substring_prefix, substring_suffix.
  reflexivity.
Qed.

(** X20. The label of a component counter whose name is [a_b_c]: the name
    is cut at its second underscore, and the component number, counted
    from 1, goes between [b] and that underscore; what does not fit the
    64 bytes of [tmp_counter_str] is cut. *)
Theorem counter_label_inserts_component_number (names : Z -> string)
    (i j : Z) (a b c : string) :
  names j = a ++ "_" ++ b ++ "_" ++ c ->
  no_underscore a -> no_underscore b ->
  (String.length (names j) < 64)%nat ->
  let number := dec (to_int (i + 1)) in
  counter_label names i j
  = Some (a ++ "_" ++ b,
          if (String.length (names j) + String.length number <? 64)%nat
          then a ++ "_" ++ b ++ number ++ "_" ++ c
          else a ++ "_" ++ b
               ++ substring 0 (63 - String.length (a ++ "_" ++ b))
                    (number ++ "_" ++ c)).
Proof.
  intros Hname Ha Hb Hlen number.
  rewrite (counter_label_split names i j a b c Hname Ha Hb Hlen).
  fold number. rewrite Hname in *. rewrite !length_append in Hlen.
  cbn [String.length] in Hlen.
  unfold snprintf, strlen. do 2 f_equal.
  replace (Z.to_nat (64 - Z.of_nat (String.length (a ++ "_" ++ b)) - 1))
    with (63 - String.length (a ++ "_" ++ b))%nat by lia.
  rewrite !length_append. cbn [String.length].
  match goal with
  | |- context [(?x <? 64)%nat] => destruct (Nat.ltb_spec x 64) as [Hfit|Hcut]
  end.
  - rewrite substring_all
      by (rewrite !length_append; cbn [String.length]; lia).
    now rewrite !append_assoc.
  - now rewrite !append_assoc.
Qed.

Local Close Scope string_scope.


(** ** The Lustre printer *)

Lemma upto_snoc (k : Z) : 0 <= k -> upto (k + 1) = upto k ++ [k].
Proof.
  intros Hk. unfold upto.
  replace (Z.to_nat (k + 1)) with (S (Z.to_nat k)) by lia.
  rewrite seq_S, map_app. cbn [map Nat.add]. now rewrite Z2Nat.id by lia.
Qed.

Lemma holds_skipn (m : bytes) (off : Z) (bs : bytes) :
  holds m off bs ->
  skipn (Z.to_nat off) m = bs ++ skipn (Z.to_nat off + length bs) m.
Proof.
  intros (H0 & H1 & H2). unfold mem_read in H2. rewrite Nat2Z.id in H2.
  rewrite <- H2 at 1.
  rewrite (Nat.add_comm (Z.to_nat off)), <- skipn_skipn.
  symmetry. apply firstn_skipn.
Qed.

Lemma c_string_terminated (pool tl : bytes) :
  ~ In x00 pool -> c_string (pool ++ x00 :: tl) = pool.
Proof.
  induction pool as [|b pool IH]; intros Hin; [reflexivity|].
  cbn [app c_string]. destruct (Byte.eqb b x00) eqn:E.
  - apply Byte.byte_dec_bl in E. exfalso. apply Hin. now left.
  - f_equal. apply IH. intros H. apply Hin. now right.
Qed.

(** The loop over the identifiers of one component. *)
Lemma ost_loop {A : Type} (P : Z -> Z -> A) (sc : Z) (out : list A) (g : Z) :
  0 <= g -> g + sc < 2 ^ 31 ->
  for_upto sc (fun j '(out, global_ost_idx) =>
                 (out ++ [P j global_ost_idx], to_int (global_ost_idx + 1)))
    (out, g)
  = (out ++ map (fun j => P j (g + j)) (upto sc), g + Z.max 0 sc).
Proof.
  intros Hg. destruct (Z.le_gt_cases sc 0) as [Hle|Hgt].
  { intros _. rewrite for_upto_nonpos by lia.
    rewrite (proj2 (upto_nil sc) Hle). cbn [map]. rewrite app_nil_r.
    f_equal. lia. }
  assert (Hsc : 0 <= sc) by lia. revert Hgt.
  revert sc Hsc. apply (natlike_ind (fun sc => 0 < sc -> g + sc < 2 ^ 31 -> _)).
  - lia.
  - intros sc Hsc IH _ Hb. unfold Z.succ in *.
    destruct (Z.eq_dec sc 0) as [->|Hne]; [|rewrite for_upto_succ by lia].
    + change (for_upto (0 + 1) ?f ?a) with (f 0 a).
      cbv beta iota. change (upto (0 + 1)) with [0]. cbn [map].
      rewrite Z.add_0_r. f_equal. rewrite to_int_small by lia. lia.
    + rewrite IH by lia. cbv beta iota.
      rewrite upto_snoc, map_app by lia. cbn [map].
      rewrite app_assoc. rewrite to_int_small by lia.
      replace (g + Z.max 0 sc) with (g + sc) by lia.
      replace (g + Z.max 0 (sc + 1)) with (g + sc + 1) by lia.
      reflexivity.
Qed.

(** A loop that adds one line a turn and keeps what its last turn left. *)
Lemma for_upto_lines {A K : Type} (n : Z)
    (f : Z -> option (list A * option K) -> option (list A * option K))
    (line : Z -> A) (kept : Z -> K) (out : list A) :
  1 <= n ->
  (forall j out x, 0 <= j < n ->
                   f j (Some (out, x)) = Some (out ++ [line j], Some (kept j))) ->
  for_upto n f (Some (out, None))
  = Some (out ++ map line (upto n), Some (kept (n - 1))).
Proof.
  intros Hn Hf.
  assert (G : forall k, 0 <= k -> k + 1 <= n ->
                        for_upto (k + 1) f (Some (out, None))
                        = Some (out ++ map line (upto (k + 1)), Some (kept k))).
  { apply (natlike_ind (fun k => k + 1 <= n -> _)).
    - intros _. change (for_upto (0 + 1) f ?a) with (f 0 a).
      rewrite Hf by lia. reflexivity.
    - intros k Hk IH Hb. unfold Z.succ in *.
      rewrite for_upto_succ by lia. rewrite IH by lia. rewrite Hf by lia.
      rewrite (upto_snoc (k + 1)) by lia. now rewrite map_app, app_assoc. }
  specialize (G (n - 1)). replace (n - 1 + 1) with n in G by lia.
  apply G; lia.
Qed.

Lemma lustre_pattern_str_text (value : Z) :
  lustre_pattern_str value = pattern_text value.
Proof.
  unfold lustre_pattern_str, pattern_text.
  destruct (Z.eqb_spec (to_size_t value) 0) as [->|H0]; [reflexivity|].
  destruct (Z.eqb_spec (to_size_t value) 2) as [->|H2]; [reflexivity|].
  destruct (Z.eqb_spec (to_size_t value) 4) as [->|H4]; [reflexivity|].
  destruct (Z.eqb_spec (to_size_t value) 8) as [->|H8]; [reflexivity|].
  destruct (to_size_t value) as [|p|p]; try reflexivity; [congruence|].
  do 4 (try destruct p as [p|p|]; try reflexivity; try congruence).
Qed.

Section PrintFacts.

Variable F : format.
Hypothesis HF : format_ok F.
Variables names stem tail : Z -> string.
Hypothesis Hsplit : names_split F names stem tail.
Variables (rank id : Z) (file_name mnt_pt fs_type : string).

#[local] Abbreviation NUM := (LUSTRE_COMP_NUM_INDICES F).
#[local] Abbreviation sz := (sizeof_lustre_component F).

Lemma stem_length (j : Z) :
  0 <= j < NUM -> (String.length (stem j) <= 63)%nat.
Proof.
  intros Hj.
  destruct (Hsplit j Hj) as (Hlen & a & b & c & _ & _ & -> & _ & En).
  rewrite En in Hlen. rewrite !length_append in *. cbn [String.length] in *.
  lia.
Qed.

(** The label of counter [j] of component [i]. *)
Lemma counter_label_line (i j : Z) :
  0 <= j < NUM -> 0 <= i -> i + 1 < 2 ^ 31 ->
  counter_label names i j
  = Some (stem j, label_cut (stem j ++ dec (i + 1) ++ tail j)).
Proof.
  intros Hj Hi Hb.
  pose proof (stem_length j Hj) as Hs.
  destruct (Hsplit j Hj) as (Hlen & a & b & c & Ha & Hb' & Es & Et & En).
  rewrite (counter_label_split names i j a b c En Ha Hb' Hlen).
  rewrite to_int_small by lia. rewrite <- Es.
  rewrite snprintf_cut by assumption. now rewrite Et.
Qed.

(** The line of counter [j] of a component whose flags fit. *)
Lemma counter_print_line (i : Z) (c : component) (j : Z) :
  (rendering_length (counter c LUSTRE_COMP_FLAGS) < 64)%nat ->
  counter_print rank id file_name mnt_pt fs_type j
    (label_cut (stem j ++ dec (i + 1) ++ tail j)) (counter c j)
  = Some (counter_line stem tail rank id file_name mnt_pt fs_type i c j).
Proof.
  intros Hfit. unfold counter_print, counter_line.
  destruct (j =? LUSTRE_COMP_STRIPE_PATTERN);
    [now rewrite lustre_pattern_str_text|].
  destruct (Z.eqb_spec j LUSTRE_COMP_FLAGS) as [->|_]; [|reflexivity].
  rewrite lustre_flags_str_checked_spec.
  now replace (rendering_length (counter c LUSTRE_COMP_FLAGS) <? 64)%nat
    with true by (symmetry; apply Nat.ltb_lt; assumption).
Qed.

Lemma pool_name_print_line (i : Z) (c : component) :
  0 <= i -> i + 1 < 2 ^ 31 ->
  pool_name_print rank id file_name mnt_pt fs_type (stem (NUM - 1)) i
    (pool_name c)
  = pool_name_line F stem rank id file_name mnt_pt fs_type i c.
Proof.
  intros Hi Hb. pose proof HF as (_ & _ & HN & _).
  unfold pool_name_print, pool_name_line.
  rewrite to_int_small by lia.
  rewrite snprintf_cut by (apply stem_length; lia).
  now destruct (pool_name c).
Qed.

Lemma ost_id_print_line (i k value : Z) :
  0 <= i -> i + 1 < 2 ^ 31 ->
  ost_id_print rank id file_name mnt_pt fs_type (stem (NUM - 1)) i k value
  = ost_id_line F stem rank id file_name mnt_pt fs_type i k value.
Proof.
  intros Hi Hb. pose proof HF as (_ & _ & HN & _).
  unfold ost_id_print, ost_id_line.
  rewrite to_int_small by lia.
  now rewrite snprintf_cut by (apply stem_length; lia).
Qed.

(** The loop over the counters of one component. *)
Lemma counter_loop (i : Z) (c : component) (value : Z -> Z)
    (out : list output) :
  0 <= i -> i + 1 < 2 ^ 31 ->
  (forall j, 0 <= j < NUM -> value j = counter c j) ->
  (rendering_length (counter c LUSTRE_COMP_FLAGS) < 64)%nat ->
  for_upto NUM
    (fun j st =>
       match st with
       | None => None
       | Some (out, _) =>
           match counter_label names i j with
           | None => None
           | Some (kept, label) =>
               match counter_print rank id file_name mnt_pt fs_type
                       j label (value j) with
               | None => None
               | Some line => Some (out ++ [line], Some kept)
               end
           end
       end)
    (Some (out, None))
  = Some (out ++ map (counter_line stem tail rank id file_name mnt_pt fs_type
                        i c)
                   (upto NUM),
          Some (stem (NUM - 1))).
Proof.
  intros Hi Hb Hvalue Hfit. pose proof HF as (_ & _ & HN & _).
  apply for_upto_lines; [lia|].
  intros j out' x Hj.
  rewrite counter_label_line, Hvalue by assumption.
  now rewrite counter_print_line.
Qed.

(** The loop over the components. *)
Lemma components_loop (rec : block) (ids : list Z) (cs : list component)
    (i0 : Z) (out : list output) (g : Z) :
  rank = load64 8 (mem rec) -> id = load_ptr 0 (mem rec) ->
  comps_base rec = sizeof_lustre_record ->
  holds (mem rec) (osts_base rec) (words false ids) ->
  Forall is_int64 ids -> Z.of_nat (length ids) < 2 ^ 31 ->
  Forall (component_ok F) cs ->
  Forall (fun c => Z.of_nat (length (pool_name c)) < LUSTRE_POOL_NAME_SIZE F) cs ->
  Forall (fun c => (rendering_length (counter c LUSTRE_COMP_FLAGS) < 64)%nat) cs ->
  holds (mem rec) (sizeof_lustre_record + i0 * sz)
    (flat_map (component_bytes_of F false) cs) ->
  0 <= i0 -> i0 + Z.of_nat (length cs) < 2 ^ 31 ->
  0 <= g -> g + stripe_total cs <= Z.of_nat (length ids) ->
  for_upto (Z.of_nat (length cs))
    (fun i st => print_component F names rec file_name mnt_pt fs_type (i0 + i) st)
    (Some (out, g))
  = Some (out ++ component_lines F stem tail rank id file_name mnt_pt fs_type
                   i0 cs (skipn (Z.to_nat g) ids),
          g + stripe_total cs).
Proof.
  intros Hrank Hid Hcb Hids Hir Hli Hcs. revert i0 out g.
  destruct (sizeof_lustre_component_bounds F HF) as (Hs & Hpo).
  pose proof HF as (_ & _ & HN & HP).
  induction Hcs as [|c cs Hc Hcs IH];
    intros i0 out g Hpool Hflags Hc0 Hi0 Hib Hg Hfit.
  - cbn. rewrite app_nil_r. do 2 f_equal. lia.
  - cbn [length] in *. rewrite Nat2Z.inj_succ, <- Z.add_1_r in *.
    rewrite for_upto_shift by lia.
    apply Forall_cons_iff in Hpool. destruct Hpool as (Hp & Hpool').
    apply Forall_cons_iff in Hflags. destruct Hflags as (Hfl & Hflags').
    cbn [flat_map] in Hc0. apply holds_app in Hc0. destruct Hc0 as (Hc0 & Hrest).
    rewrite (length_component_bytes_of F HF false c Hc) in Hrest.
    cbn [stripe_total fold_right] in *. fold (stripe_total cs) in *.
    pose proof (stripe_total_nonneg F cs Hcs) as Hnn.
    pose proof Hc as (Hn & Hr & Hsc & Hpl & Hz).
    set (sc := counter c LUSTRE_COMP_STRIPE_COUNT) in *.
    (* the first component *)
    assert (E1 : print_component F names rec file_name mnt_pt fs_type (i0 + 0)
                   (Some (out, g))
                 = Some (out
                         ++ map (counter_line stem tail rank id file_name mnt_pt
                                   fs_type i0 c)
                              (upto NUM)
                         ++ [pool_name_line F stem rank id file_name mnt_pt
                               fs_type i0 c]
                         ++ map (fun k => ost_id_line F stem rank id file_name
                                            mnt_pt fs_type i0 k
                                            (nth (Z.to_nat k)
                                               (skipn (Z.to_nat g) ids) 0))
                              (upto (Z.of_nat (Z.to_nat sc))),
                         g + sc)).
    { unfold print_component. rewrite Z.add_0_r, Hcb, <- Hrank, <- Hid.
      rewrite (counter_loop i0 c
                 (fun j => load64 (sizeof_lustre_record + i0 * sz + 8 * j) (mem rec)))
        by (try assumption; try lia;
            intros j Hj; now apply (component_counter F _ _ c _ Hc Hc0)).
      cbv beta iota zeta.
      rewrite (component_counter F _ _ c _ Hc Hc0)
        by (unfold LUSTRE_COMP_STRIPE_COUNT; lia).
      fold sc.
      rewrite (ost_loop
                 (fun j gi => ost_id_print rank id file_name mnt_pt fs_type
                                (stem (NUM - 1)) i0 j
                                (load64 (osts_base rec + 8 * gi) (mem rec))))
        by lia.
      rewrite Z.max_r by lia. rewrite Z2Nat.id by lia.
      assert (Epool : c_string
                        (skipn (Z.to_nat (sizeof_lustre_record + i0 * sz
                                          + off_pool_name F)) (mem rec))
                      = pool_name c).
      { unfold component_bytes_of in Hc0.
        apply holds_app in Hc0. destruct Hc0 as (_ & Htail).
        rewrite length_words in Htail.
        replace (sizeof_lustre_record + i0 * sz + off_pool_name F)
          with (sizeof_lustre_record + i0 * sz
                + Z.of_nat (8 * length (counters c))) by lia.
        rewrite (holds_skipn _ _ _ Htail), <- app_assoc.
        remember (Z.to_nat (sz - off_pool_name F) - length (pool_name c))%nat
          as k eqn:Ek.
        destruct k as [|k]; [lia|].
        cbn [zeros repeat app]. now apply c_string_terminated. }
      rewrite Epool, pool_name_print_line by lia.
      rewrite <- !app_assoc. do 3 f_equal.
      f_equal. cbn [app]. f_equal.
      apply map_ext_in. intros j Hj. apply in_upto in Hj.
      rewrite ost_id_print_line by lia.
      f_equal. rewrite nth_skipn.
      replace (g + j) with (Z.of_nat (Z.to_nat g + Z.to_nat j)) by lia.
      apply holds_words_nth; [assumption | lia|].
      rewrite Forall_forall in Hir. apply Hir. apply nth_In. lia. }
    rewrite E1.
    rewrite (for_upto_ext _ _
               (fun i st => print_component F names rec file_name mnt_pt fs_type
                              (i0 + 1 + i) st))
      by (intros; f_equal; lia).
    rewrite IH; try assumption; try lia.
    + cbn [component_lines]. fold sc.
      rewrite <- !app_assoc. rewrite skipn_skipn.
      replace (Z.to_nat sc + Z.to_nat g)%nat with (Z.to_nat (g + sc)) by lia.
      do 2 f_equal. lia.
    + replace (sizeof_lustre_record + (i0 + 1) * sz)
        with (sizeof_lustre_record + i0 * sz + sz) by lia.
      exact Hrest.
Qed.

End PrintFacts.


Lemma print_lustre_record_laid_out (F : format) (names stem tail : Z -> string)
    (rec : block) (r : lustre_record) (file_name mnt_pt fs_type : string) :
  format_ok F -> names_split F names stem tail ->
  lustre_record_ok F r -> pool_names_terminated F r -> flags_fit r ->
  laid_out F rec r ->
  darshan_log_print_lustre_record F names rec file_name mnt_pt fs_type
  = Some (record_lines F stem tail r file_name mnt_pt fs_type).
Proof.
  intros HF Hnames Hr Hpool Hflags Hl.
  pose proof Hr as (Hid & Hrank & Hn & Hn1 & Hcs & Hids & Hidr & Hsize).
  pose proof Hl as (Ha & Hfit & Hh & Hcp & Hop & Hc & Hi).
  pose proof (stripe_total_nonneg F (comps r) Hcs) as Ht.
  destruct (sizeof_lustre_component_bounds F HF) as (Hs & _).
  pose proof HF as (_ & _ & HN & HP).
  unfold record_size in *.
  change sizeof_lustre_record with 40 in *. change sizeof_OST_ID with 8 in *.
  assert (Hnsz : 1 <= num_comps r * sizeof_lustre_component F) by nia.
  destruct (header_fields _ _ _ _ Hh Hid Hrank) as (E0 & E1 & E2).
  { unfold is_int64. nia. }
  change (word false) with (le_encode 8) in Hcp, Hop.
  assert (Ec : comps_base rec = 40).
  { unfold comps_base. rewrite (holds_load_ptr _ _ _ Hcp) by lia. lia. }
  assert (Eo : osts_base rec = 40 + num_comps r * sizeof_lustre_component F).
  { unfold osts_base. rewrite (holds_load_ptr _ _ _ Hop) by lia. lia. }
  unfold darshan_log_print_lustre_record, record_lines.
  rewrite E0, E1, E2, Hn.
  rewrite (for_upto_ext _ _
             (fun i st => print_component F names rec file_name mnt_pt fs_type
                            (0 + i) st))
    by reflexivity.
  rewrite (components_loop F HF names stem tail Hnames
             (base_rec_rank r) (base_rec_id r)
             file_name mnt_pt fs_type rec (ost_ids r) (comps r) 0 _ 0);
    try (symmetry; assumption); try assumption; try lia.
  - reflexivity.
  - now rewrite Eo.
  - rewrite <- Hn. nia.
Qed.

(** X19. From the bytes of the log to the lines printed, Lustre.  Printing
    the buffer that [darshan_log_get_lustre_record] hands back for the
    bytes of a record [r] gives the line of the number of components and,
    for each component in turn: one line a counter, labelled with the
    counter's name and the component number, counted from 1, before its
    second underscore, the stripe pattern as "raid0", "mdt",
    "raid0,overstriped", "foreign" or "N/A" and the flags as the labels of
    the set bits; the pool name line, "N/A" for an empty name; and one
    line a stripe with the next identifier of the list, labelled
    [OST_ID] and the number of the stripe within the component.  Labels
    are cut to the 63 characters that fit [tmp_counter_str].  Every
    counter name is shorter than 64 characters and has two underscores,
    every pool name leaves room for its NUL, and the labels of the flags
    of every component take fewer than 64 characters. *)
Theorem printed_lines_of_a_log_record (F : format)
    (names stem tail : Z -> string)
    (fd : darshan_fd) (h : allocator) (buf_p : option block)
    (r : lustre_record) (rest : bytes) (file_name mnt_pt fs_type : string) :
  format_ok F -> names_split F names stem tail ->
  lustre_record_ok F r -> pool_names_terminated F r -> flags_fit r ->
  mod_len fd <> 0 -> version_ok F fd -> mod_ver fd <> 1 ->
  mod_data fd = lustre_bytes F (swap_flag fd) r ++ rest ->
  heap_ready h buf_p (record_size F r) ->
  exists rec,
    o_buf (darshan_log_get_lustre_record F fd h buf_p) = Some rec /\
    darshan_log_print_lustre_record F names rec file_name mnt_pt fs_type
    = Some (record_lines F stem tail r file_name mnt_pt fs_type).
Proof.
  intros HF Hnames Hr Hpool Hflags Hlen Hv Hv1 Hdata Hheap.
  destruct (get_lustre_record_layout F fd h buf_p r rest HF Hr Hlen Hv Hv1
              Hdata Hheap) as (_ & _ & rec & H3 & _ & H5).
  exists rec. split; [exact H3|].
  now apply (print_lustre_record_laid_out F names stem tail).
Qed.


(** ** Identifier lists cut short *)

(** The outcome of the current-format reader when the identifier list is
    cut short, the fixed-size part and the components being whole. *)
Lemma cut_identifier_list_outcome (F : format) (fd : darshan_fd)
    (h : allocator) (buf_p : option block) (r : lustre_record) (tail : bytes) :
  format_ok F -> header_and_components_ok F r ->
  mod_len fd <> 0 -> version_ok F fd -> mod_ver fd <> 1 ->
  mod_data fd
  = header_bytes (swap_flag fd) (base_rec_id r) (base_rec_rank r) (num_comps r)
    ++ flat_map (component_bytes_of F (swap_flag fd)) (comps r) ++ tail ->
  Z.of_nat (length tail) < sizeof_OST_ID * stripe_total (comps r) ->
  heap_ready h buf_p (record_size F r) ->
  exists rec fd3 ev,
    darshan_log_get_lustre_record F fd h buf_p = hand_back buf_p (-1) rec fd3 ev.
Proof.
  intros HF Hr Hlen Hv Hv1 Hdata Htail Hheap.
  destruct (get_lustre_record_components F fd h buf_p r tail HF Hr Hlen Hv Hv1
              Hdata Hheap)
    as (rec5 & ev & fd2 & _ & _ & _ & _ & _ & _ & Hd2 & _ & ->).
  change sizeof_OST_ID with 8 in *.
  destruct (get_mod_cases fd2 (stripe_total (comps r) * 8) ltac:(lia))
    as [(Hle & Hret)|[(Hlt & _ & Hret)|(Hlt & _ & Hret)]];
    unfold remaining in *; rewrite Hd2 in *; try lia;
    destruct (darshan_log_get_mod fd2 _) as [[ret data] fd3];
    cbn [fst] in Hret; subst ret.
  - change (-1 <? stripe_total (comps r) * 8)
      with (Z.ltb (-1) (stripe_total (comps r) * 8)).
    replace (-1 <? stripe_total (comps r) * 8) with true
      by (symmetry; apply Z.ltb_lt; lia).
    eexists; eexists; eexists; reflexivity.
  - replace (Z.of_nat (length tail) <? stripe_total (comps r) * 8) with true
      by (symmetry; apply Z.ltb_lt; lia).
    eexists; eexists; eexists; reflexivity.
Qed.

(** X11. The current-format reader on a record whose identifier list is
    cut short, the fixed-size part and the components being whole: it
    returns -1, on a short count and on a read error alike, and with a
    null buffer pointer no record is handed to the caller. *)
Theorem identifier_list_cut_short (F : format) (fd : darshan_fd) (h : allocator)
    (buf_p : option block) (r : lustre_record) (tail : bytes) :
  format_ok F -> header_and_components_ok F r ->
  mod_len fd <> 0 -> version_ok F fd -> mod_ver fd <> 1 ->
  mod_data fd
  = header_bytes (swap_flag fd) (base_rec_id r) (base_rec_rank r) (num_comps r)
    ++ flat_map (component_bytes_of F (swap_flag fd)) (comps r) ++ tail ->
  Z.of_nat (length tail) < sizeof_OST_ID * stripe_total (comps r) ->
  heap_ready h buf_p (record_size F r) ->
  let o := darshan_log_get_lustre_record F fd h buf_p in
  o_ret o = -1 /\ (buf_p = None -> o_buf o = None).
Proof.
  intros HF Hr Hlen Hv Hv1 Hdata Htail Hheap o. subst o.
  destruct (cut_identifier_list_outcome F fd h buf_p r tail HF Hr Hlen Hv Hv1
              Hdata Htail Hheap) as (rec & fd3 & ev & ->).
  rewrite hand_back_ret. split; [reflexivity|]. now intros ->.
Qed.

(** ** Records without components, written and read again *)

Lemma get_empty_record (F : format) (fd : darshan_fd) (h : allocator)
    (b : block) (id rank : Z) (rest : bytes) :
  mod_len fd <> 0 -> version_ok F fd -> mod_ver fd <> 1 ->
  is_uint64 id -> is_int64 rank ->
  mod_data fd = header_bytes (swap_flag fd) id rank 0 ++ rest ->
  block_ok b -> sizeof_lustre_record <= Z.of_nat (length (mem b)) ->
  let o := darshan_log_get_lustre_record F fd h (Some b) in
  o_ret o = fixed_size /\
  exists rec,
    o_buf o = Some rec /\ oob rec = false /\ addr rec = addr b /\
    length (mem rec) = length (mem b) /\
    holds (mem rec) 0
      (header_bytes false id rank 0 ++ le_encode 8 0 ++ le_encode 8 0).
Proof.
  intros Hlen (Hv0 & Hv) Hv1 Hid Hrank Hdata (Ha & Hfit & Hoob) Hsz o. subst o.
  unfold darshan_log_get_lustre_record.
  replace (mod_len fd =? 0) with false by (symmetry; apply Z.eqb_neq; assumption).
  replace (mod_ver fd =? 0) with false by (symmetry; apply Z.eqb_neq; assumption).
  replace (DARSHAN_LUSTRE_VER F <? mod_ver fd) with false
    by (symmetry; apply Z.ltb_ge; lia).
  replace (mod_ver fd =? 1) with false by (symmetry; apply Z.eqb_neq; assumption).
  cbn [orb].
  unfold darshan_log_get_lustre_record_cur.
  rewrite (get_mod_prefix fd fixed_size _ _ Hdata)
    by (rewrite length_header_bytes; reflexivity).
  change (fixed_size <? 0) with false. change (fixed_size <? fixed_size) with false.
  cbv iota.
  rewrite !normalize_header.
  set (hdr := header_bytes false id rank 0) in *.
  assert (Hlh : length hdr = 24%nat) by apply length_header_bytes.
  assert (Hhdr : holds hdr 0 hdr) by apply holds_self.
  destruct (header_fields _ _ _ _ Hhdr Hid Hrank) as (_ & _ & En).
  { unfold is_int64. lia. }
  rewrite !En.
  replace (mem_read 0 fixed_size hdr) with hdr
    by (symmetry; apply (holds_read _ _ _ _ Hhdr); now rewrite Hlh).
  change (0 <? 1) with true. cbv iota.
  rewrite hand_back_ret. split; [reflexivity|].
  cbn [hand_back leave o_buf].
  change sizeof_lustre_record with 40 in *.
  eexists. split; [reflexivity|].
  split.
  { unfold store64. norm_offsets.
    repeat (apply oob_poke; [ | lia | norm_lengths; lia]).
    exact Hoob. }
  split; [reflexivity|].
  split; [unfold store64; now rewrite !length_mem_poke|].
  apply holds_adjacent; [|apply holds_adjacent]; rewrite ?Hlh, ?length_le_encode;
    unfold store64; norm_offsets;
    repeat first
      [ apply holds_poke; [lia | norm_lengths; lia]
      | apply holds_poke_other; [ | norm_lengths; lia ] ].
Qed.

Lemma empty_record_view (F : format) (rec : block) (id rank : Z) :
  is_uint64 id -> is_int64 rank ->
  holds (mem rec) 0
    (header_bytes false id rank 0 ++ le_encode 8 0 ++ le_encode 8 0) ->
  record_of F rec = mk_lustre_record id rank 0 [] [] /\
  forall out : darshan_fd,
    darshan_log_put_lustre_record F out rec
    = if write_broken out then (-1, out)
      else (0, after_write out (DARSHAN_LUSTRE_VER F)
                 (header_bytes false id rank 0 ++ le_encode 8 0 ++ le_encode 8 0)).
Proof.
  intros Hid Hrank H.
  pose proof H as H'. apply holds_app in H'. destruct H' as (Hh & _).
  destruct (header_fields _ _ _ _ Hh Hid Hrank) as (E0 & E1 & E2).
  { unfold is_int64. lia. }
  split.
  - unfold record_of. rewrite E0, E1, E2. unfold count_osts.
    rewrite for_upto_0. reflexivity.
  - intros out.
    unfold darshan_log_put_lustre_record, darshan_log_put_lustre_record_with,
      LUSTRE_RECORD_SIZE_with.
    rewrite E2. unfold count_osts. rewrite for_upto_0.
    replace (to_int (to_size_t (sizeof_lustre_record
                                + sizeof_lustre_component F * 0
                                + sizeof_OST_ID * 0)))
      with 40 by (rewrite Z.mul_0_r; reflexivity).
    rewrite (holds_read _ _ _ _ H)
      by (rewrite !length_app, length_header_bytes, !length_le_encode; reflexivity).
    unfold darshan_log_put_mod. destruct (write_broken out); reflexivity.
Qed.

(** X14. A record without components read into the caller's buffer, then
    written with [darshan_log_put_lustre_record] and read into a caller's
    buffer again, is the same record, with both arrays empty; the second
    read returns the size of the fixed-size part, 24, not 1. *)
Theorem empty_record_round_trip (F : format) (fd : darshan_fd) (h : allocator)
    (b b' : block) (id rank : Z) (rest : bytes) :
  2 <= DARSHAN_LUSTRE_VER F ->
  mod_len fd <> 0 -> version_ok F fd -> mod_ver fd <> 1 ->
  is_uint64 id -> is_int64 rank ->
  mod_data fd = header_bytes (swap_flag fd) id rank 0 ++ rest ->
  block_ok b -> sizeof_lustre_record <= Z.of_nat (length (mem b)) ->
  block_ok b' -> sizeof_lustre_record <= Z.of_nat (length (mem b')) ->
  let R := mk_lustre_record id rank 0 [] [] in
  let o := darshan_log_get_lustre_record F fd h (Some b) in
  decoded F o = Some R /\
  exists rec,
    o_buf o = Some rec /\
    o_ret (put_then_get F h rec (Some b')) = fixed_size /\
    decoded F (put_then_get F h rec (Some b')) = Some R.
Proof.
  intros HV2 Hlen Hv Hv1 Hid Hrank Hdata Hb Hsz Hb' Hsz' R o. subst o.
  destruct (get_empty_record F fd h b id rank rest Hlen Hv Hv1 Hid Hrank Hdata
              Hb Hsz) as (_ & rec & Hrec & _ & _ & _ & Hh).
  destruct (empty_record_view F rec id rank Hid Hrank Hh) as (Eview & Eput).
  unfold decoded. rewrite Hrec. cbn [option_map]. rewrite Eview.
  split; [reflexivity|].
  exists rec. split; [reflexivity|].
  unfold put_then_get. rewrite Eput.
  cbn [log_of write_broken after_write written app].
  assert (HV : DARSHAN_LUSTRE_VER F <> 0 /\ DARSHAN_LUSTRE_VER F <> 1) by lia.
  destruct (get_empty_record F
              (log_of (DARSHAN_LUSTRE_VER F) false
                 (header_bytes false id rank 0 ++ le_encode 8 0 ++ le_encode 8 0))
              h b' id rank (le_encode 8 0 ++ le_encode 8 0))
    as (Hret' & rec' & Hrec' & _ & _ & _ & Hh');
    try assumption; try reflexivity.
  { cbn [log_of mod_len]. rewrite !length_app, length_header_bytes. cbn. lia. }
  { split; cbn [log_of mod_ver]; [tauto | lia]. }
  { cbn [log_of mod_ver]. tauto. }
  split; [exact Hret'|].
  rewrite Hrec'. cbn [option_map].
  now rewrite (proj1 (empty_record_view F rec' id rank Hid Hrank Hh')).
Qed.


(** ** The STDIO printer on a decoded record *)

Lemma combine_map_r {A B C : Type} (f : A -> B) (g : A * B -> C) (l : list A) :
  map g (combine l (map f l)) = map (fun x => g (x, f x)) l.
Proof. induction l as [|x l IH]; cbn; [reflexivity | now rewrite IH]. Qed.

Lemma length_upto (n : Z) : Z.of_nat (length (upto n)) = Z.max 0 n.
Proof. unfold upto. rewrite length_map, length_seq. lia. Qed.

Lemma print_stdio_record_of (F : format)
    (stdio_counter_names stdio_f_counter_names : Z -> string) (file : block)
    (file_name mnt_pt fs_type : string) (ver : Z) :
  0 <= STDIO_NUM_INDICES F -> 0 <= STDIO_F_NUM_INDICES F ->
  darshan_log_print_stdio_record F stdio_counter_names stdio_f_counter_names
    file file_name mnt_pt fs_type ver
  = stdio_record_lines stdio_counter_names stdio_f_counter_names
      (stdio_record_of F file) file_name mnt_pt fs_type.
Proof.
  intros HN HFN.
  unfold darshan_log_print_stdio_record, stdio_record_lines, stdio_record_of.
  cbn [stdio_rank stdio_id stdio_counters stdio_fcounters].
  rewrite !for_upto_collect. cbn [app].
  rewrite !length_map.
  rewrite !length_upto, !Z.max_r by lia.
  rewrite !combine_map_r.
  f_equal; induction (upto _) as [|i l IH]; cbn; try reflexivity;
    now rewrite IH.
Qed.

(** X3. From the bytes of the log to the lines printed, STDIO.  Printing
    the buffer that [darshan_log_get_stdio_record] hands back for the
    bytes of a record [r] gives one [DARSHAN_COUNTER_PRINT] line per
    integer counter, in index order, then one [DARSHAN_F_COUNTER_PRINT]
    line per floating point counter, each with the rank and id of [r], the
    counter's name and value, and the file name, mount point and file
    system type passed in; the version argument plays no part. *)
Theorem printed_lines_of_a_stdio_record (F : format)
    (stdio_counter_names stdio_f_counter_names : Z -> string)
    (fd : darshan_fd) (h : allocator) (buf_p : option block) (r : stdio_file)
    (rest : bytes) (file_name mnt_pt fs_type : string) (ver : Z) :
  format_ok F -> stdio_file_ok F r -> mod_len fd <> 0 ->
  mod_data fd = stdio_bytes (swap_flag fd) r ++ rest ->
  buffer_ready h buf_p (sizeof_stdio_file F) ->
  exists rec,
    o_buf (darshan_log_get_stdio_record F fd h buf_p) = Some rec /\
    darshan_log_print_stdio_record F stdio_counter_names stdio_f_counter_names
      rec file_name mnt_pt fs_type ver
    = stdio_record_lines stdio_counter_names stdio_f_counter_names r
        file_name mnt_pt fs_type.
Proof.
  intros HF Hr Hlen Hdata Hbuf.
  destruct (get_stdio_record_outcome F fd h buf_p r rest HF Hr Hlen Hdata Hbuf)
    as (rec & -> & _ & Hview).
  exists rec. split; [reflexivity|].
  pose proof HF as (HN & HFN & _).
  rewrite print_stdio_record_of by lia. now rewrite Hview.
Qed.


(** ** Return codes on whole records *)

(** The legacy reader returns 1 on a block that is whole: seven words and
    as many identifiers as the seventh announces. *)
Lemma legacy_whole_block_code (F : format) (fd : darshan_fd) (h : allocator)
    (buf_p : option block) (vs ids : list Z) (rest : bytes) :
  mod_len fd <> 0 -> version_ok F fd -> mod_ver fd = 1 ->
  length vs = 7%nat ->
  0 <= nth 6 vs 0 -> sizeof_OST_ID * nth 6 vs 0 < 2 ^ 31 ->
  Z.of_nat (length ids) = nth 6 vs 0 ->
  mod_data fd = words (swap_flag fd) vs ++ words (swap_flag fd) ids ++ rest ->
  buffer_available h buf_p ->
  o_ret (darshan_log_get_lustre_record F fd h buf_p) = 1.
Proof.
  intros Hlen (_ & HV) Hver Hvs Hc Hcb Hids Hdata Hav.
  remember (nth 6 vs 0) as c eqn:Ec0.
  change sizeof_OST_ID with 8 in *.
  unfold darshan_log_get_lustre_record.
  replace (mod_len fd =? 0) with false by (symmetry; apply Z.eqb_neq; assumption).
  rewrite Hver in *.
  replace (DARSHAN_LUSTRE_VER F <? 1) with false by (symmetry; apply Z.ltb_ge; lia).
  cbn [Z.eqb orb Pos.eqb].
  unfold darshan_log_get_lustre_record_v1.
  rewrite (get_mod_prefix fd (7 * 8) _ _ Hdata)
    by (rewrite length_words, Hvs; reflexivity).
  change (7 * 8 <? 0) with false. change (7 * 8 <? 7 * 8) with false.
  cbv iota.
  rewrite !(legacy_header _ _ Hvs).
  assert (Ec : load64 (8 * 6) (words false vs) = c).
  { rewrite Ec0.
    apply (holds_words_nth (words false vs) 0 vs 6 (holds_self _)).
    - rewrite Hvs. lia.
    - rewrite <- Ec0. unfold is_int64. lia. }
  rewrite !Ec.
  change sizeof_OST_ID with 8.
  rewrite (to_size_t_small (c * 8)) by lia.
  rewrite (to_int_small (c * 8)) by lia.
  rewrite (get_mod_prefix (after_read fd (7 * 8) _) (c * 8) _ rest eq_refl)
    by (rewrite length_words; lia).
  rewrite (to_size_t_small (c * 8)) by lia.
  rewrite Z.ltb_irrefl.
  destruct buf_p as [b|]; [now rewrite hand_back_ret|].
  unfold malloc.
  destruct (malloc_ret h) as [a|] eqn:Hm;
    [now rewrite hand_back_ret|].
  destruct Hav as [Hav|Hav]; congruence.
Qed.

(** The current-format reader on a record that announces no component
    returns the count of its fixed-size read. *)
Lemma no_component_code (F : format) (fd : darshan_fd) (h : allocator)
    (buf_p : option block) :
  mod_len fd <> 0 -> version_ok F fd -> mod_ver fd <> 1 ->
  fixed_size <= remaining fd -> buffer_available h buf_p ->
  peek_num_comps fd < 1 ->
  o_ret (darshan_log_get_lustre_record F fd h buf_p) = fixed_size.
Proof.
  intros Hlen (Hv0 & Hv) Hv1 Hrem Hav Hn.
  unfold darshan_log_get_lustre_record.
  replace (mod_len fd =? 0) with false by (symmetry; apply Z.eqb_neq; assumption).
  replace (mod_ver fd =? 0) with false by (symmetry; apply Z.eqb_neq; assumption).
  replace (DARSHAN_LUSTRE_VER F <? mod_ver fd) with false
    by (symmetry; apply Z.ltb_ge; lia).
  replace (mod_ver fd =? 1) with false by (symmetry; apply Z.eqb_neq; assumption).
  cbn [orb].
  unfold darshan_log_get_lustre_record_cur.
  pose proof (get_mod_full_data fd fixed_size ltac:(reflexivity)) as Hd.
  destruct (get_mod_cases fd fixed_size
              ltac:(unfold fixed_size, sizeof_base_record; lia))
    as [(_ & Hr)|[(Hlt & _)|(Hlt & _)]]; try lia.
  rewrite Hr in Hd. specialize (Hd ltac:(lia)).
  destruct (darshan_log_get_mod fd fixed_size) as [[ret data] fd1].
  cbn [fst snd] in Hr, Hd. subst ret data.
  change (fixed_size <? 0) with false. change (fixed_size <? fixed_size) with false.
  cbv iota zeta. fold (peek_num_comps fd).
  replace (peek_num_comps fd <? 1) with true by (symmetry; apply Z.ltb_lt; lia).
  destruct buf_p as [b|]; [now rewrite hand_back_ret|].
  unfold malloc.
  destruct (malloc_ret h) as [a|] eqn:Hm; [now rewrite hand_back_ret|].
  destruct Hav as [Hav|Hav]; congruence.
Qed.

(** The code of the Lustre reader is the count of the fixed-size read in
    one case only. *)
Lemma get_lustre_record_code_cases (F : format) (fd : darshan_fd)
    (h : allocator) (buf_p : option block) :
  let o := darshan_log_get_lustre_record F fd h buf_p in
  let no_component :=
    mod_len fd <> 0 /\ version_ok F fd /\ mod_ver fd <> 1 /\
    fixed_size <= remaining fd /\ buffer_available h buf_p /\
    peek_num_comps fd < 1 in
  (no_component /\ o_ret o = fixed_size) \/
  (~ no_component /\ (o_ret o = -1 \/ o_ret o = 0 \/ o_ret o = 1)).
Proof.
  cbv zeta.
  destruct (get_lustre_record_code F fd h buf_p) as (H0 & Hbad & Hbroken & Hbuf & Hrange).
  cbv zeta in H0, Hbad, Hbroken, Hbuf, Hrange.
  destruct (Z.eq_dec (mod_len fd) 0) as [Hlen|Hlen].
  { right. split; [tauto|]. right. left. apply H0. now left. }
  assert (Hvd : version_ok F fd \/ ~ version_ok F fd).
  { unfold version_ok.
    destruct (Z.eq_dec (mod_ver fd) 0); [right; tauto|].
    destruct (Z_le_dec (mod_ver fd) (DARSHAN_LUSTRE_VER F)); [left|right]; tauto. }
  destruct Hvd as [Hv|Hv]; [|right; split; [tauto|]; left; now apply Hbad].
  destruct (Z.eq_dec (mod_ver fd) 1) as [Hv1|Hv1].
  { right. split; [tauto|]. apply Hrange. now left. }
  assert (Hfp : fixed_part fd = fixed_size).
  { unfold fixed_part.
    now replace (mod_ver fd =? 1) with false by (symmetry; apply Z.eqb_neq; assumption). }
  rewrite Hfp in *.
  destruct (Z_lt_le_dec (remaining fd) fixed_size) as [Hrem|Hrem].
  { right. split; [lia|].
    destruct (mod_broken fd) eqn:Hb.
    - left. now apply Hbroken.
    - right. left. apply H0. right. auto. }
  assert (Hav : buffer_available h buf_p \/ ~ buffer_available h buf_p).
  { unfold buffer_available. destruct buf_p; [left; left; discriminate|].
    destruct (malloc_ret h); [left; right; discriminate|].
    right. intros [H|H]; congruence. }
  destruct Hav as [Hav|Hav]; [|right; split; [tauto|]; left; now apply Hbuf].
  destruct (Z_lt_le_dec (peek_num_comps fd) 1) as [Hn|Hn].
  - left. split; [tauto|]. now apply no_component_code.
  - right. split; [lia|]. apply Hrange. now right.
Qed.

(** C6, as amended.  The code of a successful decode is 1, not the number
    of bytes decoded, with one exception: a Lustre record that announces
    no component gives 24, the size of its fixed-size part.

    For the STDIO reader the code is -1, 0 or 1: 0 exactly when the region
    is absent or the record cannot be read in full without a read error
    (region exhausted, or a partial record left), 1 exactly when a whole
    record was read, -1 otherwise.

    For the Lustre reader the code is -1, 0, 1 or 24.  It is 0 exactly when
    the region is absent or the fixed-size part of the next record comes
    back short without a read error.  It is 24 exactly when the region is
    present, the version is valid and not the legacy one, the fixed-size
    part is read in full, a buffer can be had and the record announces no
    component.  It is 1 on every whole record of
    the current format with at least one component and on every whole
    legacy block.  It is -1 when the version is invalid, when reading the
    fixed-size part fails, when no buffer can be had, and when the
    identifier list of a current-format record is cut short. *)
Theorem get_record_return_codes (F : format) (fd : darshan_fd) (h : allocator)
    (buf_p : option block) :
  format_ok F ->
  let s := darshan_log_get_stdio_record F fd h buf_p in
  let l := darshan_log_get_lustre_record F fd h buf_p in
  ((o_ret s = -1 \/ o_ret s = 0 \/ o_ret s = 1) /\
   (o_ret s = 0 <->
      mod_len fd = 0 \/
      (buffer_available h buf_p /\ remaining fd < sizeof_stdio_file F
       /\ mod_broken fd = false)) /\
   (o_ret s = 1 <->
      mod_len fd <> 0 /\ buffer_available h buf_p
      /\ sizeof_stdio_file F <= remaining fd)) /\
  ((o_ret l = 0 <->
      mod_len fd = 0 \/
      (version_ok F fd /\ remaining fd < fixed_part fd
       /\ mod_broken fd = false)) /\
   (mod_len fd <> 0 -> ~ version_ok F fd -> o_ret l = -1) /\
   (mod_len fd <> 0 -> version_ok F fd -> remaining fd < fixed_part fd ->
    mod_broken fd = true -> o_ret l = -1) /\
   (mod_len fd <> 0 -> version_ok F fd -> fixed_part fd <= remaining fd ->
    ~ buffer_available h buf_p -> o_ret l = -1) /\
   (mod_ver fd = 1 \/ 1 <= peek_num_comps fd ->
    o_ret l = -1 \/ o_ret l = 0 \/ o_ret l = 1)) /\
  ((o_ret l = -1 \/ o_ret l = 0 \/ o_ret l = 1 \/ o_ret l = fixed_size) /\
   (o_ret l = fixed_size <->
      mod_len fd <> 0 /\ version_ok F fd /\ mod_ver fd <> 1 /\
      fixed_size <= remaining fd /\ buffer_available h buf_p /\
      peek_num_comps fd < 1) /\
   (forall (r : lustre_record) (rest : bytes),
       lustre_record_ok F r ->
       mod_len fd <> 0 -> version_ok F fd -> mod_ver fd <> 1 ->
       mod_data fd = lustre_bytes F (swap_flag fd) r ++ rest ->
       heap_ready h buf_p (record_size F r) ->
       o_ret l = 1) /\
   (forall (vs ids : list Z) (rest : bytes),
       mod_len fd <> 0 -> version_ok F fd -> mod_ver fd = 1 ->
       length vs = 7%nat ->
       0 <= nth 6 vs 0 -> sizeof_OST_ID * nth 6 vs 0 < 2 ^ 31 ->
       Z.of_nat (length ids) = nth 6 vs 0 ->
       mod_data fd
       = words (swap_flag fd) vs ++ words (swap_flag fd) ids ++ rest ->
       buffer_available h buf_p ->
       o_ret l = 1) /\
   (forall (r : lustre_record) (tail : bytes),
       header_and_components_ok F r ->
       mod_len fd <> 0 -> version_ok F fd -> mod_ver fd <> 1 ->
       mod_data fd
       = header_bytes (swap_flag fd) (base_rec_id r) (base_rec_rank r)
           (num_comps r)
         ++ flat_map (component_bytes_of F (swap_flag fd)) (comps r) ++ tail ->
       Z.of_nat (length tail) < sizeof_OST_ID * stripe_total (comps r) ->
       heap_ready h buf_p (record_size F r) ->
       o_ret l = -1)).
Proof.
  intros HF. split; [|split].
  - apply get_stdio_record_code. exact HF.
  - apply get_lustre_record_code.
  - pose proof (get_lustre_record_code_cases F fd h buf_p) as Hcases.
    cbv zeta in Hcases.
    assert (Hfs : fixed_size = 24) by reflexivity.
    split; [|split; [|split; [|split]]].
    + destruct Hcases as [(_ & H)|(_ & H)]; tauto.
    + destruct Hcases as [(Hc & H)|(Hc & H)]; [tauto|].
      split; [lia | tauto].
    + intros r rest Hr Hlen Hv Hv1 Hdata Hheap.
      now destruct (get_lustre_record_layout F fd h buf_p r rest HF Hr Hlen Hv
                      Hv1 Hdata Hheap) as (H & _).
    + intros vs ids rest. apply legacy_whole_block_code.
    + intros r tail Hr Hlen Hv Hv1 Hdata Htail Hheap.
      destruct (cut_identifier_list_outcome F fd h buf_p r tail HF Hr Hlen Hv
                  Hv1 Hdata Htail Hheap) as (rec & fd3 & ev & ->).
      apply hand_back_ret.
Qed.


(** * The code on sample inputs *)

(** The sample format is well formed. *)
Lemma format_ok_sample : format_ok sample_format.
Proof. unfold format_ok. cbn. lia. Defined.

(** The legacy reader on [legacy_stream], with a null buffer pointer. *)
Lemma legacy_record_is_upgraded_witness :
  let o := darshan_log_get_lustre_record sample_format
             (log_of 1 false legacy_stream) sample_heap None in
  o_ret o = 1 /\
  exists rec c,
    o_buf o = Some rec /\ oob rec = false /\
    num_comps (record_of sample_format rec) = 1 /\
    comps (record_of sample_format rec) = [c] /\
    counter c LUSTRE_COMP_STRIPE_SIZE = 65536 /\
    counter c LUSTRE_COMP_STRIPE_COUNT = 4 /\
    counter c LUSTRE_COMP_STRIPE_PATTERN = -1 /\
    counter c LUSTRE_COMP_FLAGS = -1 /\
    counter c LUSTRE_COMP_EXT_START = 0 /\
    counter c LUSTRE_COMP_EXT_END = -1 /\
    counter c LUSTRE_COMP_MIRROR_ID = -1 /\
    pool_name c = [] /\
    ost_ids (record_of sample_format rec) = [1; 2; 3; 4].
Proof.
  apply (legacy_record_is_upgraded sample_format
           (log_of 1 false legacy_stream) sample_heap None
           (word false 7 ++ word false 3 ++ word false 100 ++ word false 101
            ++ word false 102) []).
  - exact format_ok_sample.
  - vm_compute. discriminate.
  - reflexivity.
  - vm_compute. discriminate.
  - reflexivity.
  - reflexivity.
  - exists 256. vm_compute. repeat split; discriminate.
Defined.

(** C6, the claim as stated fails.  A Lustre record of one component and two
    identifiers is decoded from 112 bytes and the code is 1; a whole STDIO
    record of 264 bytes is decoded and the code is 1; and a region that
    ends in the middle of a STDIO record gives 0, not a negative code. *)
Lemma get_record_code_is_not_byte_count :
  let F := sample_format in
  let fd := log_of 2 false one_component_stream in
  let o := darshan_log_get_lustre_record F fd sample_heap None in
  let fd1 := log_of 2 false (zeros 264) in
  let o1 := darshan_log_get_stdio_record F fd1 sample_heap None in
  let fd2 := log_of 2 false (zeros 10) in
  let o2 := darshan_log_get_stdio_record F fd2 sample_heap None in
  (o_ret o = 1 /\ consumed fd o = 112 /\
   decoded F o
   = Some (mk_lustre_record 7 3 1
             [mk_component [1048576; 2; 0; 0; 0; -1; 0] []] [11; 12])) /\
  (o_ret o1 = 1 /\ consumed fd1 o1 = 264 /\ sizeof_stdio_file F = 264) /\
  (o_ret o2 = 0 /\ consumed fd2 o2 = 10 /\ o_buf o2 = None).
Proof. vm_compute. repeat split; reflexivity. Qed.

(** C9, the claim as stated fails: asked for version 1, the STDIO writer
    tags the record with [DARSHAN_STDIO_VER], here 2. *)
Lemma put_stdio_record_not_requested_version :
  ~ (forall (F : format) (fd : darshan_fd) (rec : block) (ver : Z),
        write_broken fd = false ->
        map fst (written (snd (darshan_log_put_stdio_record F fd rec ver)))
        = map fst (written fd) ++ [ver]).
Proof.
  intros H.
  specialize (H sample_format (log_of 2 false []) sample_buffer 1 eq_refl).
  vm_compute in H. discriminate H.
Qed.

(** C7, the claim as stated fails: two records that differ in a component
    counter and in an identifier, and a record against an absent one, give
    no line of output. *)
Lemma lustre_record_diff_is_silent :
  let F := sample_format in
  let a := darshan_log_get_lustre_record F
             (log_of 2 false one_component_stream) sample_heap None in
  let b := darshan_log_get_lustre_record F
             (log_of 2 false
                (header_bytes false 7 3 1 ++ component_bytes 65536 2
                 ++ word false 11 ++ word false 40))
             sample_heap None in
  decoded F a
  = Some (mk_lustre_record 7 3 1
            [mk_component [1048576; 2; 0; 0; 0; -1; 0] []] [11; 12]) /\
  decoded F b
  = Some (mk_lustre_record 7 3 1
            [mk_component [65536; 2; 0; 0; 0; -1; 0] []] [11; 40]) /\
  darshan_log_print_lustre_record_diff (o_buf a) "a" (o_buf b) "b" = [] /\
  darshan_log_print_lustre_record_diff (o_buf a) "a" None "b" = [] /\
  darshan_log_print_lustre_record_diff None "a" (o_buf b) "b" = [].
Proof. vm_compute. repeat split; reflexivity. Qed.

(** C1, the code on a record of one component.  The record is decoded from
    well-formed bytes; [put_record] writes the 128 bytes of the buffer as
    they lie in memory, the two pointer members [comps] and [ost_ids]
    between [num_comps] and the first component included, so what is
    written is not what was read; reading it again, into a fresh buffer or
    into the caller's, returns -1 and gives no equal record. *)
Theorem put_then_get_loses_the_record :
  let F := sample_format in
  let o := darshan_log_get_lustre_record F
             (log_of 2 false one_component_stream) sample_heap None in
  let R := mk_lustre_record 7 3 1
             [mk_component [1048576; 2; 0; 0; 0; -1; 0] []] [11; 12] in
  o_ret o = 1 /\ decoded F o = Some R /\ option_map oob (o_buf o) = Some false /\
  option_map (fun rec => map (firstn 40) (put_bytes F rec)) (o_buf o)
  = Some [header_bytes false 7 3 1 ++ word false (512 + 40)
          ++ word false (512 + 40 + 72)] /\
  option_map (fun rec => map (@length byte) (put_bytes F rec)) (o_buf o)
  = Some [128%nat] /\
  option_map (fun rec => put_bytes F rec) (o_buf o)
  <> Some [one_component_stream] /\
  option_map (fun rec => o_ret (put_then_get F sample_heap rec None)) (o_buf o)
  = Some (-1) /\
  option_map (fun rec => decoded F (put_then_get F sample_heap rec None)) (o_buf o)
  = Some None /\
  option_map (fun rec => o_ret (put_then_get F sample_heap rec (Some sample_buffer)))
    (o_buf o) = Some (-1) /\
  option_map (fun rec => decoded F (put_then_get F sample_heap rec (Some sample_buffer)))
    (o_buf o) <> Some (Some R).
Proof.
  vm_compute. repeat split; try reflexivity; intros H; discriminate H.
Qed.

(** C2, the code on a truncated record.  The header announces two
    components and 88 bytes follow, fewer than the 144 of two components.
    The short read sets the code to -1, but the code goes on, sums the
    stripe counts (0), asks for 0 bytes of identifiers, gets them, and
    returns 1: the caller is handed a record whose second component holds
    whatever the buffer held. *)
Theorem get_record_accepts_truncated_components :
  let F := sample_format in
  let fd := log_of 2 false truncated_stream in
  let o := darshan_log_get_lustre_record F fd sample_heap None in
  remaining fd = fixed_size + 88 /\ 88 < 2 * sizeof_lustre_component F /\
  asked (o_fd o) = [24; 144; 0] /\
  o_ret o = 1 /\
  decoded F o
  = Some (mk_lustre_record 7 3 2
            [mk_component [1048576; 0; 0; 0; 0; -1; 0] [];
             mk_component [1048576; 0; -1; -1; -1; -1; -1] (repeat xff 16)]
            []) /\
  o_ret (darshan_log_get_lustre_record F fd sample_heap (Some sample_buffer)) = 1.
Proof. vm_compute. repeat split; try reflexivity; discriminate. Qed.

(** C4, the code on a record without components.  With a null buffer
    pointer the reader returns the size of the fixed-size part, 24, and,
    the code not being 1, frees the record it built: the caller gets no
    record.  With a caller's buffer the record is there, its two arrays
    empty, and [put_record] writes [LUSTRE_RECORD_SIZE(0, 0)] bytes, the
    size of the record structure. *)
Theorem get_record_drops_empty_record :
  let F := sample_format in
  let fd := log_of 2 false no_component_stream in
  let o := darshan_log_get_lustre_record F fd sample_heap None in
  let o' := darshan_log_get_lustre_record F fd sample_heap (Some sample_buffer) in
  (o_ret o = 24 /\ o_buf o = None /\ o_heap o = [Malloc 40; Free 256]) /\
  (o_ret o' = 24 /\
   decoded F o' = Some (mk_lustre_record 7 3 0 [] []) /\
   option_map (fun rec => map (@length byte) (put_bytes F rec)) (o_buf o')
   = Some [Z.to_nat (LUSTRE_RECORD_SIZE F 0 0)] /\
   LUSTRE_RECORD_SIZE F 0 0 = sizeof_lustre_record).
Proof. vm_compute. repeat split; reflexivity. Qed.

(** C5, the code on a truncated record of the other byte order.  The
    header is reversed before use and the component read asks for 72
    bytes, one component.  Only 16 bytes are left; the counters are not
    reversed after the short read, and the identifier count is summed from
    them as they are: the stripe count, 1 on disk, is read as 2^56, the sum
    wraps to 0 and 0 bytes of identifiers are asked for instead of 8. *)
Theorem identifier_count_from_raw_bytes :
  let F := sample_format in
  let fd := log_of 2 true truncated_swapped_stream in
  let o := darshan_log_get_lustre_record F fd sample_heap None in
  peek_num_comps fd = 1 /\
  load64 0 (bswap64_bytes 0 (word true 1)) = 1 /\
  load64 0 (word true 1) = 2 ^ 56 /\
  asked (o_fd o) = [24; 72; 0] /\
  o_ret o = 1 /\
  option_map (fun r => map (fun c => counter c LUSTRE_COMP_STRIPE_COUNT) (comps r))
    (decoded F o) = Some [2 ^ 56].
Proof. vm_compute. repeat split; reflexivity. Qed.

(** C8, the code on the twelve flags all set.  The labels with their commas
    take 86 characters; [strncat] stops at 64 and the last of them is
    dropped, so the rendering ends in the middle of the ninth label.  The
    three renderings the claim singles out are as it says. *)
Theorem flags_rendering_is_cut :
  lustre_flags_str 4095
  = "stale,prefrd,prefwr,offline,init,nosync,extension,parity,compre"%string /\
  flags_as_specified 4095
  = "stale,prefrd,prefwr,offline,init,nosync,extension,parity,compress,partial,nocompr,neg"%string /\
  lustre_flags_str 5 = "stale,prefwr"%string /\
  lustre_flags_str 0 = "0"%string /\
  lustre_flags_str (-1) = "N/A"%string.
Proof. vm_compute. repeat split; reflexivity. Qed.

(** * Whole records on sample inputs *)

Ltac in_range := unfold is_int64, is_uint64; lia.
Ltac all_in_range := repeat (apply Forall_cons; [in_range|]); apply Forall_nil.

Lemma stdio_file_ok_sample : stdio_file_ok sample_format sample_stdio_record.
Proof.
  unfold stdio_file_ok, sample_stdio_record.
  cbn [stdio_id stdio_rank stdio_counters stdio_fcounters].
  split; [in_range|]. split; [in_range|]. split; [reflexivity|].
  split; [all_in_range|]. split; [reflexivity | all_in_range].
Defined.

Lemma malloc_ready_sample (size : Z) :
  size <= 2 ^ 32 -> buffer_ready sample_heap None size.
Proof. intros H. exists 256. split; [reflexivity | lia]. Defined.

Lemma heap_ready_sample (size : Z) :
  size <= 2 ^ 32 -> heap_ready sample_heap None size.
Proof.
  intros H. split; [discriminate|]. exists 512. split; [reflexivity | lia].
Defined.

Lemma component_ok_sample (cs : list Z) (pool : bytes) :
  length cs = 7%nat -> Forall is_int64 cs -> 0 <= nth 1 cs 0 ->
  (length pool <= 16)%nat -> forallb (fun b => negb (Byte.eqb b x00)) pool = true ->
  component_ok sample_format (mk_component cs pool).
Proof.
  intros Hl Hr Hc Hp Hz. unfold component_ok. cbn [counters pool_name].
  split; [rewrite Hl; reflexivity|]. split; [assumption|].
  split; [exact Hc|]. split; [cbn; lia|].
  intros Hin. rewrite forallb_forall in Hz. specialize (Hz _ Hin).
  discriminate Hz.
Defined.

Lemma lustre_record_ok_sample : lustre_record_ok sample_format sample_record.
Proof.
  unfold lustre_record_ok, sample_record.
  cbn [base_rec_id base_rec_rank num_comps comps ost_ids].
  split; [in_range|]. split; [in_range|]. split; [reflexivity|].
  split; [lia|]. split.
  { apply Forall_cons; [|apply Forall_nil].
    apply component_ok_sample;
      [reflexivity | all_in_range | cbn; lia | cbn; lia | reflexivity]. }
  split; [reflexivity|]. split; [all_in_range|].
  vm_compute. reflexivity.
Defined.

Lemma lustre_record_ok_sample_2 : lustre_record_ok sample_format sample_record_2.
Proof.
  unfold lustre_record_ok, sample_record_2.
  cbn [base_rec_id base_rec_rank num_comps comps ost_ids].
  split; [in_range|]. split; [in_range|]. split; [reflexivity|].
  split; [lia|]. split.
  { apply Forall_cons; [|apply Forall_cons; [|apply Forall_nil]];
      apply component_ok_sample;
      [reflexivity | all_in_range | cbn; lia | cbn; lia | reflexivity
      |reflexivity | all_in_range | cbn; lia | cbn; lia | reflexivity]. }
  split; [reflexivity|]. split; [all_in_range|].
  vm_compute. reflexivity.
Defined.

Lemma names_split_sample :
  names_split sample_format sample_names sample_stem sample_tail.
Proof.
  intros j Hj.
  change (LUSTRE_COMP_NUM_INDICES sample_format) with 7 in Hj.
  assert (E : j = 0 \/ j = 1 \/ j = 2 \/ j = 3 \/ j = 4 \/ j = 5 \/ j = 6)
    by lia.
  split.
  - destruct E as [-> | [-> | [-> | [-> | [-> | [-> | ->]]]]]];
      vm_compute; lia.
  - exists "LUSTRE"%string, "COMP"%string.
    exists (substring 1 63 (sample_tail j)).
    split; [cbn; repeat split; discriminate|].
    split; [cbn; repeat split; discriminate|].
    split; [reflexivity|].
    destruct E as [-> | [-> | [-> | [-> | [-> | [-> | ->]]]]]];
      split; reflexivity.
Defined.

Lemma flags_fit_sample_2 : flags_fit sample_record_2.
Proof.
  unfold flags_fit.
  repeat (apply Forall_cons; [vm_compute; lia|]). apply Forall_nil.
Defined.

(** X1, on a log of the other byte order that holds [sample_stdio_record]
    and one byte more, read with a null buffer pointer. *)
Lemma get_stdio_record_decodes_witness :
  let F := sample_format in
  let fd := log_of 2 true (stdio_bytes true sample_stdio_record ++ [xff]) in
  let o := darshan_log_get_stdio_record F fd sample_heap None in
  o_ret o = 1 /\
  o_fd o = after_read fd (sizeof_stdio_file F) [xff] /\
  exists rec,
    o_buf o = Some rec /\ oob rec = false /\
    stdio_record_of F rec = sample_stdio_record.
Proof.
  apply (get_stdio_record_decodes sample_format
           (log_of 2 true (stdio_bytes true sample_stdio_record ++ [xff]))
           sample_heap None sample_stdio_record [xff]).
  - exact format_ok_sample.
  - exact stdio_file_ok_sample.
  - vm_compute. discriminate.
  - reflexivity.
  - apply malloc_ready_sample. vm_compute. discriminate.
Defined.

(** X2, on the caller's buffer [sample_stdio_buffer], asked for version
    1 and read back with a null buffer pointer. *)
Lemma stdio_put_then_get_round_trip_witness :
  let F := sample_format in
  let o := stdio_put_then_get F sample_heap sample_stdio_buffer 1 None in
  o_ret o = 1 /\ mod_data (o_fd o) = [] /\
  exists rec',
    o_buf o = Some rec' /\ oob rec' = false /\
    mem_read 0 (sizeof_stdio_file F) (mem rec')
    = mem_read 0 (sizeof_stdio_file F) (mem sample_stdio_buffer) /\
    stdio_record_of F rec' = stdio_record_of F sample_stdio_buffer.
Proof.
  apply (stdio_put_then_get_round_trip sample_format sample_heap
           sample_stdio_buffer 1 None).
  - exact format_ok_sample.
  - vm_compute. discriminate.
  - apply malloc_ready_sample. vm_compute. discriminate.
Defined.

(** X3, on a log that holds [sample_stdio_record]. *)
Lemma printed_lines_of_a_stdio_record_witness :
  exists rec,
    o_buf (darshan_log_get_stdio_record sample_format
             (log_of 2 false (stdio_bytes false sample_stdio_record ++ []))
             sample_heap None) = Some rec /\
    darshan_log_print_stdio_record sample_format
      sample_stdio_counter_names sample_stdio_f_counter_names
      rec "/tmp/out.txt" "/tmp" "ext4" 2
    = stdio_record_lines sample_stdio_counter_names
        sample_stdio_f_counter_names sample_stdio_record
        "/tmp/out.txt" "/tmp" "ext4".
Proof.
  apply (printed_lines_of_a_stdio_record sample_format
           sample_stdio_counter_names sample_stdio_f_counter_names
           (log_of 2 false (stdio_bytes false sample_stdio_record ++ []))
           sample_heap None sample_stdio_record []).
  - exact format_ok_sample.
  - exact stdio_file_ok_sample.
  - vm_compute. discriminate.
  - reflexivity.
  - apply malloc_ready_sample. vm_compute. discriminate.
Defined.

(** X9, on a log of the other byte order that holds [sample_record_2],
    read with a null buffer pointer. *)
Lemma get_lustre_record_decodes_witness :
  let F := sample_format in
  let fd := log_of 2 true (lustre_bytes F true sample_record_2 ++ [xff]) in
  let o := darshan_log_get_lustre_record F fd sample_heap None in
  o_ret o = 1 /\ mod_data (o_fd o) = [xff] /\
  exists rec,
    o_buf o = Some rec /\ oob rec = false /\ record_of F rec = sample_record_2.
Proof.
  apply (get_lustre_record_decodes sample_format
           (log_of 2 true (lustre_bytes sample_format true sample_record_2 ++ [xff]))
           sample_heap None sample_record_2 [xff]).
  - exact format_ok_sample.
  - exact lustre_record_ok_sample_2.
  - vm_compute. discriminate.
  - split; [vm_compute; discriminate | vm_compute; discriminate].
  - vm_compute. discriminate.
  - reflexivity.
  - apply heap_ready_sample. vm_compute. discriminate.
Defined.

(** X10, on [one_component_stream]: with the header term 40, 128 bytes
    are written for the 112 that were read; with 24, the first 112 of
    them. *)
Lemma get_then_put_writes_memory_image_witness :
  let F := sample_format in
  let r := sample_record in
  exists rec,
    o_buf (darshan_log_get_lustre_record F
             (log_of 2 false (lustre_bytes F false r ++ []))
             sample_heap None) = Some rec /\
    (forall (header : Z) (out : darshan_fd),
        fixed_size <= header <= sizeof_lustre_record ->
        darshan_log_put_lustre_record_with F header out rec
        = if write_broken out then (-1, out)
          else (0, after_write out (DARSHAN_LUSTRE_VER F)
                     (firstn (Z.to_nat (written_size F header r))
                        (memory_image F rec r)))) /\
    (forall out : darshan_fd,
        darshan_log_put_lustre_record F out rec
        = if write_broken out then (-1, out)
          else (0, after_write out (DARSHAN_LUSTRE_VER F)
                     (memory_image F rec r))) /\
    firstn (Z.to_nat sizeof_lustre_record) (memory_image F rec r)
    = header_bytes false (base_rec_id r) (base_rec_rank r) (num_comps r)
      ++ word false (addr rec + sizeof_lustre_record)
      ++ word false (addr rec + sizeof_lustre_record
                     + num_comps r * sizeof_lustre_component F) /\
    Z.of_nat (length (memory_image F rec r))
    = Z.of_nat (length (lustre_bytes F false r)) + 16 /\
    written_size F fixed_size r = Z.of_nat (length (lustre_bytes F false r)).
Proof.
  apply (get_then_put_writes_memory_image sample_format
           (log_of 2 false (lustre_bytes sample_format false sample_record ++ []))
           sample_heap None sample_record []).
  - exact format_ok_sample.
  - exact lustre_record_ok_sample.
  - vm_compute. discriminate.
  - split; [vm_compute; discriminate | vm_compute; discriminate].
  - vm_compute. discriminate.
  - reflexivity.
  - apply heap_ready_sample. vm_compute. discriminate.
Defined.

(** X11, on the header and component of [sample_record] followed by one
    identifier instead of two. *)
Lemma identifier_list_cut_short_witness :
  let F := sample_format in
  let fd := log_of 2 false
              (header_bytes false 7 3 1
               ++ flat_map (component_bytes_of F false) (comps sample_record)
               ++ word false 11) in
  let o := darshan_log_get_lustre_record F fd sample_heap None in
  o_ret o = -1 /\ (@None block = None -> o_buf o = None).
Proof.
  apply (identifier_list_cut_short sample_format
           (log_of 2 false
              (header_bytes false 7 3 1
               ++ flat_map (component_bytes_of sample_format false)
                    (comps sample_record)
               ++ word false 11))
           sample_heap None sample_record (word false 11)).
  - exact format_ok_sample.
  - apply lustre_record_ok_components. exact lustre_record_ok_sample.
  - vm_compute. discriminate.
  - split; [vm_compute; discriminate | vm_compute; discriminate].
  - vm_compute. discriminate.
  - reflexivity.
  - vm_compute. reflexivity.
  - apply heap_ready_sample. vm_compute. discriminate.
Defined.

(** X12, on [legacy_stream], read with a null buffer pointer. *)
Lemma legacy_record_decodes_witness :
  let F := sample_format in
  let o := darshan_log_get_lustre_record F (log_of 1 false legacy_stream)
             sample_heap None in
  o_ret o = 1 /\ mod_data (o_fd o) = [] /\
  exists rec,
    o_buf o = Some rec /\ oob rec = false /\
    upgraded (record_of F rec) 7 3 65536 4 [1; 2; 3; 4].
Proof.
  apply (legacy_record_decodes sample_format (log_of 1 false legacy_stream)
           sample_heap None 7 3 100 101 102 65536 4 [1; 2; 3; 4] []).
  - exact format_ok_sample.
  - vm_compute. discriminate.
  - reflexivity.
  - vm_compute. discriminate.
  - in_range.
  - in_range.
  - in_range.
  - lia.
  - vm_compute. reflexivity.
  - reflexivity.
  - all_in_range.
  - reflexivity.
  - apply malloc_ready_sample. vm_compute. discriminate.
Defined.

(** X13, on [legacy_cut_stream] in a log whose reads fail once the region
    is exhausted: the reader returns 1. *)
Lemma legacy_identifier_list_cut_short_witness :
  o_ret (darshan_log_get_lustre_record sample_format
           (broken_log_of 1 false legacy_cut_stream) sample_heap None)
  = 1.
Proof.
  apply (legacy_identifier_list_cut_short sample_format
           (broken_log_of 1 false legacy_cut_stream) sample_heap None
           [7; 3; 100; 101; 102; 65536; 4] (word false 1)).
  - exact format_ok_sample.
  - vm_compute. discriminate.
  - reflexivity.
  - vm_compute. discriminate.
  - reflexivity.
  - vm_compute. reflexivity.
  - vm_compute. reflexivity.
  - vm_compute. reflexivity.
  - reflexivity.
  - apply malloc_ready_sample. vm_compute. discriminate.
Defined.

(** X14, on [no_component_stream] and two buffers of the caller. *)
Lemma empty_record_round_trip_witness :
  let F := sample_format in
  let R := mk_lustre_record 7 3 0 [] [] in
  let o := darshan_log_get_lustre_record F (log_of 2 false (no_component_stream ++ []))
             sample_heap (Some sample_buffer) in
  decoded F o = Some R /\
  exists rec,
    o_buf o = Some rec /\
    o_ret (put_then_get F sample_heap rec (Some sample_buffer)) = fixed_size /\
    decoded F (put_then_get F sample_heap rec (Some sample_buffer)) = Some R.
Proof.
  apply (empty_record_round_trip sample_format
           (log_of 2 false (no_component_stream ++ [])) sample_heap
           sample_buffer sample_buffer 7 3 []).
  - vm_compute. discriminate.
  - vm_compute. discriminate.
  - split; [vm_compute; discriminate | vm_compute; discriminate].
  - vm_compute. discriminate.
  - in_range.
  - in_range.
  - reflexivity.
  - unfold block_ok. cbn. repeat split; lia.
  - vm_compute. discriminate.
  - unfold block_ok. cbn. repeat split; lia.
  - vm_compute. discriminate.
Defined.

(** X15, on [no_component_stream], read with a null buffer pointer. *)
Lemma empty_record_is_dropped_witness :
  let o := darshan_log_get_lustre_record sample_format
             (log_of 2 false no_component_stream) sample_heap None in
  o_ret o = fixed_size /\ o_buf o = None /\
  o_heap o = [Malloc sizeof_lustre_record; Free 256].
Proof.
  apply (empty_record_is_dropped sample_format
           (log_of 2 false no_component_stream) sample_heap 256
           (word false 7 ++ word false 3) []).
  - vm_compute. discriminate.
  - split; [vm_compute; discriminate | vm_compute; discriminate].
  - vm_compute. discriminate.
  - reflexivity.
  - reflexivity.
  - reflexivity.
Defined.

(** X16, on [truncated_swapped_stream], a log of the other byte order:
    72 bytes are asked for, the size of one component. *)
Lemma component_request_uses_normalized_count_witness :
  let fd := log_of 2 true truncated_swapped_stream in
  exists more,
    asked (o_fd (darshan_log_get_lustre_record_cur sample_format fd
                   sample_heap None))
    = asked fd
      ++ fixed_size
         :: to_int (to_size_t (peek_num_comps fd)
                    * sizeof_lustre_component sample_format)
         :: more.
Proof.
  apply (component_request_uses_normalized_count sample_format
           (log_of 2 true truncated_swapped_stream) sample_heap None).
  - vm_compute. discriminate.
  - right. discriminate.
  - vm_compute. discriminate.
Defined.

(** X17, on [one_component_stream]. *)
Lemma null_pointer_set_exactly_on_success_witness :
  let fd := log_of 2 false one_component_stream in
  let s := darshan_log_get_stdio_record sample_format fd sample_heap None in
  let l := darshan_log_get_lustre_record sample_format fd sample_heap None in
  (o_buf s <> None <-> o_ret s = 1) /\ (o_buf l <> None <-> o_ret l = 1).
Proof.
  apply (null_pointer_set_exactly_on_success sample_format
           (log_of 2 false one_component_stream) sample_heap).
  exact format_ok_sample.
Defined.


(** X19, on a log that holds [sample_record_2]. *)
Lemma printed_lines_of_a_log_record_witness :
  let F := sample_format in
  exists rec,
    o_buf (darshan_log_get_lustre_record F
             (log_of 2 false (lustre_bytes F false sample_record_2 ++ []))
             sample_heap None) = Some rec /\
    darshan_log_print_lustre_record F sample_names rec
      "/lus/out.dat" "/lus" "lustre"
    = Some (record_lines F sample_stem sample_tail sample_record_2
              "/lus/out.dat" "/lus" "lustre").
Proof.
  apply (printed_lines_of_a_log_record sample_format
           sample_names sample_stem sample_tail
           (log_of 2 false (lustre_bytes sample_format false sample_record_2 ++ []))
           sample_heap None sample_record_2 []).
  - exact format_ok_sample.
  - exact names_split_sample.
  - exact lustre_record_ok_sample_2.
  - unfold pool_names_terminated.
    repeat (apply Forall_cons; [cbn; lia|]). apply Forall_nil.
  - exact flags_fit_sample_2.
  - vm_compute. discriminate.
  - split; [vm_compute; discriminate | vm_compute; discriminate].
  - vm_compute. discriminate.
  - reflexivity.
  - apply heap_ready_sample. vm_compute. discriminate.
Defined.

(** X20, on the name of the stripe size counter, for the twelfth
    component. *)
Lemma counter_label_inserts_component_number_witness :
  counter_label sample_names 11 0
  = Some ("LUSTRE_COMP"%string, "LUSTRE_COMP12_STRIPE_SIZE"%string).
Proof.
  apply (counter_label_inserts_component_number sample_names 11 0
           "LUSTRE" "COMP" "STRIPE_SIZE").
  - reflexivity.
  - cbn. repeat split; discriminate.
  - cbn. repeat split; discriminate.
  - vm_compute. lia.
Defined.

(** C6, on a log that holds [sample_record]: the Lustre reader returns 1
    for the whole record, and the STDIO reader, for which the 112 bytes
    are a partial record, returns 0. *)
Lemma get_record_return_codes_witness :
  format_ok sample_format /\
  let fd := log_of 2 false (lustre_bytes sample_format false sample_record ++ []) in
  o_ret (darshan_log_get_lustre_record sample_format fd sample_heap None) = 1 /\
  o_ret (darshan_log_get_stdio_record sample_format fd sample_heap None) = 0.
Proof.
  split; [exact format_ok_sample|].
  destruct (get_record_return_codes sample_format
              (log_of 2 false
                 (lustre_bytes sample_format false sample_record ++ []))
              sample_heap None format_ok_sample)
    as ((_ & Hs0 & _) & _ & (_ & _ & Hwhole & _)).
  split.
  - apply (Hwhole sample_record []).
    + exact lustre_record_ok_sample.
    + vm_compute. discriminate.
    + split; [vm_compute; discriminate | vm_compute; discriminate].
    + vm_compute. discriminate.
    + reflexivity.
    + apply heap_ready_sample. vm_compute. discriminate.
  - apply Hs0. right. split; [right; discriminate|].
    split; [vm_compute; reflexivity | reflexivity].
Defined.
